(** * Token bridge: the Hathor federation ledger and the off-chain coordinator

    A shallow embedding of
    - [bridge/contracts/HathorTransactions/HathorTransactions.sol]
      (module [HathorTransactions]),
    - [federator/src/lib/HathorWallet.ts] (module [HathorWallet]),
    - the [HathorService] class of the federator (module [HathorService]),
    - [federator/src/contracts/IAllowTokensV1.ts] (module [IAllowTokensV1]),
    followed by the properties established about them. *)

From Stdlib Require Import ZArith List Lia Ascii String Bool.
From Stdlib.Strings Require Import Byte.
From stdpp Require Import gmap strings list.

Local Open Scope Z_scope.

(* ===================================================================== *)
(** * Part I: the embedding *)
(* ===================================================================== *)

(** ** JavaScript strings

    A JavaScript string is a sequence of UTF-16 code units; [length],
    [substring] and regular expressions without the [u] flag all work on
    code units. *)

Module JS.

Definition char : Type := N.
Definition jsstring : Type := list char.

(** String literals of the source (ASCII only). *)
Definition js (s : string) : jsstring :=
  List.map N_of_ascii (list_ascii_of_string s).

(** [String.prototype.substring(start, end)] on non-negative integer
    arguments: both are clamped to the length and swapped when
    [start > end]. *)
Definition substring (start end_ : nat) (s : jsstring) : jsstring :=
  let a := Nat.min start (length s) in
  let b := Nat.min end_ (length s) in
  take (Nat.max a b - Nat.min a b) (drop (Nat.min a b) s).

(** [String.prototype.startsWith]. *)
Definition startsWith (s p : jsstring) : bool :=
  bool_decide (take (length p) s = p).

Definition digit (d : nat) : char := (48 + N.of_nat d)%N.

(** Decimal rendering of a non-negative integer, as a template literal
    renders a number: most significant digit first, no padding.  The
    recursion is on [fuel]; [decimal] supplies enough of it. *)
Fixpoint decimal_fuel (fuel n : nat) (acc : jsstring) : jsstring :=
  match fuel with
  | O => acc
  | S fuel' =>
      let acc' := digit (n mod 10) :: acc in
      if (n <? 10)%nat then acc' else decimal_fuel fuel' (n / 10) acc'
  end.

Definition decimal (n : nat) : jsstring := decimal_fuel (S n) n [].

(** A template literal rendering of an integer-valued number. *)
Definition number (z : Z) : jsstring :=
  if z <? 0 then js "-" ++ decimal (Z.to_nat (- z)) else decimal (Z.to_nat z).

(** The fragment of regular expressions the coordinator uses: a sequence
    of literal characters and [.] wildcards, searched for anywhere in the
    subject ([String.prototype.match] with a non-global pattern is
    truthy exactly when the pattern occurs). *)
Inductive atom := Lit (c : char) | Dot.
Definition regex : Type := list atom.

(** [.] matches every code unit but the line terminators. *)
Definition isLineTerminator (c : char) : bool :=
  (N.eqb c 10 || N.eqb c 13 || N.eqb c 8232 || N.eqb c 8233)%N.

Definition atom_matches (a : atom) (c : char) : bool :=
  match a with
  | Lit c' => N.eqb c' c
  | Dot => negb (isLineTerminator c)
  end.

Fixpoint matchesAt (r : regex) (s : jsstring) : bool :=
  match r, s with
  | [], _ => true
  | a :: r', c :: s' => atom_matches a c && matchesAt r' s'
  | _ :: _, [] => false
  end.

Fixpoint matches (s : jsstring) (r : regex) : bool :=
  matchesAt r s ||
  match s with
  | [] => false
  | _ :: s' => matches s' r
  end.

(** A pattern literal whose only metacharacter is [.]. *)
Definition re (s : string) : regex :=
  List.map (fun c => if N.eqb c 46 then Dot else Lit c) (js s).

End JS.
Export JS.
Global Arguments js : simpl never.

(** ** The federation ledger: [HathorTransactions.sol] *)

Module HathorTransactions.

Definition address : Type := Z.
Definition bytes32 : Type := Z.
Definition uint256 : Type := Z.
Definition bytes : Type := list byte.

Definition NULL_ADDRESS : address := 0.
Definition MAX_MEMBER_COUNT : Z := 50.

Inductive Flow := MELT | MINT | TRNASFER | RETURN.

(** [keccak256] is an EVM built-in; the development is parametric in it. *)
Class Keccak := keccak256 : bytes -> bytes32.

(** *** [abi.encodePacked] on the argument types used here *)

Definition byte_of_Z (z : Z) : byte :=
  match Byte.of_N (Z.to_N (Z.land z 255)) with
  | Some b => b
  | None => x00
  end.

(** A [bytes32] or [uint256] value: 32 bytes, most significant first. *)
Definition pack32 (x : Z) : bytes :=
  List.map (fun i : nat => byte_of_Z (Z.shiftr x (8 * (31 - Z.of_nat i))))
           (seq 0 32).

(** An enum is packed as its [uint8] ordinal. *)
Definition Flow_ordinal (f : Flow) : Z :=
  match f with MELT => 0 | MINT => 1 | TRNASFER => 2 | RETURN => 3 end.

Definition pack_Flow (f : Flow) : bytes := [byte_of_Z (Flow_ordinal f)].

(** *** Storage *)

Record state := mkState {
  initialized : bool;           (* Initializable *)
  owner : address;              (* UpgradableOwnable *)
  members : list address;
  isMember : gmap address bool;
  isSigned : gmap (bytes32 * address) bool;
  isProcessed : gmap bytes32 bool;
  isProposed : gmap bytes32 bool;
  transactionHex : gmap bytes32 bytes;
  transactionSignatures : gmap bytes32 (list bytes)
}.

(** A Solidity mapping is total: an absent key reads as the zero value. *)
Definition flag {K} `{Countable K} (m : gmap K bool) (k : K) : bool :=
  default false (m !! k).

Definition sigs_of (st : state) (id : bytes32) : list bytes :=
  default [] (transactionSignatures st !! id).

Definition empty_state : state :=
  mkState false 0 [] ∅ ∅ ∅ ∅ ∅ ∅.

Definition set_owner (st : state) (o : address) : state :=
  mkState (initialized st) o (members st) (isMember st) (isSigned st)
    (isProcessed st) (isProposed st) (transactionHex st)
    (transactionSignatures st).
Definition set_initialized (st : state) : state :=
  mkState true (owner st) (members st) (isMember st) (isSigned st)
    (isProcessed st) (isProposed st) (transactionHex st)
    (transactionSignatures st).
Definition set_members (st : state) (ms : list address) : state :=
  mkState (initialized st) (owner st) ms (isMember st) (isSigned st)
    (isProcessed st) (isProposed st) (transactionHex st)
    (transactionSignatures st).
Definition set_isMember (st : state) (a : address) (b : bool) : state :=
  mkState (initialized st) (owner st) (members st) (<[a := b]> (isMember st))
    (isSigned st) (isProcessed st) (isProposed st) (transactionHex st)
    (transactionSignatures st).
Definition set_isSigned (st : state) (id : bytes32) (a : address) (b : bool)
  : state :=
  mkState (initialized st) (owner st) (members st) (isMember st)
    (<[(id, a) := b]> (isSigned st)) (isProcessed st) (isProposed st)
    (transactionHex st) (transactionSignatures st).
Definition set_isProcessed (st : state) (id : bytes32) (b : bool) : state :=
  mkState (initialized st) (owner st) (members st) (isMember st) (isSigned st)
    (<[id := b]> (isProcessed st)) (isProposed st) (transactionHex st)
    (transactionSignatures st).
Definition set_isProposed (st : state) (id : bytes32) (b : bool) : state :=
  mkState (initialized st) (owner st) (members st) (isMember st) (isSigned st)
    (isProcessed st) (<[id := b]> (isProposed st)) (transactionHex st)
    (transactionSignatures st).
Definition set_transactionHex (st : state) (id : bytes32) (h : bytes) : state :=
  mkState (initialized st) (owner st) (members st) (isMember st) (isSigned st)
    (isProcessed st) (isProposed st) (<[id := h]> (transactionHex st))
    (transactionSignatures st).
Definition push_signature (st : state) (id : bytes32) (s : bytes) : state :=
  mkState (initialized st) (owner st) (members st) (isMember st) (isSigned st)
    (isProcessed st) (isProposed st) (transactionHex st)
    (<[id := sigs_of st id ++ [s]]> (transactionSignatures st)).

(** *** Events, as the [emit] statements pass them *)

Inductive event :=
| ProposalSigned (transactionId : bytes32) (member : address) (signed : bool)
    (signature : bytes)
| ProposalSent (transactionId : bytes32) (sent : bool)
| TransactionProposed (transactionId : bytes32) (transactionHash : bytes32)
    (txHex : bytes)
| MemberAddition (member : address)
| MemberRemoval (member : address).

(** *** Outcome of a call: a revert, or the new storage, the events
    emitted and the returned value *)

Inductive result (A : Type) :=
| Revert (reason : string)
| Ok (st : state) (evs : list event) (ret : A).
Arguments Revert {A} reason.
Arguments Ok {A} st evs ret.

(** The six arguments every transaction entry point takes, in the order
    of the Solidity signatures. *)
Record transfer := mkTransfer {
  originalTokenAddress : bytes32;
  transactionHash : bytes32;
  value : uint256;
  sender : bytes32;
  receiver : bytes32;
  flow : Flow
}.

(** A stand-in for the built-in hash, to run the contract on concrete
    transactions. *)
Definition example_hash : Keccak :=
  fun bs =>
    fold_left (fun acc b => (acc * 257 + Z.of_N (Byte.to_N b)) mod 2 ^ 256)
              bs 0.

Section Contract.
Context `{Keccak}.

(** The identifier as the specification writes it:
    [H(originalTokenAddress ‖ sender ‖ receiver ‖ value ‖
       transactionHash ‖ flow)]. *)
Definition packed (t : transfer) : bytes :=
  pack32 (originalTokenAddress t) ++ pack32 (sender t) ++
  pack32 (receiver t) ++ pack32 (value t) ++
  pack32 (transactionHash t) ++ pack_Flow (flow t).

Definition transactionId (t : transfer) : bytes32 := keccak256 (packed t).

(** [modifier onlyMember] *)
Definition onlyMember {A} (st : state) (msg_sender : address)
  (body : result A) : result A :=
  if flag (isMember st) msg_sender then body
  else Revert "Federation: Not Federator".

(** [modifier onlyOwner] of [UpgradableOwnable] (imported, not among the
    sources): the caller must be the owner. *)
Definition onlyOwner {A} (st : state) (msg_sender : address)
  (body : result A) : result A :=
  if bool_decide (msg_sender = owner st) then body
  else Revert "Ownable: caller is not the owner".

(** The loop of [initialize]: [i] runs over [_members]. *)
Fixpoint initialize_loop (st : state) (evs : list event)
  (ms : list address) : result unit :=
  match ms with
  | [] => Ok st evs tt
  | m :: ms' =>
      if negb (flag (isMember st) m) && negb (bool_decide (m = NULL_ADDRESS))
      then initialize_loop (set_isMember st m true)
             (evs ++ [MemberAddition m]) ms'
      else Revert "Federation: Invalid members"
  end.

(** [initialize]; the [initializer] modifier of [Initializable] (imported,
    not among the sources) lets it run once, and
    [UpgradableOwnable.initialize] records the owner. *)
Definition initialize (st : state) (_members : list address)
  (owner_ : address) : result unit :=
  if initialized st
  then Revert "Contract instance has already been initialized"
  else
    let st := set_owner (set_initialized st) owner_ in
    if Z.of_nat (length _members) <=? MAX_MEMBER_COUNT then
      initialize_loop (set_members st _members) [] _members
    else Revert "Federation: Too many members".

Definition getTransactionId (st : state) (msg_sender : address)
  (t : transfer) : result bytes32 :=
  onlyMember st msg_sender (
    let transactionId := keccak256 (
      pack32 (originalTokenAddress t) ++
      pack32 (sender t) ++
      pack32 (receiver t) ++
      pack32 (value t) ++
      pack32 (transactionHash t) ++
      pack_Flow (flow t)) in
    Ok st [] transactionId).

Definition sendTransactionProposal (st : state) (msg_sender : address)
  (t : transfer) (txHex : bytes) : result unit :=
  onlyMember st msg_sender (
    let transactionId := keccak256 (
      pack32 (originalTokenAddress t) ++
      pack32 (sender t) ++
      pack32 (receiver t) ++
      pack32 (value t) ++
      pack32 (transactionHash t) ++
      pack_Flow (flow t)) in
    if negb (flag (isProposed st) transactionId) then
      let st := set_transactionHex st transactionId txHex in
      let st := set_isProposed st transactionId true in
      Ok st [TransactionProposed transactionId (transactionHash t) txHex] tt
    else Revert "HathorTransactions: already proposed").

Definition updateSignatureState (st : state) (msg_sender : address)
  (t : transfer) (signature : bytes) (signed : bool) : result unit :=
  onlyMember st msg_sender (
    let transactionId := keccak256 (
      pack32 (originalTokenAddress t) ++
      pack32 (sender t) ++
      pack32 (receiver t) ++
      pack32 (value t) ++
      pack32 (transactionHash t) ++
      pack_Flow (flow t)) in
    if negb (flag (isSigned st) (transactionId, msg_sender)) then
      let st := set_isSigned st transactionId msg_sender signed in
      let st := push_signature st transactionId signature in
      Ok st [ProposalSigned transactionId msg_sender signed signature] tt
    else Revert "HathorTransactions: Transaction already signed").

Definition updateTransactionState (st : state) (msg_sender : address)
  (t : transfer) (sent : bool) : result unit :=
  onlyMember st msg_sender (
    let transactionId := keccak256 (
      pack32 (originalTokenAddress t) ++
      pack32 (sender t) ++
      pack32 (receiver t) ++
      pack32 (value t) ++
      pack32 (transactionHash t) ++
      pack_Flow (flow t)) in
    if negb (flag (isProcessed st) transactionId) then
      let st := set_isProcessed st transactionId sent in
      Ok st [ProposalSent transactionId sent] tt
    else Revert "HathorTransactions: Transaction already sent").

Definition addMember (st : state) (msg_sender : address)
  (_newMember : address) : result unit :=
  onlyOwner st msg_sender (
    if bool_decide (_newMember = NULL_ADDRESS)
    then Revert "Federation: Empty member"
    else if flag (isMember st) _newMember
    then Revert "Federation: Member already exists"
    else
      let st := set_isMember st _newMember true in
      let st := set_members st (members st ++ [_newMember]) in
      Ok st [MemberAddition _newMember] tt).

(** The loop of [removeMember]: the first index [i < length - 1] holding
    [_oldMember] receives the last element; then the loop breaks. *)
Fixpoint removeMember_loop (ms : list address) (last_ : address)
  (_oldMember : address) : list address :=
  match ms with
  | [] => []
  | [x] => [x]               (* index [length - 1] is not visited *)
  | x :: ms' =>
      if bool_decide (x = _oldMember) then last_ :: ms'
      else x :: removeMember_loop ms' last_ _oldMember
  end.

Definition removeMember (st : state) (msg_sender : address)
  (_oldMember : address) : result unit :=
  onlyOwner st msg_sender (
    if bool_decide (_oldMember = NULL_ADDRESS)
    then Revert "Federation: Empty member"
    else if negb (flag (isMember st) _oldMember)
    then Revert "Federation: Member doesn't exists"
    else if negb (1 <? Z.of_nat (length (members st)))
    then Revert "Federation: Can't remove all the members"
    else
      let st := set_isMember st _oldMember false in
      let ms := removeMember_loop (members st)
                  (List.last (members st) NULL_ADDRESS) _oldMember in
      let st := set_members st (removelast ms) in
      Ok st [MemberRemoval _oldMember] tt).

Definition getMembers (st : state) : result (list address) :=
  Ok st [] (members st).

(** A call to a function inherited from [Initializable] or
    [UpgradableOwnable] (the imported zeppelin contracts, which are not
    among the sources).  Whatever such a function does, the storage it can
    name is that of its own contract: the [initialized] mark and the
    [owner].  [body] gives its outcome from the caller and these two. *)
Definition inherited (st : state) (msg_sender : address)
  (body : address -> bool -> address -> option (bool * address))
  : result unit :=
  match body msg_sender (initialized st) (owner st) with
  | None => Revert "reverted in an inherited function"
  | Some (i, o) =>
      Ok (mkState i o (members st) (isMember st) (isSigned st)
            (isProcessed st) (isProposed st) (transactionHex st)
            (transactionSignatures st)) [] tt
  end.

(** *** Transactions sent to the contract *)

Inductive call :=
| Initialize (_members : list address) (owner_ : address)
| GetTransactionId (t : transfer)
| SendTransactionProposal (t : transfer) (txHex : bytes)
| UpdateSignatureState (t : transfer) (signature : bytes) (signed : bool)
| UpdateTransactionState (t : transfer) (sent : bool)
| AddMember (_newMember : address)
| RemoveMember (_oldMember : address)
| GetMembers
| Inherited (body : address -> bool -> address -> option (bool * address)).

Definition forget {A} (r : result A) : result unit :=
  match r with
  | Revert m => Revert m
  | Ok st evs _ => Ok st evs tt
  end.

Definition execute (st : state) (msg_sender : address) (c : call)
  : result unit :=
  match c with
  | Initialize ms o => initialize st ms o
  | GetTransactionId t => forget (getTransactionId st msg_sender t)
  | SendTransactionProposal t h => sendTransactionProposal st msg_sender t h
  | UpdateSignatureState t s b => updateSignatureState st msg_sender t s b
  | UpdateTransactionState t b => updateTransactionState st msg_sender t b
  | AddMember a => addMember st msg_sender a
  | RemoveMember a => removeMember st msg_sender a
  | GetMembers => forget (getMembers st)
  | Inherited body => inherited st msg_sender body
  end.

(** A reverted transaction leaves the storage as it was. *)
Definition step (st : state) (tx : address * call) : state :=
  match execute st (fst tx) (snd tx) with
  | Revert _ => st
  | Ok st' _ _ => st'
  end.

Definition run (st : state) (txs : list (address * call)) : state :=
  fold_left step txs st.

Definition succeeds (st : state) (tx : address * call) : bool :=
  match execute st (fst tx) (snd tx) with
  | Revert _ => false
  | Ok _ _ _ => true
  end.

End Contract.

End HathorTransactions.

(** ** Effects of the federator process

    The TypeScript code talks to the wallet service over HTTP, to the two
    brokers, to the queue message ([ack]/[nack]), to the logger and to the
    timer.  A computation threads the list of effects performed so far and
    either returns a value or throws.  Whatever the outside answers is
    given by a [World], which may answer differently as the history
    grows. *)

Module Effects.

(** Thrown values. [Rethrown p e] is the [Error] built by
    [throw Error(`${p}${e}`)] inside a [catch (e)].  The second argument
    of [new HathorException(message, originalMessage)] may be [undefined]
    ([None]): [signAndPushProposal] passes the optional
    [response.data.error].

    [UnhandledRejection reason] is not a value the code throws: it is the
    end of the process when a promise that nobody awaits is rejected with
    [reason], which Node (15 and later) raises as an uncaught exception.
    No [catch] of the code sees it: the only place that produces it
    stands outside every [try]. *)
Inductive error :=
| HathorException (message : jsstring) (originalMessage : option jsstring)
| JsError (message : jsstring)
| Rethrown (prefix : jsstring) (cause : error)
| UnhandledRejection (reason : error).

Inductive brokerKind := EvmBroker | HathorBroker.

Record ProposalComponents := mkComponents {
  hex : jsstring;
  signatures : list jsstring
}.

Inductive brokerCall :=
| IsTxConfirmed (txId : jsstring)
| SendMySignaturesToProposal (txHex id : jsstring)
| GetSignaturesToPush (txId : jsstring)
| SignAndPushProposal (hex txId : jsstring) (signatures : list jsstring)
| SendTokensFromHathor (receiver : jsstring) (value : Z) (token : jsstring)
    (txId : jsstring) (sender : jsstring) (timestamp : Z)
| SendTokensToHathor (receiverAddress qtd tokenAddress txHash : jsstring).

(** Outputs handed to the wallet's [send-tx] endpoint. *)
Inductive Output :=
| DataOutput (data : jsstring)                 (* { type: 'data', data } *)
| AddressOutput (address : jsstring) (value : Z).

Inductive requestBody :=
| StartBody (wallet_id seedKey : jsstring) (multisig : bool)
| MintTokensBody (address amount token : jsstring)
| SendTxBody (outputs : list Output).

Inductive httpRequest :=
| GET (url : jsstring) (walletId : jsstring)
| POST (url : jsstring) (walletId : option jsstring) (body : requestBody).

Inductive logLevel := Info | Err.

Inductive effect :=
| ELog (level : logLevel) (text : jsstring) (thrown : option error)
| EAck
| ENack
| EBroker (b : brokerKind) (c : brokerCall)
| EHttp (r : httpRequest)
| EDelay (ms : Z)
| EReadFile (path : jsstring).

Definition history : Type := list effect.

Record Response (T : Type) := mkResponse {
  status : Z;
  statusText : jsstring;
  data : T
}.
Arguments mkResponse {T}.
Arguments status {T}.
Arguments statusText {T}.
Arguments data {T}.

Record StatusData := mkStatus {
  status_success : bool;
  statusCode : Z;
  statusMessage : jsstring
}.
Record StartData := mkStart { start_success : bool }.
Record AddressData := mkAddress { address : jsstring }.
Record CreateProposalData := mkCreate {
  create_success : bool;
  txHex : jsstring
}.
Record SendTxData := mkSendTx {
  send_success : bool;
  send_error : jsstring
}.

Record World := mkWorld {
  get_status : history -> httpRequest -> error + Response StatusData;
  post_start : history -> httpRequest -> error + Response StartData;
  get_address : history -> httpRequest -> error + Response AddressData;
  post_mint_tokens :
    history -> httpRequest -> error + Response CreateProposalData;
  post_send_tx : history -> httpRequest -> error + Response SendTxData;
  (* JSON.parse(fs.readFileSync(path, 'utf8')).tokens as
     (evmaddress, htraddress) pairs *)
  read_token_mapping : history -> jsstring -> error + list (jsstring * jsstring);
  isTxConfirmed_ : history -> brokerKind -> jsstring -> error + bool;
  sendMySignaturesToProposal_ :
    history -> brokerKind -> jsstring -> jsstring -> error + unit;
  getSignaturesToPush_ :
    history -> brokerKind -> jsstring -> error + ProposalComponents;
  signAndPushProposal_ :
    history -> brokerKind -> jsstring -> jsstring -> list jsstring ->
    error + unit;
  sendTokensFromHathor_ :
    history -> jsstring -> Z -> jsstring -> jsstring -> jsstring -> Z ->
    error + bool;
  sendTokensToHathor_ :
    history -> jsstring -> jsstring -> jsstring -> jsstring -> error + unit
}.

Definition M (A : Type) : Type :=
  World -> history -> history * (error + A).

Definition ret {A} (a : A) : M A := fun _ h => (h, inr a).
Definition throw {A} (e : error) : M A := fun _ h => (h, inl e).
Definition bind {A B} (m : M A) (k : A -> M B) : M B :=
  fun w h =>
    match m w h with
    | (h', inl e) => (h', inl e)
    | (h', inr a) => k a w h'
    end.
(** [try { m } catch (e) { handler e }] *)
Definition try_catch {A} (m : M A) (handler : error -> M A) : M A :=
  fun w h =>
    match m w h with
    | (h', inl e) => handler e w h'
    | (h', inr a) => (h', inr a)
    end.

(** Perform one effect whose answer the world chooses. *)
Definition perform {A} (e : effect) (answer : World -> history -> error + A)
  : M A :=
  fun w h => (h ++ [e], answer w h).

(** Effects that always return. *)
Definition emit (e : effect) : M unit := fun _ h => (h ++ [e], inr tt).

Definition log_info (text : jsstring) : M unit := emit (ELog Info text None).
Definition log_error (text : jsstring) : M unit := emit (ELog Err text None).
Definition ack : M unit := emit EAck.
Definition nack : M unit := emit ENack.

(** Which effects reach the wallet service or a broker. *)
Definition is_wallet_or_broker_call (e : effect) : bool :=
  match e with
  | EBroker _ _ | EHttp _ => true
  | _ => false
  end.

Definition calls (h : history) : history :=
  List.filter is_wallet_or_broker_call h.

End Effects.
Export Effects.

Declare Scope eff_scope.
Delimit Scope eff_scope with eff.
Notation "'let*' x ':=' c1 'in' c2" := (bind c1 (fun x => c2))
  (at level 10, x pattern, c1 at level 100, c2 at level 200) : eff_scope.
Notation "c1 ;; c2" := (bind c1 (fun _ => c2))
  (at level 100, c2 at level 200, right associativity) : eff_scope.
Local Open Scope eff_scope.

(** ** The wallet client: [HathorWallet.ts] *)

Module HathorWallet.

(** The fields the constructor copies from [config.sidechain[0]]. *)
Record HathorWallet := mkWallet {
  walletUrl : jsstring;
  singleWalletId : jsstring;
  singleSeedKey : jsstring;
  multisigWalletId : jsstring;
  multisigSeedKey : jsstring;
  multisigRequiredSignatures : Z;
  multisigOrder : Z;
  eventQueueType : jsstring;
  pubsubProjectId : jsstring
}.

Definition WALLET_STATUS_CONNECTING : Z := 1.
Definition WALLET_STATUS_SYNCING : Z := 2.
Definition WALLET_STATUS_READY : Z := 3.

(** [`${response.data}`] for an object. *)
Definition object_Object : jsstring := js "[object Object]".
(** [`${p}`] for a promise that was not awaited. *)
Definition object_Promise : jsstring := js "[object Promise]".

Section Methods.
Variable this : HathorWallet.

Definition delay (time : Z) : M unit := emit (EDelay time).

(** [Math.ceil(dataLength / dataLimit)] for a length and a positive
    limit: the quotient of two integers below 2^53 is rounded to a
    double that lies strictly between the same two integers, so the
    ceiling is the integer one. *)
Definition ceil_div (a b : nat) : nat := ((a + (b - 1)) / b)%nat.

Definition dataLimit : nat := 145%nat.

(** The [for] loop of [wrapData]; [todo] counts the iterations left,
    [arraySize - i]. *)
Fixpoint wrapData_loop (todo i arraySize : nat) (dataType data : jsstring)
  (outputs : list Output) : list Output :=
  match todo with
  | O => outputs
  | S todo' =>
      let start := (i * dataLimit)%nat in
      let end_ := (start + dataLimit)%nat in
      let part := substring start end_ data in
      wrapData_loop todo' (i + 1)%nat arraySize dataType data
        (outputs ++
         [DataOutput (dataType ++ decimal i ++ decimal arraySize ++ part)])
  end.

(** The outputs [wrapData] has pushed when the loop ends. *)
Definition wrapData_chunks (dataType data : jsstring) : list Output :=
  let dataLength := length data in
  let arraySize := ceil_div dataLength dataLimit in
  wrapData_loop arraySize 0%nat arraySize dataType data [].

Definition getMultiSigAddress : M jsstring :=
  let url := walletUrl this ++ js "/wallet/address" in
  let req := GET url (multisigWalletId this) in
  try_catch
    (let* response := perform (EHttp req) (fun w h => get_address w h req) in
     if status response =? 200 then ret (address (data response))
     else throw (JsError (number (status response) ++ js " - " ++
                          statusText response ++ js " | " ++
                          object_Object)))
    (fun error_ => throw (Rethrown (js "Fail to getMultiSigAddress: ") error_)).

Definition wrapData (dataType data : jsstring) (txId : jsstring)
  : M (list Output) :=
  let outputs := wrapData_chunks dataType data in
  let* address := getMultiSigAddress in
  ret (outputs ++ [AddressOutput address 1]).

Definition broadcastDataToMultisig (outputs : list Output) : M bool :=
  let url := walletUrl this ++ js "/wallet/send-tx" in
  let req := POST url (Some (singleWalletId this)) (SendTxBody outputs) in
  try_catch
    (let* response := perform (EHttp req) (fun w h => post_send_tx w h req) in
     if negb (status response =? 200) then
       throw (JsError (js "Response status: " ++ number (status response) ++
                       js " - status message: " ++ statusText response))
     else if (status response =? 200)
             && negb (send_success (data response)) then
       throw (JsError (js "Error message: " ++ send_error (data response)))
     else ret true)
    (fun error_ =>
       throw (Rethrown (js "Fail to broadcast data to multisig: ") error_)).

Definition startWallet (multisig : bool) : M bool :=
  let id := if multisig then multisigWalletId this else singleWalletId this in
  let seedKey := if multisig then multisigSeedKey this else singleSeedKey this in
  log_info (js "Trying to start " ++ id ++ js " wallet.") ;;
  let url := walletUrl this ++ js "/start" in
  let req := POST url None (StartBody id seedKey multisig) in
  try_catch
    (let* response := perform (EHttp req) (fun w h => post_start w h req) in
     ret ((status response =? 200) && start_success (data response)))
    (fun error_ => throw (Rethrown (js "Fail to start wallet: ") error_)).

(** What the [try] block of [isWalletReady] decides: a value to return,
    or the tail call [this.isWalletReady(multisig, ++retry)], which is
    returned without [await] and so is outside the [catch]. *)
Inductive poll_outcome :=
| Return (v : option bool)       (* [None] is [undefined] *)
| Retry.

Definition isWalletReady_poll (multisig : bool) (retry : Z)
  : M poll_outcome :=
  let id := if multisig then multisigWalletId this else singleWalletId this in
  log_info (js "Checking " ++ id ++ js " wallet status for the " ++
            number retry ++ js " time") ;;
  let url := walletUrl this ++ js "/wallet/status" in
  let req :=
    GET url (if multisig then multisigWalletId this else singleWalletId this) in
  try_catch
    (let* response := perform (EHttp req) (fun w h => get_status w h req) in
     if statusCode (data response) =? WALLET_STATUS_READY then
       log_info (id ++ js " wallet is ready.") ;;
       ret (Return (Some true))
     else if existsb (Z.eqb (statusCode (data response)))
               [WALLET_STATUS_CONNECTING; WALLET_STATUS_SYNCING] then
       log_info (id ++ js " wallet is " ++
                 statusMessage (data response) ++ js ".") ;;
       delay 3000 ;;
       ret Retry
     else if negb (status_success (data response))
             && bool_decide (statusMessage (data response) = js "") then
       log_info (id ++ js " wallet looks stopped.") ;;
       let* _ := startWallet multisig in
       delay 3000 ;;
       ret Retry
     else ret (Return None))
    (fun error_ =>
       throw (Rethrown (js "Fail to get status of " ++ id ++ js " wallet: ")
                error_)).

(** [isWalletReady]: [budget] is the number of polls the guard
    [retry > 3] still lets through, [4 - retry]. *)
Fixpoint isWalletReady_loop (budget : nat) (multisig : bool) (retry : Z)
  : M (option bool) :=
  match budget with
  | O =>
      let id :=
        if multisig then multisigWalletId this else singleWalletId this in
      log_error (js "Fail to start " ++ id ++
                 js " wallet: Maximum number of retries reached.") ;;
      ret (Some false)
  | S budget' =>
      let* outcome := isWalletReady_poll multisig retry in
      match outcome with
      | Return v => ret v
      | Retry => isWalletReady_loop budget' multisig (retry + 1)
      end
  end.

Definition isWalletReady (multisig : bool) (retry : Z) : M (option bool) :=
  isWalletReady_loop (Z.to_nat (4 - retry)) multisig retry.

(** The default argument [retry = 1]. *)
Definition isWalletReady1 (multisig : bool) : M (option bool) :=
  isWalletReady multisig 1.

Definition getHathorTokenAddress (evmTokenAddress : jsstring) : M jsstring :=
  let path := js "./db/tokenMapping.json" in
  let* tokens :=
    perform (EReadFile path) (fun w h => read_token_mapping w h path) in
  match List.find (fun t => bool_decide (fst t = evmTokenAddress)) tokens with
  | None =>
      throw (JsError (js "TypeError: Cannot read properties of undefined"))
  | Some token =>
      let hathorTokenAddress := snd token in
      log_info (js "Getting hathor token: " ++ hathorTokenAddress ++
                js " for evm " ++ evmTokenAddress) ;;
      ret hathorTokenAddress
  end.

(** An [async] call whose promise is not awaited: its synchronous
    effects happen and the caller goes on with the promise in hand.  The
    value is [Some reason] when that promise is rejected: a rejection
    that nobody handles. *)
Definition not_awaited {A} (m : M A) : M (option error) :=
  fun w h =>
    match m w h with
    | (h', inl reason) => (h', inr (Some reason))
    | (h', inr _) => (h', inr None)
    end.

(** The token lookup runs to its end before the request is built
    ([readFileSync] is synchronous), and its promise is only ever used as
    the text ["[object Promise]"].  When the lookup fails, the request is
    still made; while it is awaited the unhandled rejection ends the
    process, so nothing after the [await] runs, the [catch] included. *)
Definition sendTransactionProposal (receiverAddress qtd token : jsstring)
  : M jsstring :=
  let* hathorTokenAddress := not_awaited (getHathorTokenAddress token) in
  let url := walletUrl this ++ js "/wallet/p2sh/tx-proposal/mint-tokens" in
  let req := POST url (Some (multisigWalletId this))
               (MintTokensBody receiverAddress qtd object_Promise) in
  match hathorTokenAddress with
  | Some reason =>
      emit (EHttp req) ;;
      throw (UnhandledRejection reason)
  | None =>
      try_catch
        (let* response :=
           perform (EHttp req) (fun w h => post_mint_tokens w h req) in
         if (status response =? 200) && create_success (data response) then
           ret (txHex (data response))
         else throw (JsError (number (status response) ++ js " - " ++
                              statusText response ++ js " - " ++
                              object_Object)))
        (fun error_ =>
           throw (Rethrown (js "Failed to send transaction proposal: ")
                    error_))
  end.

Definition broadcastProposal (txHex txId : jsstring) : M unit :=
  let* outputs := wrapData (js "hex") txHex txId in
  let* _ := broadcastDataToMultisig outputs in
  ret tt.

Definition sendTokensToHathor (receiverAddress qtd tokenAddress txId : jsstring)
  : M unit :=
  if multisigOrder this >? 1 then ret tt
  else
    let* _ := isWalletReady1 true in
    let* _ := isWalletReady1 false in
    let* txHex := sendTransactionProposal receiverAddress qtd tokenAddress in
    broadcastProposal txHex txId.

(** *** What a run of the wallet client shows *)

(** The two requests of the readiness check. *)
Definition status_request (multisig : bool) : httpRequest :=
  GET (walletUrl this ++ js "/wallet/status")
      (if multisig then multisigWalletId this else singleWalletId this).

Definition start_request (multisig : bool) : httpRequest :=
  POST (walletUrl this ++ js "/start") None
       (StartBody
          (if multisig then multisigWalletId this else singleWalletId this)
          (if multisig then multisigSeedKey this else singleSeedKey this)
          multisig).

Definition wallet_id (multisig : bool) : jsstring :=
  if multisig then multisigWalletId this else singleWalletId this.

(** The logger calls of the readiness check. *)
Definition log_checking (multisig : bool) (retry : Z) : effect :=
  ELog Info (js "Checking " ++ wallet_id multisig ++
             js " wallet status for the " ++ number retry ++ js " time") None.
Definition log_ready (multisig : bool) : effect :=
  ELog Info (wallet_id multisig ++ js " wallet is ready.") None.
Definition log_is (multisig : bool) (statusMessage : jsstring) : effect :=
  ELog Info (wallet_id multisig ++ js " wallet is " ++ statusMessage ++ js ".")
       None.
Definition log_stopped (multisig : bool) : effect :=
  ELog Info (wallet_id multisig ++ js " wallet looks stopped.") None.
Definition log_starting (multisig : bool) : effect :=
  ELog Info (js "Trying to start " ++ wallet_id multisig ++ js " wallet.") None.
Definition log_exhausted (multisig : bool) : effect :=
  ELog Err (js "Fail to start " ++ wallet_id multisig ++
            js " wallet: Maximum number of retries reached.") None.

End Methods.

Definition is_log (e : effect) : bool :=
  match e with
  | ELog _ _ _ => true
  | _ => false
  end.

(** A history with the logger calls left out. *)
Definition without_logs (h : history) : history :=
  List.filter (fun e => negb (is_log e)) h.

Definition is_get (req : httpRequest) (e : effect) : bool :=
  match e, req with
  | EHttp (GET url id), GET url' id' =>
      bool_decide (url = url') && bool_decide (id = id')
  | _, _ => false
  end.

(** How many times [req] was sent in [h]. *)
Definition polls (req : httpRequest) (h : history) : nat :=
  length (List.filter (is_get req) h).

(** From the history [h0] on, the wallet service answers the status
    request [req] with [script]: its [k]-th answer, counting from 0 the
    polls made since [h0], is [script !! k]. *)
Definition reports (w : World) (req : httpRequest) (h0 : history)
  (script : list (Response StatusData)) : Prop :=
  forall (h' : history) (r : Response StatusData),
    script !! polls req h' = Some r ->
    get_status w (h0 ++ h') req = inr r.

(** A response the readiness check treats as "stopped": it reports none
    of the three status codes, [success] is false and the status message
    is empty. *)
Definition looks_stopped (d : StatusData) : Prop :=
  statusCode d <> WALLET_STATUS_READY
  /\ statusCode d <> WALLET_STATUS_CONNECTING
  /\ statusCode d <> WALLET_STATUS_SYNCING
  /\ status_success d = false
  /\ statusMessage d = js "".

End HathorWallet.

(** ** The decoding side of the payload codec *)

Module PayloadCodec.

(** Modelled from the spec: the outcome of [decode], a payload, absent, or
    the [MalformedPayload] failure. *)
Inductive decoded :=
| Absent
| MalformedPayload
| Payload (s : jsstring).

(** Modelled from the spec: what a custom-data output embeds after the
    tag. *)
Record chunk := mkChunk {
  chunkIndex : nat;
  totalChunks : nat;
  chunkBody : jsstring
}.

(** Modelled from the spec: index and total are decimal digits. *)
Definition parse_digit (c : char) : option nat :=
  if ((48 <=? c) && (c <=? 57))%N then Some (N.to_nat (c - 48)) else None.

(** Modelled from the spec: the decoder of custom-data outputs
    ([HathorTx.getCustomData] and the [HathorUtxo] parsing behind it,
    which are not among the sources).  The spec gives the wire format
    [{tag}{chunkIndex}{totalChunks}{chunkBody}] with no delimiter, index
    and total being single decimal digits found right after the tag,
    whose length the decoder is given. *)
Definition parse_chunk (tagLength : nat) (payload : jsstring) : option chunk :=
  match drop tagLength payload with
  | i :: t :: body =>
      match parse_digit i, parse_digit t with
      | Some i, Some t => Some (mkChunk i t body)
      | _, _ => None
      end
  | _ => None
  end.

(** Modelled from the spec: every matching output is split this way. *)
Fixpoint parse_all (tagLength : nat) (payloads : list jsstring)
  : option (list chunk) :=
  match payloads with
  | [] => Some []
  | p :: ps =>
      match parse_chunk tagLength p, parse_all tagLength ps with
      | Some c, Some cs => Some (c :: cs)
      | _, _ => None
      end
  end.

(** Modelled from the spec: the matching outputs are ordered by the
    embedded chunk index (a stable insertion sort). *)
Fixpoint insert_chunk (c : chunk) (cs : list chunk) : list chunk :=
  match cs with
  | [] => [c]
  | d :: ds =>
      if (chunkIndex c <? chunkIndex d)%nat then c :: d :: ds
      else d :: insert_chunk c ds
  end.

(** Modelled from the spec: the chunks in index order. *)
Definition sort_chunks (cs : list chunk) : list chunk :=
  fold_right insert_chunk [] cs.

(** Modelled from the spec: decoding rejects when an expected chunk index
    in [0 .. totalChunks - 1] is missing. *)
Definition no_index_missing (cs : list chunk) : bool :=
  forallb (fun c =>
    forallb (fun i => existsb (fun d => (chunkIndex d =? i)%nat) cs)
            (seq 0 (totalChunks c))) cs.

(** Modelled from the spec: decoding rejects when two chunks claim the
    same index with different totals. *)
Definition totals_agree (cs : list chunk) : bool :=
  forallb (fun c =>
    forallb (fun d =>
      negb (chunkIndex c =? chunkIndex d)%nat
      || (totalChunks c =? totalChunks d)%nat) cs) cs.

(** Modelled from the spec: the custom-data outputs of a transaction. *)
Definition data_payloads (outputs : list Output) : list jsstring :=
  omap (fun o => match o with
                 | DataOutput d => Some d
                 | AddressOutput _ _ => None
                 end) outputs.

(** Modelled from the spec: [decode(transaction, typeTag)] locates the
    custom-data outputs whose payload starts with [typeTag], orders them
    by the embedded chunk index and concatenates the bodies; it is absent
    when no output matches, and rejects a missing index or two chunks
    with one index and different totals. *)
Definition decode (outputs : list Output) (typeTag : jsstring) : decoded :=
  let matching :=
    List.filter (fun p => startsWith p typeTag) (data_payloads outputs) in
  match matching with
  | [] => Absent
  | _ =>
      match parse_all (length typeTag) matching with
      | None => MalformedPayload
      | Some cs =>
          if no_index_missing cs && totals_agree cs
          then Payload (concat (List.map chunkBody (sort_chunks cs)))
          else MalformedPayload
      end
  end.

End PayloadCodec.

(** ** The event coordinator: [HathorService] *)

Module HathorService.

(** [config.sidechain[0]], as far as the class reads it. *)
Record ConfigChain := mkConfigChain {
  multisigOrder : Z;
  multisigRequiredSignatures : Z;
  eventQueueType : jsstring;
  pubsubProjectId : jsstring
}.

(** The queue event after [JSON.parse]. *)
Record Decoded := mkDecoded {
  decoded_type : option jsstring;
  decoded_address : option jsstring;
  decoded_timelock : option Z
}.

Record RawUtxo := mkRawUtxo {
  raw_script : jsstring;
  raw_token : option jsstring;
  raw_value : Z;
  raw_decoded : option Decoded
}.

Record Data := mkData {
  data_tx_id : jsstring;
  data_timestamp : Z;
  data_inputs : list RawUtxo;
  data_outputs : list RawUtxo
}.

Record Event := mkEvent {
  type : jsstring;
  data : Data
}.

(** The arguments of [new HathorUtxo(script, token, value, decoded)]. *)
Record HathorUtxo := mkHathorUtxo {
  script : jsstring;
  token : option jsstring;
  value : Z;
  decoded : Decoded
}.

(** The arguments of [new HathorTx(tx_id, timestamp, outputs, inputs)]. *)
Record HathorTx := mkHathorTx {
  tx_id : jsstring;
  timestamp : Z;
  outputs : list HathorUtxo;
  inputs : list HathorUtxo
}.

Record CustomTokenData := mkTokenData {
  token_value : Z;
  token_token : jsstring;
  token_sender : jsstring
}.

(** The methods of [HathorTx] ([../types/HathorTx], not among the
    sources) that the service calls: pure functions of the transaction. *)
Class HathorTxMethods := {
  haveCustomData : HathorTx -> jsstring -> bool;
  getCustomData : HathorTx -> jsstring -> jsstring;
  getCustomDataType : HathorTx -> jsstring;
  getCustomTokenData : HathorTx -> list CustomTokenData
}.

(** A queue message; [payload] is the outcome of
    [JSON.parse(message.data.toString())]. *)
Record Message := mkMessage {
  payload : error + Event
}.

Definition nonRetriableErrors : list regex :=
  [ re "Invalid transaction. At least one of your inputs has already been spent.";
    re "Transaction already exists";
    re "Invalid tx" ].

(** Broker methods, as effects. *)
Definition isTxConfirmed (b : brokerKind) (txId : jsstring) : M bool :=
  perform (EBroker b (IsTxConfirmed txId))
          (fun w h => isTxConfirmed_ w h b txId).
Definition sendMySignaturesToProposal (b : brokerKind) (txHex id : jsstring)
  : M unit :=
  perform (EBroker b (SendMySignaturesToProposal txHex id))
          (fun w h => sendMySignaturesToProposal_ w h b txHex id).
Definition getSignaturesToPush (b : brokerKind) (txId : jsstring)
  : M ProposalComponents :=
  perform (EBroker b (GetSignaturesToPush txId))
          (fun w h => getSignaturesToPush_ w h b txId).
Definition signAndPushProposal (b : brokerKind) (hex txId : jsstring)
  (sigs : list jsstring) : M unit :=
  perform (EBroker b (SignAndPushProposal hex txId sigs))
          (fun w h => signAndPushProposal_ w h b hex txId sigs).
Definition sendTokensFromHathor (receiver : jsstring) (value : Z)
  (token txId sender : jsstring) (timestamp : Z) : M bool :=
  perform (EBroker HathorBroker
             (SendTokensFromHathor receiver value token txId sender timestamp))
          (fun w h =>
             sendTokensFromHathor_ w h receiver value token txId sender timestamp).
Definition broker_sendTokensToHathor
  (receiverAddress qtd tokenAddress txHash : jsstring) : M unit :=
  perform (EBroker EvmBroker
             (SendTokensToHathor receiverAddress qtd tokenAddress txHash))
          (fun w h =>
             sendTokensToHathor_ w h receiverAddress qtd tokenAddress txHash).

Definition TypeError (text : string) : error :=
  JsError (js "TypeError: " ++ js text).

Section Methods.
Context `{HathorTxMethods}.
Variable chainConfig : ConfigChain.

Definition sendTokensToHathor
  (receiverAddress qtd tokenAddress txHash : jsstring) : M unit :=
  if multisigOrder chainConfig >? 1 then ret tt
  else broker_sendTokensToHathor receiverAddress qtd tokenAddress txHash.

(** [undefined] when the [switch] matches no case. *)
Definition getBrokerAndDataType (tx : HathorTx)
  : option (brokerKind * jsstring) :=
  let customDataType := getCustomDataType tx in
  if bool_decide (customDataType = js "hsh") then
    Some (EvmBroker, customDataType)
  else if bool_decide (customDataType = js "hid") then
    Some (HathorBroker, customDataType)
  else None.

(** [const [broker, dataType] = this.getBrokerAndDataType(tx)] *)
Definition destructure_broker (tx : HathorTx) : M (brokerKind * jsstring) :=
  match getBrokerAndDataType tx with
  | Some p => ret p
  | None => throw (TypeError "undefined is not iterable")
  end.

Definition mkUtxo (o : RawUtxo) : HathorUtxo :=
  mkHathorUtxo (raw_script o) (raw_token o) (raw_value o)
    (mkDecoded (d ← raw_decoded o; decoded_type d)
               (d ← raw_decoded o; decoded_address d)
               (d ← raw_decoded o; decoded_timelock d)).

(** The transaction [parseHathorLogs] builds from the event. *)
Definition tx_of (event : Event) : HathorTx :=
  let outUtxos := List.map mkUtxo (data_outputs (data event)) in
  let inUtxos := List.map mkUtxo (data_inputs (data event)) in
  mkHathorTx (data_tx_id (data event)) (data_timestamp (data event))
    outUtxos inUtxos.

(** The body of [if (isProposal)]. *)
Definition evaluateProposal (tx : HathorTx) : M (option bool) :=
  log_info (js "Evaluating proposal...") ;;
  let txHex := getCustomData tx (js "hex") in
  let* (broker, dataType) := destructure_broker tx in
  let* confirmed := isTxConfirmed broker (tx_id tx) in
  if negb confirmed then ret (Some false)
  else
    sendMySignaturesToProposal broker txHex (getCustomData tx dataType) ;;
    ret (Some true).

(** The body of [if (isSignature && multisigOrder >= required)]. *)
Definition evaluateSignature (tx : HathorTx) : M (option bool) :=
  log_info (js "Evaluating signature...") ;;
  let* (broker, dataType) := destructure_broker tx in
  let* confirmed := isTxConfirmed broker (tx_id tx) in
  if negb confirmed then ret (Some false)
  else
    let txId := getCustomData tx dataType in
    let* components := getSignaturesToPush broker txId in
    if Z.of_nat (length (signatures components))
       <? multisigRequiredSignatures chainConfig then
      log_info (js "Number of signatures not reached. Require " ++
                number (multisigRequiredSignatures chainConfig) ++
                js " signatures, have " ++
                number (Z.of_nat (length (signatures components)))) ;;
      ret (Some false)
    else
      signAndPushProposal broker (hex components) txId
        (signatures components) ;;
      ret (Some true).

(** The body of [if (isHathorToEvm)]. *)
Definition evaluateHathorToEvm (tx : HathorTx) : M (option bool) :=
  let* confirmed := isTxConfirmed HathorBroker (tx_id tx) in
  if negb confirmed then ret (Some false)
  else
    match head (getCustomTokenData tx) with
    | None =>
        throw (TypeError "Cannot read properties of undefined")
    | Some tokenData =>
        let* result :=
          sendTokensFromHathor (getCustomData tx (js "addr"))
            (token_value tokenData) (token_token tokenData) (tx_id tx)
            (token_sender tokenData) (timestamp tx) in
        if negb result then
          throw (HathorException (js "Invalid tx") (Some (js "Invalid tx")))
        else ret (Some true)
    end.

(** [parseHathorLogs]; [None] is the [undefined] of falling off the end
    of the function. *)
Definition parseHathorLogs (event : Event) : M (option bool) :=
  if negb (bool_decide (type event = js "wallet:new-tx")) then ret (Some true)
  else
    let tx := tx_of event in
    let isProposal := haveCustomData tx (js "hex") in
    if isProposal then evaluateProposal tx
    else
      let isSignature := haveCustomData tx (js "sig") in
      if isSignature
         && (multisigOrder chainConfig >=? multisigRequiredSignatures chainConfig)
      then evaluateSignature tx
      else
        let isHathorToEvm := haveCustomData tx (js "addr") in
        if isHathorToEvm then evaluateHathorToEvm tx
        else ret None.

(** The [for] loop over [nonRetriableErrors], with its [break].
    [originalError.match(rgxError)] is called without a guard: on an
    [undefined] original message it throws a [TypeError]. *)
Fixpoint isNonRetriable_loop (rest : list regex)
  (originalError : option jsstring) (isNonRetriable : bool) : M bool :=
  match rest with
  | [] => ret isNonRetriable
  | rgxError :: rest' =>
      match originalError with
      | None =>
          throw (TypeError
                   "Cannot read properties of undefined (reading 'match')")
      | Some text =>
          if matches text rgxError then ret true
          else isNonRetriable_loop rest' originalError isNonRetriable
      end
  end.

(** The [catch] block of the message handler.  What it throws itself is
    caught by nothing: the callback's promise is rejected. *)
Definition onError (error_ : error) : M unit :=
  emit (ELog Err (js "Fail to processing hathor event: ") (Some error_)) ;;
  let isNonRetriable := false in
  match error_ with
  | HathorException _ originalError =>
      let* isNonRetriable :=
        isNonRetriable_loop nonRetriableErrors originalError isNonRetriable in
      if isNonRetriable then ack
      else nack
  | _ => nack
  end.

(** Truthiness of the awaited [response]. *)
Definition truthy (response : option bool) : bool :=
  match response with
  | Some true => true
  | _ => false
  end.

(** [this.parseHathorLogs(JSON.parse(message.data.toString()))] *)
Definition received (message : Message) : M (option bool) :=
  let* event :=
    match payload message with
    | inl e => throw e
    | inr event => ret event
    end in
  parseHathorLogs event.

(** The ['message'] callback of [listenToPubSubEventQueue]. *)
Definition onMessage (message : Message) : M unit :=
  try_catch
    (let* response := received message in
     if truthy response then ack else nack)
    onError.

(** Whether an error is one the handler drops: a [HathorException] whose
    original message matches one of the configured patterns. *)
Definition nonRetriable (error_ : error) : bool :=
  match error_ with
  | HathorException _ (Some originalError) =>
      existsb (matches originalError) nonRetriableErrors
  | _ => false
  end.

(** Whether the [catch] block fails on an error: a [HathorException]
    that carries no original message. *)
Definition lacks_original (error_ : error) : bool :=
  match error_ with
  | HathorException _ None => true
  | _ => false
  end.

(** What the [catch] block then throws. *)
Definition match_of_undefined : error :=
  TypeError "Cannot read properties of undefined (reading 'match')".

End Methods.

End HathorService.


(** ** Concrete ledgers, used to run the contract *)

Module LedgerExamples.
Import HathorTransactions.

Definition contract_owner : address := 7.
Definition federator1 : address := 1.
Definition federator2 : address := 2.

(** The storage after [initialize([1, 2], 7)]. *)
Definition ledger0 : state :=
  step (H := example_hash) empty_state
    (contract_owner, Initialize [federator1; federator2] contract_owner).

Definition transfer0 : transfer :=
  mkTransfer 17 34 1000 51 68 MINT.

Definition signature0 : bytes := [x0a; x0b].
Definition txHex0 : bytes := [x01; x02; x03].

(** [transfer0] proposed, signed by [federator1] and marked as sent. *)
Definition ledger_done : state :=
  run (H := example_hash) ledger0
    [(federator1, SendTransactionProposal transfer0 txHex0);
     (federator1, UpdateSignatureState transfer0 signature0 true);
     (federator1, UpdateTransactionState transfer0 true)].

Definition later_txs : list (address * call) :=
  [(federator2, UpdateSignatureState transfer0 signature0 true);
   (contract_owner, AddMember 9);
   (federator2, UpdateTransactionState transfer0 false);
   (contract_owner, RemoveMember federator2);
 (contract_owner, Inherited (fun _ i _ => Some (i, federator1)))].

End LedgerExamples.


(** ** Concrete transactions and worlds, used to run the coordinator *)

Module ServiceExamples.
Import HathorService.

(** A stand-in for the [HathorTx] methods: the script of an output is its
    custom-data payload in clear, [tag][index][total][body]. *)
Definition scripts_with (tx : HathorTx) (tag : jsstring) : list jsstring :=
  List.filter (fun s => startsWith s tag) (List.map script (outputs tx)).

Definition example_methods : HathorTxMethods := {|
  haveCustomData tx tag :=
    match scripts_with tx tag with [] => false | _ => true end;
  getCustomData tx tag :=
    concat (List.map (drop (length tag + 2)) (scripts_with tx tag));
  getCustomDataType tx :=
    match scripts_with tx (js "hsh"), scripts_with tx (js "hid") with
    | _ :: _, _ => js "hsh"
    | [], _ :: _ => js "hid"
    | [], [] => js ""
    end;
  getCustomTokenData tx :=
    omap (fun o => t ← token o; Some (mkTokenData (value o) t (js "sender")))
         (outputs tx)
|}.

Definition data_utxo (payload : string) : RawUtxo :=
  mkRawUtxo (js payload) None 0 None.

Definition token_utxo (t : string) (v : Z) : RawUtxo :=
  mkRawUtxo (js "") (Some (js t)) v None.

Definition new_tx (outs : list RawUtxo) : Event :=
  mkEvent (js "wallet:new-tx") (mkData (js "tx-1") 1700000000 [] outs).

Definition message_of (ev : Event) : Message := mkMessage (inr ev).

(** A world whose brokers report [confirmed], hold the signatures [sigs]
    for every proposal and answer the inbound push with [pushed]; the
    wallet service always reports [statusCode = 3]. *)
Definition world (confirmed : bool) (sigs : list jsstring) (pushed : bool)
  : World := {|
  get_status _ _ := inr (mkResponse 200 (js "OK") (mkStatus true 3 (js "Ready")));
  post_start _ _ := inr (mkResponse 200 (js "OK") (mkStart true));
  get_address _ _ := inr (mkResponse 200 (js "OK") (mkAddress (js "multisig")));
  post_mint_tokens _ _ :=
    inr (mkResponse 200 (js "OK") (mkCreate true (js "00ff")));
  post_send_tx _ _ := inr (mkResponse 200 (js "OK") (mkSendTx true (js "")));
  read_token_mapping _ _ := inr [];
  isTxConfirmed_ _ _ _ := inr confirmed;
  sendMySignaturesToProposal_ _ _ _ _ := inr tt;
  getSignaturesToPush_ _ _ _ := inr (mkComponents (js "00ff") sigs);
  signAndPushProposal_ _ _ _ _ _ := inr tt;
  sendTokensFromHathor_ _ _ _ _ _ _ _ := inr pushed;
  sendTokensToHathor_ _ _ _ _ _ := inr tt
|}.

Definition config (order required : Z) : ConfigChain :=
  mkConfigChain order required (js "pubsub") (js "project").

(** A transaction carrying both a destination address and a proposal. *)
Definition addr_and_hex : Event :=
  new_tx [data_utxo "addr010xabc"; data_utxo "hex0100ff"; data_utxo "hsh010xdef";
          token_utxo "00" 5].

(** A partial signature and nothing else a branch inspects. *)
Definition sig_only : Event :=
  new_tx [data_utxo "sig01aabb"; data_utxo "hsh010xdef"].

(** An ordinary wallet transaction: no custom data at all. *)
Definition plain_tx : Event :=
  new_tx [token_utxo "00" 5].

(** An inbound transfer. *)
Definition addr_only : Event :=
  new_tx [data_utxo "addr010xabc"; token_utxo "00" 5].

(** An event of another type. *)
Definition other_event : Event :=
  mkEvent (js "wallet:state_update") (mkData (js "") 0 [] []).

End ServiceExamples.


(** ** Concrete wallets, used to run the wallet client *)

Module WalletExamples.
Import HathorWallet.

Definition wallet (order : Z) : HathorWallet :=
  mkWallet (js "http://localhost:8000") (js "single") (js "seed-1")
    (js "multi") (js "seed-2") 2 order (js "pubsub") (js "project").

Definition ok {T} (d : T) : Response T := mkResponse 200 (js "OK") d.

Definition SYNCING : StatusData := mkStatus true 2 (js "Syncing").
Definition READY : StatusData := mkStatus true 3 (js "Ready").
Definition STOPPED : StatusData := mkStatus false 0 (js "").

(** A wallet service that answers the status polls with [script], in
    order, and with [SYNCING] once the script is used up. *)
Definition scripted (script : list StatusData) : World := {|
  get_status h req := inr (ok (default SYNCING (script !! polls req h)));
  post_start _ _ := inr (ok (mkStart true));
  get_address _ _ := inr (ok (mkAddress (js "multisig")));
  post_mint_tokens _ _ := inr (ok (mkCreate true (js "00ff")));
  post_send_tx _ _ := inr (ok (mkSendTx true (js "")));
  read_token_mapping _ _ := inr [];
  isTxConfirmed_ _ _ _ := inr true;
  sendMySignaturesToProposal_ _ _ _ _ := inr tt;
  getSignaturesToPush_ _ _ _ := inr (mkComponents (js "00ff") []);
  signAndPushProposal_ _ _ _ _ _ := inr tt;
  sendTokensFromHathor_ _ _ _ _ _ _ _ := inr true;
  sendTokensToHathor_ _ _ _ _ _ := inr tt
|}.

(** A payload of [n] characters, the decimal digits in turn. *)
Definition sample (n : nat) : jsstring :=
  List.map (fun i => digit (i mod 10)) (seq 0 n).

End WalletExamples.


(** ** Vocabulary for statements about the ledger *)

Module LedgerFacts.
Import HathorTransactions.

(** The [members] array and the [isMember] mapping tell the same story:
    the array has no duplicate, holds exactly the addresses whose flag is
    set, and never the null address. *)
Definition members_consistent (st : state) : Prop :=
  NoDup (members st)
  /\ (forall a : address, flag (isMember st) a = true <-> a ∈ members st)
  /\ NULL_ADDRESS ∉ members st.

(** An inherited function that does not clear the [initialized] mark. *)
Definition keeps_initialized (tx : address * call) : Prop :=
  match snd tx with
  | Inherited body =>
      forall s o i' o', body s true o = Some (i', o') -> i' = true
  | _ => True
  end.

(** The proposal bookkeeping: the five mappings keyed by transaction
    identifier. *)
Definition bookkeeping (st : state) :=
  (isSigned st, isProcessed st, isProposed st, transactionHex st,
   transactionSignatures st).

Definition is_bookkeeping_call (c : call) : bool :=
  match c with
  | SendTransactionProposal _ _
  | UpdateSignatureState _ _ _
  | UpdateTransactionState _ _ => true
  | _ => false
  end.

End LedgerFacts.


(** ** Vocabulary for statements about the coordinator's effects *)

Module ServiceFacts.

(** The two ways a queue message is settled. *)
Definition is_settle (e : effect) : bool :=
  match e with
  | EAck | ENack => true
  | _ => false
  end.

(** The broker calls that act on a chain or on the wallet: sending this
    federator's signature, signing and pushing a proposal, pushing an
    inbound transfer. *)
Definition is_push (e : effect) : bool :=
  match e with
  | EBroker _ (SendMySignaturesToProposal _ _)
  | EBroker _ (SignAndPushProposal _ _ _)
  | EBroker _ (SendTokensFromHathor _ _ _ _ _ _) => true
  | _ => false
  end.

(** A computation that only ever adds effects to the history, none of
    them an [ack] or a [nack]. *)
Definition unsettled {A} (m : M A) : Prop :=
  forall (w : World) (h : history),
    exists t : history,
      fst (m w h) = h ++ t /\ forallb (fun e => negb (is_settle e)) t = true.

End ServiceFacts.


(** ** Vocabulary for statements about the wallet client's requests *)

Module WalletFacts.
Import HathorWallet.

Definition is_delay (e : effect) : bool :=
  match e with
  | EDelay _ => true
  | _ => false
  end.

Definition is_start (e : effect) : bool :=
  match e with
  | EHttp (POST _ _ (StartBody _ _ _)) => true
  | _ => false
  end.

Definition is_http (e : effect) : bool :=
  match e with
  | EHttp _ => true
  | _ => false
  end.

Definition count (f : effect -> bool) (h : history) : nat :=
  length (List.filter f h).

(** The requests of [sendTokensToHathor], as the code builds them. *)
Definition mint_request (this : HathorWallet) (receiverAddress qtd : jsstring)
  : httpRequest :=
  POST (walletUrl this ++ js "/wallet/p2sh/tx-proposal/mint-tokens")
       (Some (multisigWalletId this))
       (MintTokensBody receiverAddress qtd object_Promise).

Definition address_request (this : HathorWallet) : httpRequest :=
  GET (walletUrl this ++ js "/wallet/address") (multisigWalletId this).

Definition send_tx_request (this : HathorWallet) (outputs : list Output)
  : httpRequest :=
  POST (walletUrl this ++ js "/wallet/send-tx") (Some (singleWalletId this))
       (SendTxBody outputs).

Definition token_mapping_path : jsstring := js "./db/tokenMapping.json".

(** The text carried by an output: the [data] of a data output, nothing
    for an address output. *)
Definition data_text (o : Output) : jsstring :=
  match o with
  | DataOutput d => d
  | AddressOutput _ _ => []
  end.

End WalletFacts.


(** ** The allow-list client ([federator/src/contracts/IAllowTokensV1.ts])

    [getLimits] keeps the answers of the AllowTokens contract in
    [mapTokenInfoAndLimits], a plain JavaScript object created as [{}]
    and indexed by the token address. *)

Module IAllowTokensV1.
Import JS Effects.

(** The fields of the contract's answer that the client reads:
    [infoAndLimits.info.allowed], [infoAndLimits.limit.mediumAmount] and
    [infoAndLimits.limit.largeAmount]. *)
Record TokenInfo := mkInfo { info_allowed : bool }.
Record Limits := mkLimits { limit_mediumAmount : Z; limit_largeAmount : Z }.
Record InfoAndLimits := mkInfoAndLimits { info : TokenInfo; limit : Limits }.

(** The object literal [{ allowed, mediumAmount, largeAmount }]. *)
Record LimitsResult := mkResult {
  allowed : bool;
  mediumAmount : Z;
  largeAmount : Z
}.

(** The names every plain object inherits from [Object.prototype]. *)
Definition Object_prototype : list jsstring :=
  [js "constructor"; js "__defineGetter__"; js "__defineSetter__";
   js "hasOwnProperty"; js "__lookupGetter__"; js "__lookupSetter__";
   js "isPrototypeOf"; js "propertyIsEnumerable"; js "toString";
   js "valueOf"; js "__proto__"; js "toLocaleString"].

(** What [this.mapTokenInfoAndLimits[key]] evaluates to: a stored result,
    a member of [Object.prototype] (a function, or the prototype itself
    for [__proto__]), or [undefined]. *)
Inductive value :=
| Result (r : LimitsResult)
| Inherited (name : jsstring).

Definition get (o : gmap jsstring LimitsResult) (key : jsstring)
  : option value :=
  match o !! key with
  | Some r => Some (Result r)
  | None =>
      if bool_decide (key ∈ Object_prototype) then Some (Inherited key)
      else None
  end.

(** [new CustomError(message, err)]. *)
Inductive failure :=
| CustomError (message : jsstring) (err : error).

Record IAllowTokensV1 := mkAllowTokens {
  mapTokenInfoAndLimits : gmap jsstring LimitsResult;
  chainId : Z;
  federatorInstance : Z
}.

(** The constructor; the contract handle is the oracle of [getLimits]. *)
Definition new (chainId federatorInstance : Z) : IAllowTokensV1 :=
  mkAllowTokens ∅ chainId federatorInstance.

(** The contract: the answer of
    [allowTokensContract.methods.getInfoAndLimits(tokenAddress).call()]
    may depend on the calls made before it. *)
Definition Contract : Type :=
  list jsstring -> jsstring -> error + InfoAndLimits.

(** The object and the list of contract calls made so far. *)
Definition state : Type := IAllowTokensV1 * list jsstring.

(** Every stored value and every inherited member is truthy, so
    [!result] holds exactly when the lookup gives [undefined].  The
    assignment is then to a key that is not an inherited name, and so
    creates an own property. *)
Definition getLimits (contract : Contract) (tokenAddress : jsstring)
  (s : state) : state * (failure + value) :=
  let (this, calls) := s in
  match get (mapTokenInfoAndLimits this) tokenAddress with
  | Some result => (s, inr result)
  | None =>
      match contract calls tokenAddress with
      | inl err =>
          ((this, calls ++ [tokenAddress]),
           inl (CustomError
                  (js "Exception getInfoAndLimits at AllowTokens Contract for "
                   ++ tokenAddress) err))
      | inr infoAndLimits =>
          let result :=
            mkResult (info_allowed (info infoAndLimits))
                     (limit_mediumAmount (limit infoAndLimits))
                     (limit_largeAmount (limit infoAndLimits)) in
          let this' :=
            if allowed result then
              mkAllowTokens
                (<[tokenAddress := result]> (mapTokenInfoAndLimits this))
                (chainId this) (federatorInstance this)
            else this in
          ((this', calls ++ [tokenAddress]), inr (Result result))
      end
  end.

(** A sequence of [getLimits] calls, whatever their outcomes. *)
Fixpoint calls_of (contract : Contract) (tokens : list jsstring) (s : state)
  : state :=
  match tokens with
  | [] => s
  | tokenAddress :: rest =>
      calls_of contract rest (fst (getLimits contract tokenAddress s))
  end.

End IAllowTokensV1.

Module AllowTokensExamples.
Import JS Effects IAllowTokensV1.

Definition token1 : jsstring := js "0x01".
Definition limits1 : LimitsResult := mkResult true 10 100.

(** A contract that allows [token1] on the first call only. *)
Definition fickle : Contract :=
  fun calls tokenAddress =>
    match calls with
    | [] => inr (mkInfoAndLimits (mkInfo true) (mkLimits 10 100))
    | _ => inr (mkInfoAndLimits (mkInfo false) (mkLimits 0 0))
    end.


End AllowTokensExamples.

(** ** Vocabulary for statements about the allow-list client *)

Module AllowTokensFacts.
Import JS Effects IAllowTokensV1.

(** The result object built from an answer of the contract. *)
Definition result_of (infoAndLimits : InfoAndLimits) : LimitsResult :=
  mkResult (info_allowed (info infoAndLimits))
           (limit_mediumAmount (limit infoAndLimits))
           (limit_largeAmount (limit infoAndLimits)).

(** Every stored entry is an allowed token under a name that is not
    inherited, and is what the contract answered at one of the calls
    made so far. *)
Definition cache_sound (contract : Contract) (s : state) : Prop :=
  forall k r,
    mapTokenInfoAndLimits (fst s) !! k = Some r ->
    allowed r = true
    /\ (k ∉ Object_prototype)
    /\ exists before infoAndLimits,
         (before ++ [k]) `prefix_of` snd s
         /\ contract before k = inr infoAndLimits
         /\ r = result_of infoAndLimits.



End AllowTokensFacts.

(** ** Further concrete inputs *)

Module FurtherExamples.
Import JS Effects HathorService ServiceExamples HathorWallet WalletExamples.

(** A proposal and a signature whose transaction names no data type. *)
Definition hex_untyped : Event := new_tx [data_utxo "hex0100ff"].
Definition sig_untyped : Event := new_tx [data_utxo "sig01aabb"].

(** An inbound transfer without any token output. *)
Definition addr_without_token : Event := new_tx [data_utxo "addr010xabc"].

(** A status the readiness check has no branch for. *)
Definition CLOSED : StatusData := mkStatus true 0 (js "Closed").

(** A wallet service that cannot be reached for the status, and one that
    refuses to send. *)
Definition unreachable : World := {|
  get_status _ _ := inl (JsError (js "connect ECONNREFUSED"));
  post_start _ _ := inr (ok (mkStart true));
  get_address _ _ := inr (ok (mkAddress (js "multisig")));
  post_mint_tokens _ _ := inr (ok (mkCreate true (js "00ff")));
  post_send_tx _ _ := inr (ok (mkSendTx false (js "no funds")));
  read_token_mapping _ _ := inr [];
  isTxConfirmed_ _ _ _ := inr true;
  sendMySignaturesToProposal_ _ _ _ _ := inr tt;
  getSignaturesToPush_ _ _ _ := inr (mkComponents (js "00ff") []);
  signAndPushProposal_ _ _ _ _ _ := inr tt;
  sendTokensFromHathor_ _ _ _ _ _ _ _ := inr true;
  sendTokensToHathor_ _ _ _ _ _ := inr tt
|}.

(** A broker whose [signAndPushProposal] fails the way the wallet client
    builds the exception when the response carries no [error] field: a
    [HathorException] without original message. *)
Definition bare_failure : error :=
  HathorException (js "500 - Internal Server Error - {}") None.

Definition failing_push (sigs : list jsstring) : World := {|
  get_status _ _ := inr (ok READY);
  post_start _ _ := inr (ok (mkStart true));
  get_address _ _ := inr (ok (mkAddress (js "multisig")));
  post_mint_tokens _ _ := inr (ok (mkCreate true (js "00ff")));
  post_send_tx _ _ := inr (ok (mkSendTx true (js "")));
  read_token_mapping _ _ := inr [];
  isTxConfirmed_ _ _ _ := inr true;
  sendMySignaturesToProposal_ _ _ _ _ := inr tt;
  getSignaturesToPush_ _ _ _ := inr (mkComponents (js "00ff") sigs);
  signAndPushProposal_ _ _ _ _ _ := inl bare_failure;
  sendTokensFromHathor_ _ _ _ _ _ _ _ := inr true;
  sendTokensToHathor_ _ _ _ _ _ := inr tt
|}.

(** A ready wallet service beside a token mapping that lists [tokens]. *)
Definition mapped (tokens : list (jsstring * jsstring)) : World := {|
  get_status _ _ := inr (ok READY);
  post_start _ _ := inr (ok (mkStart true));
  get_address _ _ := inr (ok (mkAddress (js "multisig")));
  post_mint_tokens _ _ := inr (ok (mkCreate true (js "00ff")));
  post_send_tx _ _ := inr (ok (mkSendTx true (js "")));
  read_token_mapping _ _ := inr tokens;
  isTxConfirmed_ _ _ _ := inr true;
  sendMySignaturesToProposal_ _ _ _ _ := inr tt;
  getSignaturesToPush_ _ _ _ := inr (mkComponents (js "00ff") []);
  signAndPushProposal_ _ _ _ _ _ := inr tt;
  sendTokensFromHathor_ _ _ _ _ _ _ _ := inr true;
  sendTokensToHathor_ _ _ _ _ _ := inr tt
|}.

End FurtherExamples.
(* ===================================================================== *)
(** * Part II: properties *)
(* ===================================================================== *)

(** ** The ledger *)

Section LedgerProperties.
Import HathorTransactions.
Context `{Keccak}.

Lemma flag_insert {K} `{Countable K} (m : gmap K bool) (k k' : K) (b : bool) :
  flag (<[k := b]> m) k' = if bool_decide (k = k') then b else flag m k'.
Proof.
  unfold flag. case_bool_decide as Hk.
  - subst. by rewrite lookup_insert_eq.
  - by rewrite lookup_insert_ne.
Qed.




(** *** The three flags never go back to false *)

Lemma initialize_loop_flags (ms : list address) :
  forall st evs st' evs',
    initialize_loop st evs ms = Ok st' evs' tt ->
    isSigned st' = isSigned st /\ isProcessed st' = isProcessed st
    /\ isProposed st' = isProposed st.
Proof.
  induction ms as [|m ms IH]; intros st evs st' evs' Hrun; simpl in Hrun.
  - by inversion Hrun.
  - destruct (negb (flag (isMember st) m)
              && negb (bool_decide (m = NULL_ADDRESS))); [|discriminate].
    apply IH in Hrun. exact Hrun.
Qed.

Lemma onlyMember_Ok {A} st a (body : result A) st' evs r :
  onlyMember st a body = Ok st' evs r ->
  flag (isMember st) a = true /\ body = Ok st' evs r.
Proof. unfold onlyMember. destruct (flag (isMember st) a); by intros. Qed.

Lemma onlyOwner_Ok {A} st a (body : result A) st' evs r :
  onlyOwner st a body = Ok st' evs r -> body = Ok st' evs r.
Proof. unfold onlyOwner. case_bool_decide; by intros. Qed.

Lemma execute_flags (st : state) (a : address) (c : call) st' evs :
  execute st a c = Ok st' evs tt ->
  (forall id, flag (isProposed st) id = true ->
              flag (isProposed st') id = true)
  /\ (forall k, flag (isSigned st) k = true -> flag (isSigned st') k = true)
  /\ (forall id, flag (isProcessed st) id = true ->
                 flag (isProcessed st') id = true).
Proof.
  destruct c; simpl; intros Hex.
  - unfold initialize in Hex.
    destruct (initialized st); [discriminate|].
    destruct (_ <=? _); [|discriminate].
    apply initialize_loop_flags in Hex as (-> & -> & ->). by simpl.
  - unfold getTransactionId, forget in Hex.
    destruct (onlyMember _ _ _) eqn:E; [discriminate|].
    apply onlyMember_Ok in E as [_ E]. inversion E; inversion Hex; by subst.
  - apply onlyMember_Ok in Hex as [_ Hex]. cbv zeta in Hex.
    destruct (negb _) eqn:E; [|discriminate].
    apply negb_true_iff in E.
    inversion Hex; subst; simpl. repeat split; try done.
    intros id Hid. rewrite flag_insert. by case_bool_decide.
  - apply onlyMember_Ok in Hex as [_ Hex]. cbv zeta in Hex.
    destruct (negb _) eqn:E; [|discriminate].
    apply negb_true_iff in E.
    inversion Hex; subst; simpl. repeat split; try done.
    intros k Hk. rewrite flag_insert. case_bool_decide; [|done].
    subst. congruence.
  - apply onlyMember_Ok in Hex as [_ Hex]. cbv zeta in Hex.
    destruct (negb _) eqn:E; [|discriminate].
    apply negb_true_iff in E.
    inversion Hex; subst; simpl. repeat split; try done.
    intros id Hid. rewrite flag_insert. case_bool_decide; [|done].
    subst. congruence.
  - apply onlyOwner_Ok in Hex.
    case_bool_decide; [discriminate|].
    destruct (flag (isMember st) _newMember); [discriminate|].
    by inversion Hex; subst.
  - apply onlyOwner_Ok in Hex.
    case_bool_decide; [discriminate|].
    destruct (negb (flag _ _)); [discriminate|].
    destruct (negb (1 <? _)); [discriminate|].
    by inversion Hex; subst.
  - by inversion Hex; subst.
  - unfold inherited in Hex.
    destruct (body a (initialized st) (owner st)) as [[i o]|]; [|discriminate].
    by inversion Hex; subst.
Qed.

Lemma step_flags (st : state) (tx : address * call) :
  (forall id, flag (isProposed st) id = true ->
              flag (isProposed (step st tx)) id = true)
  /\ (forall k, flag (isSigned st) k = true ->
                flag (isSigned (step st tx)) k = true)
  /\ (forall id, flag (isProcessed st) id = true ->
                 flag (isProcessed (step st tx)) id = true).
Proof.
  unfold step. destruct (execute st tx.1 tx.2) as [|st' evs []] eqn:E.
  - done.
  - by apply execute_flags in E.
Qed.

Lemma run_flags (txs : list (address * call)) :
  forall st,
    (forall id, flag (isProposed st) id = true ->
                flag (isProposed (run st txs)) id = true)
    /\ (forall k, flag (isSigned st) k = true ->
                  flag (isSigned (run st txs)) k = true)
    /\ (forall id, flag (isProcessed st) id = true ->
                   flag (isProcessed (run st txs)) id = true).
Proof.
  induction txs as [|tx txs IH]; intros st; [done|].
  simpl. destruct (step_flags st tx) as (H1 & H2 & H3).
  destruct (IH (step st tx)) as (I1 & I2 & I3).
  repeat split; auto.
Qed.

Lemma sendTransactionProposal_guard st m t h :
  flag (isProposed st) (transactionId t) = true ->
  exists reason, sendTransactionProposal st m t h = Revert reason.
Proof.
  intros Hf. unfold sendTransactionProposal, onlyMember. cbv zeta.
  fold (packed t). fold (transactionId t). rewrite Hf.
  destruct (flag (isMember st) m); eauto.
Qed.

Lemma updateSignatureState_guard st m t s b :
  flag (isSigned st) (transactionId t, m) = true ->
  exists reason, updateSignatureState st m t s b = Revert reason.
Proof.
  intros Hf. unfold updateSignatureState, onlyMember. cbv zeta.
  fold (packed t). fold (transactionId t). rewrite Hf.
  destruct (flag (isMember st) m); eauto.
Qed.

Lemma updateTransactionState_guard st m t b :
  flag (isProcessed st) (transactionId t) = true ->
  exists reason, updateTransactionState st m t b = Revert reason.
Proof.
  intros Hf. unfold updateTransactionState, onlyMember. cbv zeta.
  fold (packed t). fold (transactionId t). rewrite Hf.
  destruct (flag (isMember st) m); eauto.
Qed.

Lemma sendTransactionProposal_sets st m t h :
  succeeds st (m, SendTransactionProposal t h) = true ->
  flag (isProposed (step st (m, SendTransactionProposal t h)))
       (transactionId t) = true.
Proof.
  unfold succeeds, step. simpl.
  unfold sendTransactionProposal, onlyMember. cbv zeta.
  fold (packed t). fold (transactionId t).
  destruct (flag (isMember st) m); [|done].
  destruct (negb _); [|done]. intros _. simpl.
  rewrite flag_insert. by rewrite bool_decide_eq_true_2.
Qed.

Lemma updateSignatureState_sets st m t s :
  succeeds st (m, UpdateSignatureState t s true) = true ->
  flag (isSigned (step st (m, UpdateSignatureState t s true)))
       (transactionId t, m) = true.
Proof.
  unfold succeeds, step. simpl.
  unfold updateSignatureState, onlyMember. cbv zeta.
  fold (packed t). fold (transactionId t).
  destruct (flag (isMember st) m); [|done].
  destruct (negb _); [|done]. intros _. simpl.
  rewrite flag_insert. by rewrite bool_decide_eq_true_2.
Qed.

Lemma updateTransactionState_sets st m t :
  succeeds st (m, UpdateTransactionState t true) = true ->
  flag (isProcessed (step st (m, UpdateTransactionState t true)))
       (transactionId t) = true.
Proof.
  unfold succeeds, step. simpl.
  unfold updateTransactionState, onlyMember. cbv zeta.
  fold (packed t). fold (transactionId t).
  destruct (flag (isMember st) m); [|done].
  destruct (negb _); [|done]. intros _. simpl.
  rewrite flag_insert. by rewrite bool_decide_eq_true_2.
Qed.

(** C3, as amended.  Across any sequence [txs] of transactions sent to
    the contract by anyone, a flag [isProposed], [isSigned] or
    [isProcessed] that is true stays true, and while it is true the
    entry point guarding it reverts: [sendTransactionProposal] for a
    proposed identifier, [updateTransactionState] for a processed one,
    [updateSignatureState] for an identifier the caller's flag is set
    for.  A successful proposal sets [isProposed]; a successful
    [updateSignatureState] with [signed = true] sets the caller's
    [isSigned]; a successful [updateTransactionState] with [sent = true]
    sets [isProcessed]; so each happens at most once. *)
Theorem C3_flags_one_way (st : state) (txs : list (address * call))
  (id : bytes32) (member : address) (t : transfer)
  (txHex signature : bytes) (signed sent : bool) :
  (flag (isProposed st) id = true ->
   flag (isProposed (run st txs)) id = true)
  /\ (flag (isSigned st) (id, member) = true ->
      flag (isSigned (run st txs)) (id, member) = true)
  /\ (flag (isProcessed st) id = true ->
      flag (isProcessed (run st txs)) id = true)
  /\ (flag (isProposed st) (transactionId t) = true ->
      exists reason,
        sendTransactionProposal (run st txs) member t txHex = Revert reason)
  /\ (flag (isSigned st) (transactionId t, member) = true ->
      exists reason,
        updateSignatureState (run st txs) member t signature signed
        = Revert reason)
  /\ (flag (isProcessed st) (transactionId t) = true ->
      exists reason,
        updateTransactionState (run st txs) member t sent = Revert reason)
  /\ (succeeds st (member, SendTransactionProposal t txHex) = true ->
      exists reason,
        sendTransactionProposal
          (run (step st (member, SendTransactionProposal t txHex)) txs)
          member t txHex = Revert reason)
  /\ (succeeds st (member, UpdateSignatureState t signature true) = true ->
      exists reason,
        updateSignatureState
          (run (step st (member, UpdateSignatureState t signature true)) txs)
          member t signature signed = Revert reason)
  /\ (succeeds st (member, UpdateTransactionState t true) = true ->
      exists reason,
        updateTransactionState
          (run (step st (member, UpdateTransactionState t true)) txs)
          member t sent = Revert reason).
Proof.
  destruct (run_flags txs st) as (P & S & D).
  repeat split.
  - apply P.
  - apply S.
  - apply D.
  - intros Hf. by apply sendTransactionProposal_guard, P.
  - intros Hf. by apply updateSignatureState_guard, S.
  - intros Hf. by apply updateTransactionState_guard, D.
  - intros Hs. apply sendTransactionProposal_guard.
    by apply run_flags, sendTransactionProposal_sets.
  - intros Hs. apply updateSignatureState_guard.
    by apply run_flags, updateSignatureState_sets.
  - intros Hs. apply updateTransactionState_guard.
    by apply run_flags, updateTransactionState_sets.
Qed.

End LedgerProperties.

Section LedgerRuns.
Import HathorTransactions LedgerExamples.

(** C3 as stated fails: a member whose first [updateSignatureState]
    passed [signed = false] is not stopped from calling again for the
    same identifier; both calls succeed and both signatures are stored. *)
Lemma C3_second_signature_call_succeeds :
  ~ (forall (st : state) (member : address) (t : transfer)
            (s1 s2 : bytes) (b1 b2 : bool) st1 evs1,
       updateSignatureState (H := example_hash) st member t s1 b1
       = Ok st1 evs1 tt ->
       exists reason,
         updateSignatureState (H := example_hash) st1 member t s2 b2
         = Revert reason).
Proof.
  intros Hclaim.
  destruct (updateSignatureState (H := example_hash) ledger0 federator1
              transfer0 signature0 false) as [|st1 evs1 []] eqn:E1;
    [vm_compute in E1; discriminate|].
  destruct (Hclaim _ _ _ _ signature0 _ false _ _ E1) as [reason Hr].
  revert Hr. vm_compute in E1. inversion E1; subst st1. clear.
  vm_compute. discriminate.
Qed.

Example ledger0_two_unsigned_signatures :
  sigs_of
    (run (H := example_hash) ledger0
       [(federator1, UpdateSignatureState transfer0 signature0 false);
        (federator1, UpdateSignatureState transfer0 signature0 false)])
    (transactionId (H := example_hash) transfer0)
  = [signature0; signature0].
Proof. vm_compute. reflexivity. Qed.

Lemma C3_flags_one_way_witness :
  let id0 := transactionId (H := example_hash) transfer0 in
  (flag (isProposed ledger_done) id0 = true
   /\ flag (isSigned ledger_done) (id0, federator1) = true
   /\ flag (isProcessed ledger_done) id0 = true
   /\ succeeds (H := example_hash) ledger0
        (federator1, SendTransactionProposal transfer0 txHex0) = true
   /\ succeeds (H := example_hash) ledger0
        (federator1, UpdateSignatureState transfer0 signature0 true) = true
   /\ succeeds (H := example_hash) ledger0
        (federator1, UpdateTransactionState transfer0 true) = true)
  /\ (flag (isProposed (run (H := example_hash) ledger_done later_txs)) id0
      = true
      /\ flag (isSigned (run (H := example_hash) ledger_done later_txs))
           (id0, federator1) = true
      /\ flag (isProcessed (run (H := example_hash) ledger_done later_txs))
           id0 = true)
  /\ (exists reason,
        sendTransactionProposal (H := example_hash)
          (run (H := example_hash) ledger_done later_txs)
          federator1 transfer0 txHex0 = Revert reason)
  /\ (exists reason,
        updateSignatureState (H := example_hash)
          (run (H := example_hash) ledger_done later_txs)
          federator1 transfer0 signature0 false = Revert reason)
  /\ (exists reason,
        updateTransactionState (H := example_hash)
          (run (H := example_hash) ledger_done later_txs)
          federator1 transfer0 false = Revert reason)
  /\ (exists reason,
        updateSignatureState (H := example_hash)
          (run (H := example_hash)
             (step (H := example_hash) ledger0
                (federator1, UpdateSignatureState transfer0 signature0 true))
             later_txs)
          federator1 transfer0 signature0 false = Revert reason).
Proof.
  intros id0.
  assert (Hhyp :
    flag (isProposed ledger_done) id0 = true
    /\ flag (isSigned ledger_done) (id0, federator1) = true
    /\ flag (isProcessed ledger_done) id0 = true
    /\ succeeds (H := example_hash) ledger0
         (federator1, SendTransactionProposal transfer0 txHex0) = true
    /\ succeeds (H := example_hash) ledger0
         (federator1, UpdateSignatureState transfer0 signature0 true) = true
    /\ succeeds (H := example_hash) ledger0
         (federator1, UpdateTransactionState transfer0 true) = true)
    by (vm_compute; repeat split; reflexivity).
  destruct Hhyp as (H1 & H2 & H3 & H4 & H5 & H6).
  destruct (C3_flags_one_way (H := example_hash) ledger_done later_txs id0
              federator1 transfer0 txHex0 signature0 false false)
    as (P & S & D & GP & GS & GD & _).
  destruct (C3_flags_one_way (H := example_hash) ledger0 later_txs id0
              federator1 transfer0 txHex0 signature0 false false)
    as (_ & _ & _ & _ & _ & _ & _ & OS & _).
  split; [tauto|].
  split; [split; [apply P | split; [apply S | apply D]]; assumption|].
  split; [apply GP; assumption|].
  split; [apply GS; assumption|].
  split; [apply GD; assumption|].
  apply OS; assumption.
Defined.

End LedgerRuns.

(** ** The event coordinator *)

Section ServiceProperties.
Import HathorService.
Context `{HathorTxMethods}.
Variable chainConfig : ConfigChain.

Lemma bind_ret_l {A B} (a : A) (k : A -> M B) : bind (ret a) k = k a.
Proof. reflexivity. Qed.

Lemma isNonRetriable_loop_existsb (rs : list regex) (originalError : jsstring)
  (w : World) (h : history) :
  isNonRetriable_loop rs (Some originalError) false w h
  = (h, inr (existsb (matches originalError) rs)).
Proof.
  induction rs as [|r rs IH]; simpl; [done|].
  destruct (matches originalError r); [done|]. exact IH.
Qed.

(** The [catch] block: it fails on a [HathorException] without original
    message, after the log; it settles the message otherwise. *)
Lemma onError_spec (e : error) (w : World) (h : history) :
  onError e w h
  = if lacks_original e then
      (h ++ [ELog Err (js "Fail to processing hathor event: ") (Some e)],
       inl match_of_undefined)
    else
      (h ++ [ELog Err (js "Fail to processing hathor event: ") (Some e);
             if nonRetriable e then EAck else ENack], inr tt).
Proof.
  unfold onError, ack, nack, emit, nonRetriable, lacks_original.
  unfold bind at 1.
  destruct e as [m [orig|]|m|p c|r]; cbv beta iota;
    try by rewrite <- app_assoc.
  - unfold bind. rewrite isNonRetriable_loop_existsb.
    destruct (existsb _ _); by rewrite <- app_assoc.
  - reflexivity.
Qed.

(** The handler, once the outcome of [received] is known. *)
Lemma onMessage_spec (message : Message) (w : World) (h : history) :
  onMessage chainConfig message w h =
  match received chainConfig message w h with
  | (h', inr response) =>
      (h' ++ [if truthy response then EAck else ENack], inr tt)
  | (h', inl e) =>
      if lacks_original e then
        (h' ++ [ELog Err (js "Fail to processing hathor event: ") (Some e)],
         inl match_of_undefined)
      else
        (h' ++ [ELog Err (js "Fail to processing hathor event: ") (Some e);
                if nonRetriable e then EAck else ENack], inr tt)
  end.
Proof.
  unfold onMessage, try_catch, bind.
  destruct (received chainConfig message w h) as [h' [e|response]].
  - apply onError_spec.
  - by destruct (truthy response).
Qed.

Lemma received_parsed (event : Event) :
  received chainConfig (mkMessage (inr event)) = parseHathorLogs chainConfig event.
Proof. reflexivity. Qed.

(** A transaction none of the three conditions accepts: the function ends
    without a [return]. *)
Lemma parseHathorLogs_falls_through (event : Event) :
  type event = js "wallet:new-tx" ->
  haveCustomData (tx_of event) (js "hex") = false ->
  haveCustomData (tx_of event) (js "sig") = false
  \/ multisigOrder chainConfig < multisigRequiredSignatures chainConfig ->
  haveCustomData (tx_of event) (js "addr") = false ->
  parseHathorLogs chainConfig event = ret None.
Proof.
  intros Ht Hhex Hsig Haddr. unfold parseHathorLogs.
  rewrite bool_decide_eq_true_2 by done. cbv zeta. simpl negb. cbv iota.
  rewrite Hhex, Haddr.
  destruct Hsig as [-> | Hlt]; [done|].
  replace (_ >=? _) with false; [by rewrite andb_false_r|].
  symmetry. rewrite Z.geb_leb. apply Z.leb_gt. lia.
Qed.

(** The signature branch is the one taken once the proposal test fails,
    the transaction carries [sig] data and the federator's order has
    reached the number of required signatures. *)
Lemma parseHathorLogs_signature_branch (event : Event) :
  type event = js "wallet:new-tx" ->
  haveCustomData (tx_of event) (js "hex") = false ->
  haveCustomData (tx_of event) (js "sig") = true ->
  multisigRequiredSignatures chainConfig <= multisigOrder chainConfig ->
  parseHathorLogs chainConfig event
  = evaluateSignature chainConfig (tx_of event).
Proof.
  intros Ht Hhex Hsig Hord. unfold parseHathorLogs.
  rewrite bool_decide_eq_true_2 by done. cbv zeta. simpl negb. cbv iota.
  rewrite Hhex, Hsig.
  replace (_ >=? _) with true; [done|].
  symmetry. rewrite Z.geb_leb. by apply Z.leb_le.
Qed.

(** C4, as amended.  The branch of a new-transaction event is decided in
    the order [hex] (proposal), then [sig] (signature, and only on a
    federator whose [multisigOrder] has reached
    [multisigRequiredSignatures]), then [addr] (inbound transfer); the
    first condition that holds selects the branch whatever other tags the
    transaction carries, and the first effect of the handler tells which
    branch runs. *)
Theorem C4_branch_priority (event : Event) :
  type event = js "wallet:new-tx" ->
  let tx := tx_of event in
  (haveCustomData tx (js "hex") = true ->
   parseHathorLogs chainConfig event = evaluateProposal tx
   /\ forall w h, exists rest,
        fst (parseHathorLogs chainConfig event w h)
        = h ++ ELog Info (js "Evaluating proposal...") None :: rest)
  /\ (haveCustomData tx (js "hex") = false ->
      haveCustomData tx (js "sig") = true ->
      multisigRequiredSignatures chainConfig <= multisigOrder chainConfig ->
      parseHathorLogs chainConfig event = evaluateSignature chainConfig tx
      /\ forall w h, exists rest,
           fst (parseHathorLogs chainConfig event w h)
           = h ++ ELog Info (js "Evaluating signature...") None :: rest)
  /\ (haveCustomData tx (js "hex") = false ->
      haveCustomData tx (js "sig") = false
      \/ multisigOrder chainConfig < multisigRequiredSignatures chainConfig ->
      haveCustomData tx (js "addr") = true ->
      parseHathorLogs chainConfig event = evaluateHathorToEvm tx
      /\ forall w h, exists rest,
           fst (parseHathorLogs chainConfig event w h)
           = h ++ EBroker HathorBroker (IsTxConfirmed (tx_id tx)) :: rest).
Proof.
  intros Ht tx.
  assert (Hp : forall k : M (option bool),
    (if negb (bool_decide (type event = js "wallet:new-tx"))
     then ret (Some true) else k) = k).
  { intros k. by rewrite bool_decide_eq_true_2. }
  split; [|split].
  - intros Hhex.
    assert (E : parseHathorLogs chainConfig event = evaluateProposal tx).
    { unfold parseHathorLogs. rewrite Hp. cbv zeta. fold tx. by rewrite Hhex. }
    split; [exact E|]. intros w h. rewrite E.
    unfold evaluateProposal, bind, log_info, emit.
    destruct (destructure_broker tx w _) as [h1 [e|[b d]]] eqn:Eb.
    + unfold destructure_broker in Eb.
      destruct (getBrokerAndDataType tx); inversion Eb; subst. by eexists.
    + unfold destructure_broker in Eb.
      destruct (getBrokerAndDataType tx); inversion Eb; subst.
      unfold isTxConfirmed, perform.
      destruct (isTxConfirmed_ _ _ _ _) as [e|[|]]; simpl;
        rewrite <- ?app_assoc; try by eexists.
      unfold sendMySignaturesToProposal, perform.
      destruct (sendMySignaturesToProposal_ _ _ _ _ _) as [e|[]]; simpl;
        rewrite <- ?app_assoc; by eexists.
  - intros Hhex Hsig Hord.
    assert (E : parseHathorLogs chainConfig event
                = evaluateSignature chainConfig tx).
    { unfold parseHathorLogs. rewrite Hp. cbv zeta. fold tx.
      rewrite Hhex, Hsig.
      replace (_ >=? _) with true; [done|].
      symmetry. rewrite Z.geb_leb. by apply Z.leb_le. }
    split; [exact E|]. intros w h. rewrite E.
    unfold evaluateSignature, bind, log_info, emit.
    destruct (destructure_broker tx w _) as [h1 [e|[b d]]] eqn:Eb.
    + unfold destructure_broker in Eb.
      destruct (getBrokerAndDataType tx); inversion Eb; subst. by eexists.
    + unfold destructure_broker in Eb.
      destruct (getBrokerAndDataType tx); inversion Eb; subst.
      unfold isTxConfirmed, perform.
      destruct (isTxConfirmed_ _ _ _ _) as [e|[|]]; simpl;
        rewrite <- ?app_assoc; try by eexists.
      unfold getSignaturesToPush, perform.
      destruct (getSignaturesToPush_ _ _ _ _) as [e|c]; simpl;
        rewrite <- ?app_assoc; try by eexists.
      destruct (_ <? _); simpl; rewrite <- ?app_assoc; try by eexists.
      unfold signAndPushProposal, perform.
      destruct (signAndPushProposal_ _ _ _ _ _ _) as [e|[]]; simpl;
        rewrite <- ?app_assoc; by eexists.
  - intros Hhex Hsig Haddr.
    assert (E : parseHathorLogs chainConfig event = evaluateHathorToEvm tx).
    { unfold parseHathorLogs. rewrite Hp. cbv zeta. fold tx.
      rewrite Hhex, Haddr.
      destruct Hsig as [-> | Hlt]; [done|].
      replace (_ >=? _) with false; [by rewrite andb_false_r|].
      symmetry. rewrite Z.geb_leb. apply Z.leb_gt. lia. }
    split; [exact E|]. intros w h. rewrite E.
    unfold evaluateHathorToEvm, bind, isTxConfirmed, perform.
    destruct (isTxConfirmed_ _ _ _ _) as [e|[|]]; simpl; try by eexists.
    destruct (head _) as [td|]; [|by eexists].
    unfold sendTokensFromHathor, perform.
    destruct (sendTokensFromHathor_ _ _ _ _ _ _ _ _) as [e|[|]]; simpl;
      rewrite <- ?app_assoc; by eexists.
Qed.

(** C5, as amended.  A signature message on a federator whose
    [multisigOrder] has reached [multisigRequiredSignatures], for a
    transaction whose data type selects a broker ([hsh] or [hid]): an
    unconfirmed transaction is nacked with nothing read; a confirmed one
    has its signatures read and is nacked when they are fewer than
    [multisigRequiredSignatures]; otherwise [signAndPushProposal] is
    called with the components read and, when it returns, the message is
    acked. *)
Theorem C5_signature_at_threshold (event : Event) (w : World) (h : history)
  (broker : brokerKind) (dataType : jsstring) :
  let tx := tx_of event in
  let message := mkMessage (inr event) in
  let txId := getCustomData tx dataType in
  let h1 := h ++ [ELog Info (js "Evaluating signature...") None] in
  let h2 := h1 ++ [EBroker broker (IsTxConfirmed (tx_id tx))] in
  let h3 := h2 ++ [EBroker broker (GetSignaturesToPush txId)] in
  type event = js "wallet:new-tx" ->
  haveCustomData tx (js "hex") = false ->
  haveCustomData tx (js "sig") = true ->
  multisigRequiredSignatures chainConfig <= multisigOrder chainConfig ->
  getBrokerAndDataType tx = Some (broker, dataType) ->
  (isTxConfirmed_ w h1 broker (tx_id tx) = inr false ->
   onMessage chainConfig message w h = (h2 ++ [ENack], inr tt))
  /\ (forall components : ProposalComponents,
       isTxConfirmed_ w h1 broker (tx_id tx) = inr true ->
       getSignaturesToPush_ w h2 broker txId = inr components ->
       (Z.of_nat (length (signatures components))
        < multisigRequiredSignatures chainConfig ->
        onMessage chainConfig message w h
        = (h3 ++
           [ELog Info
              (js "Number of signatures not reached. Require " ++
               number (multisigRequiredSignatures chainConfig) ++
               js " signatures, have " ++
               number (Z.of_nat (length (signatures components)))) None;
            ENack], inr tt))
       /\ (multisigRequiredSignatures chainConfig
           <= Z.of_nat (length (signatures components)) ->
           signAndPushProposal_ w h3 broker (hex components) txId
             (signatures components) = inr tt ->
           onMessage chainConfig message w h
           = (h3 ++
              [EBroker broker
                 (SignAndPushProposal (hex components) txId
                    (signatures components));
               EAck], inr tt))).
Proof.
  intros tx message txId h1 h2 h3 Ht Hhex Hsig Hord Hb.
  pose proof (parseHathorLogs_signature_branch event Ht Hhex Hsig Hord) as E.
  assert (Hrun : received chainConfig message w h
    = match isTxConfirmed_ w h1 broker (tx_id tx) with
      | inl e => (h2, inl e)
      | inr false => (h2, inr (Some false))
      | inr true =>
          match getSignaturesToPush_ w h2 broker txId with
          | inl e => (h3, inl e)
          | inr components =>
              if Z.of_nat (length (signatures components))
                 <? multisigRequiredSignatures chainConfig
              then
                (h3 ++
                 [ELog Info
                    (js "Number of signatures not reached. Require " ++
                     number (multisigRequiredSignatures chainConfig) ++
                     js " signatures, have " ++
                     number (Z.of_nat (length (signatures components))))
                    None], inr (Some false))
              else
                (h3 ++
                 [EBroker broker
                    (SignAndPushProposal (hex components) txId
                       (signatures components))],
                 match signAndPushProposal_ w h3 broker (hex components) txId
                         (signatures components) with
                 | inl e => inl e
                 | inr _ => inr (Some true)
                 end)
          end
      end).
  { unfold message. rewrite received_parsed, E.
    unfold evaluateSignature, destructure_broker. fold tx. rewrite Hb.
    unfold bind, ret, log_info, isTxConfirmed, getSignaturesToPush,
      signAndPushProposal, perform, emit.
    fold h1. destruct (isTxConfirmed_ w h1 broker (tx_id tx)) as [e|[|]];
      cbn [negb]; cbv beta iota; fold h2; try reflexivity.
    fold txId. destruct (getSignaturesToPush_ w h2 broker txId) as [e|c];
      cbv beta iota; fold h3; try reflexivity.
    destruct (_ <? _); cbv beta iota; [reflexivity|].
    by destruct (signAndPushProposal_ w h3 broker (hex c) txId (signatures c)). }
  split.
  - intros Hc. rewrite onMessage_spec, Hrun, Hc. reflexivity.
  - intros components Hc Hg. split.
    + intros Hlt. rewrite onMessage_spec, Hrun, Hc, Hg.
      apply Z.ltb_lt in Hlt. rewrite Hlt. simpl.
      by rewrite <- app_assoc.
    + intros Hge Hp. rewrite onMessage_spec, Hrun, Hc, Hg.
      replace (_ <? _) with false by (symmetry; apply Z.ltb_ge; lia).
      rewrite Hp. simpl. by rewrite <- app_assoc.
Qed.

(** C6, as the code has it.  A signature message on a federator whose
    [multisigOrder] is below [multisigRequiredSignatures], with no [hex]
    and no [addr] data: no wallet or broker call is made, but
    [parseHathorLogs] ends without a [return], [response] is [undefined]
    and the handler nacks the message. *)
Theorem C6_signature_below_threshold (event : Event) (w : World) (h : history) :
  type event = js "wallet:new-tx" ->
  haveCustomData (tx_of event) (js "sig") = true ->
  haveCustomData (tx_of event) (js "hex") = false ->
  haveCustomData (tx_of event) (js "addr") = false ->
  multisigOrder chainConfig < multisigRequiredSignatures chainConfig ->
  parseHathorLogs chainConfig event w h = (h, inr None)
  /\ onMessage chainConfig (mkMessage (inr event)) w h = (h ++ [ENack], inr tt).
Proof.
  intros Ht _ Hhex Haddr Hord.
  assert (E : parseHathorLogs chainConfig event = ret None)
    by (apply parseHathorLogs_falls_through; auto).
  split; [by rewrite E|].
  by rewrite onMessage_spec, received_parsed, E.
Qed.

(** C7, as the code has it.  When [received] raises [e], the handler
    logs it.  It then acks if [e] is a [HathorException] whose original
    message matches one of [nonRetriableErrors], and nacks a
    [HathorException] whose original message matches none, as well as
    every thrown value that is not a [HathorException].  On a
    [HathorException] that carries no original message the unguarded
    [originalError.match] throws inside the [catch] block: the callback
    is left with a [TypeError] and the message is neither acked nor
    nacked. *)
Theorem C7_error_classification (message : Message) (w : World)
  (h h' : history) (e : error) :
  received chainConfig message w h = (h', inl e) ->
  (lacks_original e = false ->
   onMessage chainConfig message w h
   = (h' ++ [ELog Err (js "Fail to processing hathor event: ") (Some e);
             if nonRetriable e then EAck else ENack], inr tt))
  /\ (lacks_original e = true ->
      onMessage chainConfig message w h
      = (h' ++ [ELog Err (js "Fail to processing hathor event: ") (Some e)],
         inl match_of_undefined))
  /\ (nonRetriable e = true <->
      exists m originalMessage pattern,
        e = HathorException m (Some originalMessage)
        /\ In pattern nonRetriableErrors
        /\ matches originalMessage pattern = true)
  /\ (lacks_original e = true <-> exists m, e = HathorException m None).
Proof.
  intros Hr. split; [|split; [|split]].
  - intros Hl. by rewrite onMessage_spec, Hr, Hl.
  - intros Hl. by rewrite onMessage_spec, Hr, Hl.
  - unfold nonRetriable. split.
    + destruct e as [m [orig|]|m|p c|r]; try discriminate.
      intros Hex. apply existsb_exists in Hex as (r & Hin & Hm).
      by exists m, orig, r.
    + intros (m & orig & r & -> & Hin & Hm).
      apply existsb_exists. by exists r.
  - unfold lacks_original. split.
    + destruct e as [m [orig|]|m|p c|r]; try discriminate. by exists m.
    + by intros (m & ->).
Qed.

(** C9, as the code has it.  An event whose type is not ['wallet:new-tx']
    is acked with no other effect.  A new-transaction event carrying none
    of [hex], [sig], [addr] makes no wallet or broker call either, but
    [parseHathorLogs] ends without a [return] and the handler nacks it. *)
Theorem C9_not_a_bridge_transaction (event : Event) (w : World) (h : history) :
  (type event <> js "wallet:new-tx" ->
   onMessage chainConfig (mkMessage (inr event)) w h = (h ++ [EAck], inr tt))
  /\ (type event = js "wallet:new-tx" ->
      haveCustomData (tx_of event) (js "hex") = false ->
      haveCustomData (tx_of event) (js "sig") = false ->
      haveCustomData (tx_of event) (js "addr") = false ->
      parseHathorLogs chainConfig event w h = (h, inr None)
      /\ onMessage chainConfig (mkMessage (inr event)) w h
         = (h ++ [ENack], inr tt)).
Proof.
  split.
  - intros Ht. rewrite onMessage_spec, received_parsed.
    unfold parseHathorLogs. by rewrite bool_decide_eq_false_2.
  - intros Ht Hhex Hsig Haddr.
    assert (E : parseHathorLogs chainConfig event = ret None)
      by (apply parseHathorLogs_falls_through; auto).
    split; [by rewrite E|].
    by rewrite onMessage_spec, received_parsed, E.
Qed.

End ServiceProperties.

Section ServiceRuns.
Import HathorService ServiceExamples.
#[local] Existing Instance example_methods.

(** C4 as stated fails: a transaction carrying both [addr] and [hex] data
    is handled as a proposal, not as an inbound transfer. *)
Lemma C4_addr_does_not_win :
  haveCustomData (tx_of addr_and_hex) (js "addr") = true
  /\ haveCustomData (tx_of addr_and_hex) (js "hex") = true
  /\ onMessage (config 1 2) (message_of addr_and_hex) (world true [] true) []
     = ([ELog Info (js "Evaluating proposal...") None;
         EBroker EvmBroker (IsTxConfirmed (js "tx-1"));
         EBroker EvmBroker
           (SendMySignaturesToProposal (js "00ff") (js "0xdef"));
         EAck], inr tt)
  /\ parseHathorLogs (config 1 2) addr_and_hex
     <> evaluateHathorToEvm (tx_of addr_and_hex).
Proof.
  repeat split.
  intros E.
  apply (f_equal (fun m : M (option bool) => m (world true [] true) [])) in E.
  vm_compute in E. discriminate.
Qed.

(** C5 as stated fails: a signature message at the threshold whose
    transaction names no data type selects no broker.  Though every
    broker would confirm the transaction and hold enough signatures,
    nothing is asked, nothing is pushed and the message is nacked. *)
Lemma C5_untyped_signature_is_nacked :
  let w := world true [js "s1"; js "s2"] true in
  haveCustomData (tx_of FurtherExamples.sig_untyped) (js "sig") = true
  /\ haveCustomData (tx_of FurtherExamples.sig_untyped) (js "hex") = false
  /\ multisigRequiredSignatures (config 2 2) <= multisigOrder (config 2 2)
  /\ (forall hh b id, isTxConfirmed_ w hh b id = inr true)
  /\ (forall hh b id,
        exists c, getSignaturesToPush_ w hh b id = inr c
                  /\ multisigRequiredSignatures (config 2 2)
                     <= Z.of_nat (length (signatures c)))
  /\ onMessage (config 2 2) (message_of FurtherExamples.sig_untyped) w []
     = ([ELog Info (js "Evaluating signature...") None;
         ELog Err (js "Fail to processing hathor event: ")
           (Some (TypeError "undefined is not iterable"));
         ENack], inr tt).
Proof.
  intros w. split; [reflexivity|]. split; [reflexivity|].
  split; [simpl; lia|]. split; [reflexivity|].
  split; [|reflexivity].
  intros hh b id. eexists. split; [reflexivity|]. simpl. lia.
Qed.

Lemma C4_branch_priority_witness :
  parseHathorLogs (config 1 2) addr_and_hex
  = evaluateProposal (tx_of addr_and_hex)
  /\ parseHathorLogs (config 2 2) sig_only
     = evaluateSignature (config 2 2) (tx_of sig_only)
  /\ parseHathorLogs (config 1 2) addr_only
     = evaluateHathorToEvm (tx_of addr_only).
Proof.
  split; [|split].
  - destruct (C4_branch_priority (config 1 2) addr_and_hex eq_refl)
      as (A & _ & _).
    apply A. reflexivity.
  - destruct (C4_branch_priority (config 2 2) sig_only eq_refl)
      as (_ & B & _).
    apply B; [reflexivity | reflexivity | simpl; lia].
  - destruct (C4_branch_priority (config 1 2) addr_only eq_refl)
      as (_ & _ & C).
    apply C; [reflexivity | left; reflexivity | reflexivity].
Defined.

Lemma C5_signature_at_threshold_witness :
  onMessage (config 2 2) (message_of sig_only) (world false [] true) []
  = ([ELog Info (js "Evaluating signature...") None;
      EBroker EvmBroker (IsTxConfirmed (js "tx-1"));
      ENack], inr tt)
  /\ onMessage (config 2 2) (message_of sig_only) (world true [js "s1"] true) []
     = ([ELog Info (js "Evaluating signature...") None;
         EBroker EvmBroker (IsTxConfirmed (js "tx-1"));
         EBroker EvmBroker (GetSignaturesToPush (js "0xdef"));
         ELog Info
           (js "Number of signatures not reached. Require 2 signatures, have 1")
           None;
         ENack], inr tt)
  /\ onMessage (config 2 2) (message_of sig_only)
       (world true [js "s1"; js "s2"] true) []
     = ([ELog Info (js "Evaluating signature...") None;
         EBroker EvmBroker (IsTxConfirmed (js "tx-1"));
         EBroker EvmBroker (GetSignaturesToPush (js "0xdef"));
         EBroker EvmBroker
           (SignAndPushProposal (js "00ff") (js "0xdef") [js "s1"; js "s2"]);
         EAck], inr tt).
Proof.
  assert (Hord : multisigRequiredSignatures (config 2 2)
                 <= multisigOrder (config 2 2)) by (simpl; lia).
  split; [|split].
  - destruct (fun Ht Hh Hs Hb =>
                C5_signature_at_threshold (config 2 2) sig_only
                  (world false [] true) [] EvmBroker (js "hsh") Ht Hh Hs Hord Hb) as [A _];
      [reflexivity | reflexivity | reflexivity | reflexivity |].
    apply A. reflexivity.
  - destruct (fun Ht Hh Hs Hb =>
                C5_signature_at_threshold (config 2 2) sig_only
                  (world true [js "s1"] true) [] EvmBroker (js "hsh") Ht Hh Hs Hord Hb) as [_ B];
      [reflexivity | reflexivity | reflexivity | reflexivity |].
    destruct (B (mkComponents (js "00ff") [js "s1"])) as [C _];
      [reflexivity | reflexivity |].
    apply C. simpl. lia.
  - destruct (fun Ht Hh Hs Hb =>
                C5_signature_at_threshold (config 2 2) sig_only
                  (world true [js "s1"; js "s2"] true) [] EvmBroker (js "hsh") Ht Hh Hs Hord Hb) as [_ B];
      [reflexivity | reflexivity | reflexivity | reflexivity |].
    destruct (B (mkComponents (js "00ff") [js "s1"; js "s2"])) as [_ C];
      [reflexivity | reflexivity |].
    apply C; [simpl; lia | reflexivity].
Defined.

Lemma C6_signature_below_threshold_witness :
  haveCustomData (tx_of sig_only) (js "sig") = true
  /\ parseHathorLogs (config 1 2) sig_only (world true [js "s1"] true) []
     = ([], inr None)
  /\ onMessage (config 1 2) (message_of sig_only) (world true [js "s1"] true) []
     = ([ENack], inr tt).
Proof.
  split; [reflexivity|].
  apply (C6_signature_below_threshold (config 1 2) sig_only
           (world true [js "s1"] true) []);
    [reflexivity | reflexivity | reflexivity | reflexivity | simpl; lia].
Defined.

Lemma C7_error_classification_witness :
  (onMessage (config 1 2) (message_of addr_only) (world true [] false) []
   = ([EBroker HathorBroker (IsTxConfirmed (js "tx-1"));
       EBroker HathorBroker
         (SendTokensFromHathor (js "0xabc") 5 (js "00") (js "tx-1")
            (js "sender") 1700000000)] ++
      [ELog Err (js "Fail to processing hathor event: ")
         (Some (HathorException (js "Invalid tx") (Some (js "Invalid tx"))));
       EAck], inr tt))
  /\ (onMessage (config 1 2)
        (mkMessage (inl (JsError (js "SyntaxError: Unexpected end of JSON input"))))
        (world true [] false) []
      = ([] ++
         [ELog Err (js "Fail to processing hathor event: ")
            (Some (JsError (js "SyntaxError: Unexpected end of JSON input")));
          ENack], inr tt))
  /\ (onMessage (config 2 2) (message_of sig_only)
        (FurtherExamples.failing_push [js "s1"; js "s2"]) []
      = ([ELog Info (js "Evaluating signature...") None;
          EBroker EvmBroker (IsTxConfirmed (js "tx-1"));
          EBroker EvmBroker (GetSignaturesToPush (js "0xdef"));
          EBroker EvmBroker
            (SignAndPushProposal (js "00ff") (js "0xdef") [js "s1"; js "s2"])]
         ++ [ELog Err (js "Fail to processing hathor event: ")
               (Some FurtherExamples.bare_failure)],
         inl match_of_undefined)).
Proof.
  split; [|split].
  - destruct (C7_error_classification (config 1 2) (message_of addr_only)
                (world true [] false) []
                [EBroker HathorBroker (IsTxConfirmed (js "tx-1"));
                 EBroker HathorBroker
                   (SendTokensFromHathor (js "0xabc") 5 (js "00") (js "tx-1")
                      (js "sender") 1700000000)]
                (HathorException (js "Invalid tx") (Some (js "Invalid tx"))))
      as (A & _); [reflexivity|].
    apply A. reflexivity.
  - destruct (C7_error_classification (config 1 2)
                (mkMessage
                   (inl (JsError
                           (js "SyntaxError: Unexpected end of JSON input"))))
                (world true [] false) [] []
                (JsError (js "SyntaxError: Unexpected end of JSON input")))
      as (A & _); [reflexivity|].
    apply A. reflexivity.
  - destruct (C7_error_classification (config 2 2) (message_of sig_only)
                (FurtherExamples.failing_push [js "s1"; js "s2"]) []
                [ELog Info (js "Evaluating signature...") None;
                 EBroker EvmBroker (IsTxConfirmed (js "tx-1"));
                 EBroker EvmBroker (GetSignaturesToPush (js "0xdef"));
                 EBroker EvmBroker
                   (SignAndPushProposal (js "00ff") (js "0xdef")
                      [js "s1"; js "s2"])]
                FurtherExamples.bare_failure)
      as (_ & B & _); [reflexivity|].
    apply B. reflexivity.
Defined.

Lemma C9_not_a_bridge_transaction_witness :
  onMessage (config 1 2) (message_of other_event) (world true [] true) []
  = ([EAck], inr tt)
  /\ parseHathorLogs (config 1 2) plain_tx (world true [] true) []
     = ([], inr None)
  /\ onMessage (config 1 2) (message_of plain_tx) (world true [] true) []
     = ([ENack], inr tt).
Proof.
  destruct (C9_not_a_bridge_transaction (config 1 2) other_event
              (world true [] true) []) as [A _].
  destruct (C9_not_a_bridge_transaction (config 1 2) plain_tx
              (world true [] true) []) as [_ B].
  split.
  - apply A. vm_compute. discriminate.
  - apply B; reflexivity.
Defined.

End ServiceRuns.

(** ** The wallet client *)

Section WalletProperties.
Import HathorWallet.
Variable this : HathorWallet.

Lemma isWalletReady_unfold (multisig : bool) (retry : Z) :
  isWalletReady this multisig retry =
  if retry >? 3 then
    (fun w h => (h ++ [log_exhausted this multisig], inr (Some false)))
  else
    bind (isWalletReady_poll this multisig retry)
         (fun outcome =>
            match outcome with
            | Return v => ret v
            | Retry => isWalletReady this multisig (retry + 1)
            end).
Proof.
  unfold isWalletReady. destruct (retry >? 3) eqn:E.
  - replace (Z.to_nat (4 - retry)) with 0%nat by lia.
    destruct multisig; reflexivity.
  - replace (Z.to_nat (4 - retry)) with (S (Z.to_nat (4 - (retry + 1))))
      by lia.
    reflexivity.
Qed.

(** One poll, case by case. *)
Lemma isWalletReady_poll_run (multisig : bool) (retry : Z) (w : World)
  (h : history) :
  let req := status_request this multisig in
  let start := start_request this multisig in
  let checking := log_checking this multisig retry in
  isWalletReady_poll this multisig retry w h =
  match get_status w (h ++ [checking]) req with
  | inl e =>
      (h ++ [checking; EHttp req],
       inl (Rethrown (js "Fail to get status of " ++
                      wallet_id this multisig ++ js " wallet: ") e))
  | inr response =>
      let d := data response in
      if statusCode d =? WALLET_STATUS_READY then
        (h ++ [checking; EHttp req; log_ready this multisig],
         inr (Return (Some true)))
      else if (statusCode d =? WALLET_STATUS_CONNECTING)
              || (statusCode d =? WALLET_STATUS_SYNCING) then
        (h ++ [checking; EHttp req;
               log_is this multisig (statusMessage d); EDelay 3000],
         inr Retry)
      else if negb (status_success d)
              && bool_decide (statusMessage d = js "") then
        match post_start w
                (h ++ [checking; EHttp req; log_stopped this multisig;
                       log_starting this multisig]) start with
        | inl e =>
            (h ++ [checking; EHttp req; log_stopped this multisig;
                   log_starting this multisig; EHttp start],
             inl (Rethrown (js "Fail to get status of " ++
                            wallet_id this multisig ++ js " wallet: ")
                    (Rethrown (js "Fail to start wallet: ") e)))
        | inr _ =>
            (h ++ [checking; EHttp req; log_stopped this multisig;
                   log_starting this multisig; EHttp start; EDelay 3000],
             inr Retry)
        end
      else (h ++ [checking; EHttp req], inr (Return None))
  end.
Proof.
  intros req start checking. subst req start checking.
  unfold isWalletReady_poll, startWallet, try_catch, bind, ret, throw,
    log_info, delay, perform, emit.
  unfold status_request, start_request, log_checking, log_ready, log_is,
    log_stopped, log_starting, wallet_id.
  cbv zeta.
  destruct (get_status w _ _) as [e|response]; cbv beta iota zeta.
  - by rewrite <- app_assoc.
  - destruct (statusCode (data response) =? WALLET_STATUS_READY);
      cbv beta iota.
    { by rewrite <- !app_assoc. }
    unfold existsb. rewrite orb_false_r.
    destruct ((statusCode (data response) =? WALLET_STATUS_CONNECTING)
              || (statusCode (data response) =? WALLET_STATUS_SYNCING));
      cbv beta iota.
    { by rewrite <- !app_assoc. }
    destruct (negb (status_success (data response))
              && bool_decide (statusMessage (data response) = js ""));
      cbv beta iota.
    + rewrite <- !app_assoc. simpl app.
      destruct (post_start w _ _) as [e|s];
        cbv beta iota; rewrite <- ?app_assoc; reflexivity.
    + by rewrite <- app_assoc.
Qed.

Lemma isWalletReady_exhausted (multisig : bool) (retry : Z) (w : World)
  (h : history) :
  3 < retry ->
  isWalletReady this multisig retry w h
  = (h ++ [log_exhausted this multisig], inr (Some false)).
Proof.
  intros Hr. rewrite isWalletReady_unfold.
  by replace (retry >? 3) with true by lia.
Qed.

Lemma isWalletReady_ready (multisig : bool) (retry : Z) (w : World)
  (h : history) (r : Response StatusData) :
  retry <= 3 ->
  get_status w (h ++ [log_checking this multisig retry])
    (status_request this multisig) = inr r ->
  statusCode (data r) = WALLET_STATUS_READY ->
  isWalletReady this multisig retry w h
  = (h ++ [log_checking this multisig retry;
           EHttp (status_request this multisig);
           log_ready this multisig], inr (Some true)).
Proof.
  intros Hr Hg Hc. rewrite isWalletReady_unfold.
  replace (retry >? 3) with false by lia.
  unfold bind. rewrite isWalletReady_poll_run, Hg. cbv zeta.
  by rewrite Hc, Z.eqb_refl.
Qed.

Lemma isWalletReady_waits (multisig : bool) (retry : Z) (w : World)
  (h : history) (r : Response StatusData) :
  retry <= 3 ->
  get_status w (h ++ [log_checking this multisig retry])
    (status_request this multisig) = inr r ->
  statusCode (data r) = WALLET_STATUS_CONNECTING
  \/ statusCode (data r) = WALLET_STATUS_SYNCING ->
  isWalletReady this multisig retry w h
  = isWalletReady this multisig (retry + 1) w
      (h ++ [log_checking this multisig retry;
             EHttp (status_request this multisig);
             log_is this multisig (statusMessage (data r));
             EDelay 3000]).
Proof.
  intros Hr Hg Hc. rewrite isWalletReady_unfold.
  replace (retry >? 3) with false by lia.
  unfold bind at 1. rewrite isWalletReady_poll_run, Hg. cbv zeta.
  destruct Hc as [Hc|Hc]; by rewrite Hc.
Qed.

Lemma is_get_status_request (multisig : bool) :
  is_get (status_request this multisig)
         (EHttp (status_request this multisig)) = true.
Proof.
  unfold is_get, status_request.
  by rewrite !bool_decide_eq_true_2.
Qed.

Lemma polls_app (req : httpRequest) (h h' : history) :
  polls req (h ++ h') = (polls req h + polls req h')%nat.
Proof. unfold polls. by rewrite List.filter_app, length_app. Qed.

Lemma polls_cons (req : httpRequest) (e : effect) (h : history) :
  polls req (e :: h)
  = ((if is_get req e then 1 else 0) + polls req h)%nat.
Proof. unfold polls. simpl. by destruct (is_get req e). Qed.

(** C8. The readiness check, called with its default [retry = 1].  A
    wallet that answers SYNCING, SYNCING, READY makes it return [true]
    after three polls with a 3000 ms delay after each of the first two.  A
    wallet that answers SYNCING to every poll makes it return [false],
    not throw, after three polls and three delays.  A poll answered by a
    stopped response (no known status code, [success = false], empty
    status message) is followed at once by the [start] request; when that
    returns, the check waits 3000 ms and goes on with [retry + 1]. *)
Theorem C8_wallet_readiness (multisig : bool) (w : World) (h : history) :
  let req := status_request this multisig in
  (forall r1 r2 r3 : Response StatusData,
     reports w req h [r1; r2; r3] ->
     statusCode (data r1) = WALLET_STATUS_SYNCING ->
     statusCode (data r2) = WALLET_STATUS_SYNCING ->
     statusCode (data r3) = WALLET_STATUS_READY ->
     exists h',
       isWalletReady1 this multisig w h = (h ++ h', inr (Some true))
       /\ without_logs h'
          = [EHttp req; EDelay 3000; EHttp req; EDelay 3000; EHttp req])
  /\ ((forall hh, exists r,
         get_status w hh req = inr r
         /\ statusCode (data r) = WALLET_STATUS_SYNCING) ->
      exists h',
        isWalletReady1 this multisig w h = (h ++ h', inr (Some false))
        /\ without_logs h'
           = [EHttp req; EDelay 3000; EHttp req; EDelay 3000;
              EHttp req; EDelay 3000])
  /\ (forall (retry : Z) (r : Response StatusData),
       retry <= 3 ->
       get_status w (h ++ [log_checking this multisig retry]) req = inr r ->
       looks_stopped (data r) ->
       let h2 := h ++ [log_checking this multisig retry; EHttp req;
                       log_stopped this multisig; log_starting this multisig] in
       match post_start w h2 (start_request this multisig) with
       | inl e =>
           isWalletReady this multisig retry w h
           = (h2 ++ [EHttp (start_request this multisig)],
              inl (Rethrown (js "Fail to get status of " ++
                             wallet_id this multisig ++ js " wallet: ")
                     (Rethrown (js "Fail to start wallet: ") e)))
       | inr _ =>
           isWalletReady this multisig retry w h
           = isWalletReady this multisig (retry + 1) w
               (h2 ++ [EHttp (start_request this multisig); EDelay 3000])
       end).
Proof.
  intros req. split; [|split].
  - intros r1 r2 r3 Hrep H1 H2 H3.
    pose (t1 := [log_checking this multisig 1; EHttp req;
                 log_is this multisig (statusMessage (data r1)); EDelay 3000]).
    pose (t2 := [log_checking this multisig 2; EHttp req;
                 log_is this multisig (statusMessage (data r2)); EDelay 3000]).
    pose (t3 := [log_checking this multisig 3; EHttp req;
                 log_ready this multisig]).
    assert (Hreq : is_get req (EHttp req) = true)
      by apply is_get_status_request.
    assert (P1 : polls req t1 = 1%nat).
    { unfold t1. rewrite !polls_cons, Hreq. reflexivity. }
    assert (P2 : polls req t2 = 1%nat).
    { unfold t2. rewrite !polls_cons, Hreq. reflexivity. }
    exists (t1 ++ t2 ++ t3). split.
    + unfold isWalletReady1.
      rewrite (isWalletReady_waits multisig 1 w h r1); [|lia| |by right].
      2: { apply (Hrep [log_checking this multisig 1]). reflexivity. }
      fold req. fold t1. change (1 + 1) with 2.
      rewrite (isWalletReady_waits multisig 2 w (h ++ t1) r2);
        [|lia| |by right].
      2: { rewrite <- app_assoc.
           apply (Hrep (t1 ++ [log_checking this multisig 2])).
           rewrite polls_app, P1. reflexivity. }
      fold req. fold t2. change (2 + 1) with 3.
      rewrite (isWalletReady_ready multisig 3 w ((h ++ t1) ++ t2) r3);
        [|lia| |done].
      2: { rewrite <- !app_assoc.
           apply (Hrep (t1 ++ t2 ++ [log_checking this multisig 3])).
           rewrite !polls_app, P1, P2. reflexivity. }
      fold req. fold t3. by rewrite <- !app_assoc.
    + unfold without_logs, t1, t2, t3. reflexivity.
  - intros Hall.
    destruct (Hall (h ++ [log_checking this multisig 1])) as (r1 & G1 & C1).
    pose (t1 := [log_checking this multisig 1; EHttp req;
                 log_is this multisig (statusMessage (data r1)); EDelay 3000]).
    destruct (Hall ((h ++ t1) ++ [log_checking this multisig 2]))
      as (r2 & G2 & C2).
    pose (t2 := [log_checking this multisig 2; EHttp req;
                 log_is this multisig (statusMessage (data r2)); EDelay 3000]).
    destruct (Hall (((h ++ t1) ++ t2) ++ [log_checking this multisig 3]))
      as (r3 & G3 & C3).
    pose (t3 := [log_checking this multisig 3; EHttp req;
                 log_is this multisig (statusMessage (data r3)); EDelay 3000]).
    exists (t1 ++ t2 ++ t3 ++ [log_exhausted this multisig]). split.
    + unfold isWalletReady1.
      rewrite (isWalletReady_waits multisig 1 w h r1); [|lia|exact G1|by right].
      fold req. fold t1. change (1 + 1) with 2.
      rewrite (isWalletReady_waits multisig 2 w (h ++ t1) r2);
        [|lia|exact G2|by right].
      fold req. fold t2. change (2 + 1) with 3.
      rewrite (isWalletReady_waits multisig 3 w ((h ++ t1) ++ t2) r3);
        [|lia|exact G3|by right].
      fold req. fold t3. change (3 + 1) with 4.
      rewrite isWalletReady_exhausted by lia.
      by rewrite <- !app_assoc.
    + unfold without_logs, t1, t2, t3. reflexivity.
  - intros retry r Hr Hg (N3 & N1 & N2 & Hs & Hm). cbv zeta.
    pose proof (isWalletReady_poll_run multisig retry w h) as Hpoll.
    cbv zeta in Hpoll. fold req in Hpoll. rewrite Hg in Hpoll.
    replace (statusCode (data r) =? WALLET_STATUS_READY) with false in Hpoll
      by (symmetry; by apply Z.eqb_neq).
    replace (statusCode (data r) =? WALLET_STATUS_CONNECTING) with false
      in Hpoll by (symmetry; by apply Z.eqb_neq).
    replace (statusCode (data r) =? WALLET_STATUS_SYNCING) with false
      in Hpoll by (symmetry; by apply Z.eqb_neq).
    rewrite Hs, Hm in Hpoll. simpl orb in Hpoll. simpl negb in Hpoll.
    rewrite bool_decide_eq_true_2 in Hpoll by done. simpl andb in Hpoll.
    cbv beta iota in Hpoll.
    destruct (post_start w _ (start_request this multisig)) as [e|s];
      rewrite (isWalletReady_unfold multisig retry);
      replace (retry >? 3) with false by lia;
      unfold bind at 1; rewrite Hpoll; rewrite <- app_assoc; reflexivity.
Qed.

(** C10, the wallet client's half: with [multisigOrder > 1] the call
    returns at once, with no effect and no error. *)
Lemma HathorWallet_sendTokensToHathor_skips
  (receiverAddress qtd tokenAddress txId : jsstring) (w : World) (h : history) :
  1 < multisigOrder this ->
  sendTokensToHathor this receiverAddress qtd tokenAddress txId w h
  = (h, inr tt).
Proof.
  intros Ho. unfold sendTokensToHathor.
  by replace (multisigOrder this >? 1) with true by lia.
Qed.

End WalletProperties.

(** C10. A federator whose [multisigOrder] is greater than 1 does nothing
    in [sendTokensToHathor], in the wallet client and in the service
    alike: the history is returned as it was (no readiness check, no
    proposal, no broadcast, no broker call) and nothing is thrown. *)
Theorem C10_sendTokensToHathor_skips (this : HathorWallet.HathorWallet)
  (chainConfig : HathorService.ConfigChain)
  (receiverAddress qtd tokenAddress txHash : jsstring)
  (w : World) (h : history) :
  (1 < HathorWallet.multisigOrder this ->
   HathorWallet.sendTokensToHathor this receiverAddress qtd tokenAddress txHash
     w h = (h, inr tt))
  /\ (1 < HathorService.multisigOrder chainConfig ->
      HathorService.sendTokensToHathor chainConfig receiverAddress qtd
        tokenAddress txHash w h = (h, inr tt)).
Proof.
  split.
  - apply HathorWallet_sendTokensToHathor_skips.
  - intros Ho. unfold HathorService.sendTokensToHathor.
    by replace (HathorService.multisigOrder chainConfig >? 1) with true by lia.
Qed.

Section WalletRuns.
Import HathorWallet WalletExamples.

Lemma scripted_reports (script : list StatusData) (req : httpRequest) :
  reports (scripted script) req [] (List.map ok script).
Proof.
  intros h' r Hl. simpl.
  change (List.map ok script) with (ok <$> script) in Hl.
  rewrite list_lookup_fmap in Hl.
  destruct (script !! polls req h') as [d|]; simpl in *; congruence.
Qed.

Lemma C8_wallet_readiness_witness :
  let req := status_request (wallet 1) true in
  (exists h',
     isWalletReady1 (wallet 1) true (scripted [SYNCING; SYNCING; READY]) []
     = ([] ++ h', inr (Some true))
     /\ without_logs h'
        = [EHttp req; EDelay 3000; EHttp req; EDelay 3000; EHttp req])
  /\ (exists h',
        isWalletReady1 (wallet 1) true (scripted []) []
        = ([] ++ h', inr (Some false))
        /\ without_logs h'
           = [EHttp req; EDelay 3000; EHttp req; EDelay 3000;
              EHttp req; EDelay 3000])
  /\ (looks_stopped STOPPED
      /\ isWalletReady (wallet 1) true 1 (scripted [STOPPED; READY]) []
         = isWalletReady (wallet 1) true 2 (scripted [STOPPED; READY])
             ([log_checking (wallet 1) true 1; EHttp req;
               log_stopped (wallet 1) true; log_starting (wallet 1) true;
               EHttp (start_request (wallet 1) true); EDelay 3000])).
Proof.
  intros req.
  assert (Hst : looks_stopped STOPPED) by (repeat split; discriminate).
  split; [|split].
  - destruct (C8_wallet_readiness (wallet 1) true
                (scripted [SYNCING; SYNCING; READY]) []) as (A & _ & _).
    apply (A (ok SYNCING) (ok SYNCING) (ok READY));
      [apply (scripted_reports [SYNCING; SYNCING; READY])
      | reflexivity | reflexivity | reflexivity].
  - destruct (C8_wallet_readiness (wallet 1) true (scripted []) [])
      as (_ & B & _).
    apply B. intros hh. exists (ok SYNCING). split; reflexivity.
  - split; [exact Hst|].
    destruct (C8_wallet_readiness (wallet 1) true
                (scripted [STOPPED; READY]) []) as (_ & _ & C).
    apply (C 1 (ok STOPPED)); [lia | reflexivity | exact Hst].
Defined.

Lemma C10_sendTokensToHathor_skips_witness :
  HathorWallet.sendTokensToHathor (wallet 2) (js "H8addr") (js "100")
    (js "0xtoken") (js "0xtx") (scripted [READY]) [] = ([], inr tt)
  /\ HathorService.sendTokensToHathor (ServiceExamples.config 2 2)
       (js "H8addr") (js "100") (js "0xtoken") (js "0xtx")
       (scripted [READY]) [] = ([], inr tt).
Proof.
  destruct (C10_sendTokensToHathor_skips (wallet 2)
              (ServiceExamples.config 2 2) (js "H8addr") (js "100")
              (js "0xtoken") (js "0xtx") (scripted [READY]) []) as [A B].
  split; [apply A | apply B]; simpl; lia.
Defined.

(** The first federator, by contrast, goes on to the broker. *)
Example sendTokensToHathor_first_federator :
  HathorService.sendTokensToHathor (ServiceExamples.config 1 2)
    (js "H8addr") (js "100") (js "0xtoken") (js "0xtx") (scripted [READY]) []
  = ([EBroker EvmBroker
        (SendTokensToHathor (js "H8addr") (js "100") (js "0xtoken")
           (js "0xtx"))], inr tt).
Proof. reflexivity. Qed.

End WalletRuns.

(** ** The payload codec *)

Section CodecProperties.
Import HathorWallet PayloadCodec.

Lemma substring_take_drop (a b : nat) (s : jsstring) :
  (a <= b)%nat -> substring a b s = take (b - a) (drop a s).
Proof.
  intros Hab. unfold substring. cbv zeta.
  destruct (decide (b <= length s)%nat) as [Hb|Hb].
  - rewrite (Nat.min_l a (length s)), (Nat.min_l b (length s)) by lia.
    by rewrite Nat.max_r, Nat.min_l by lia.
  - destruct (decide (a <= length s)%nat) as [Ha|Ha].
    + rewrite (Nat.min_l a (length s)), (Nat.min_r b (length s)) by lia.
      rewrite Nat.max_r, Nat.min_l by lia.
      rewrite !take_ge; [done| |]; rewrite length_drop; lia.
    + rewrite (Nat.min_r a (length s)), (Nat.min_r b (length s)) by lia.
      rewrite Nat.max_id, Nat.min_id, Nat.sub_diag.
      by rewrite (drop_ge s a), take_nil by lia.
Qed.

Lemma chunk_body_length (i : nat) (data : jsstring) :
  (length (substring (i * dataLimit) (i * dataLimit + dataLimit) data)
   <= dataLimit)%nat.
Proof.
  rewrite substring_take_drop by lia. rewrite length_take. lia.
Qed.

Lemma wrapData_loop_map (todo : nat) :
  forall (i arraySize : nat) (dataType data : jsstring) (outputs : list Output),
    wrapData_loop todo i arraySize dataType data outputs
    = outputs ++
      List.map (fun j =>
                  DataOutput (dataType ++ decimal j ++ decimal arraySize ++
                              substring (j * dataLimit)
                                (j * dataLimit + dataLimit) data))
               (seq i todo).
Proof.
  induction todo as [|todo IH]; intros i arraySize dataType data outputs.
  - simpl. by rewrite app_nil_r.
  - simpl. rewrite IH, <- app_assoc.
    by replace (i + 1)%nat with (S i) by lia.
Qed.

Lemma concat_chunks (n : nat) :
  forall (d : nat) (s : jsstring),
    (0 < d)%nat -> (length s <= n * d)%nat ->
    concat (List.map (fun i => take d (drop (i * d) s)) (seq 0 n)) = s.
Proof.
  induction n as [|n IH]; intros d s Hd Hlen.
  - simpl in *. destruct s; [done|simpl in Hlen; lia].
  - simpl seq. rewrite <- seq_shift. cbn [List.map concat].
    rewrite List.map_map. cbn [Nat.mul Nat.add drop].
    transitivity (take d s ++ drop d s); [|apply take_drop].
    f_equal.
    rewrite <- (IH d (drop d s)); [|done|rewrite length_drop; lia].
    f_equal. apply List.map_ext. intros i.
    by rewrite drop_drop.
Qed.

Lemma ceil_div_bounds (a b : nat) :
  (0 < b)%nat ->
  (a <= ceil_div a b * b < a + b)%nat.
Proof.
  intros Hb. unfold ceil_div.
  pose proof (Nat.div_mod_eq (a + (b - 1)) b) as E.
  pose proof (Nat.mod_upper_bound (a + (b - 1)) b) as U.
  nia.
Qed.

Lemma decimal_digit (d : nat) : (d < 10)%nat -> decimal d = [digit d].
Proof.
  intros Hd. unfold decimal, decimal_fuel.
  rewrite Nat.mod_small by lia.
  by replace (d <? 10)%nat with true by (symmetry; by apply Nat.ltb_lt).
Qed.

Lemma parse_digit_digit (d : nat) :
  (d < 10)%nat -> parse_digit (digit d) = Some d.
Proof.
  intros Hd. unfold parse_digit, digit.
  replace (48 <=? 48 + N.of_nat d)%N with true
    by (symmetry; apply N.leb_le; lia).
  replace (48 + N.of_nat d <=? 57)%N with true
    by (symmetry; apply N.leb_le; lia).
  simpl. f_equal. lia.
Qed.

Lemma startsWith_app (p rest : jsstring) : startsWith (p ++ rest) p = true.
Proof.
  unfold startsWith. apply bool_decide_eq_true_2, take_app_length.
Qed.

Lemma parse_chunk_wrapped (tag body : jsstring) (i k : nat) :
  (i < 10)%nat -> (k < 10)%nat ->
  parse_chunk (length tag) (tag ++ decimal i ++ decimal k ++ body)
  = Some (mkChunk i k body).
Proof.
  intros Hi Hk. unfold parse_chunk.
  rewrite drop_app_length, !decimal_digit by done. simpl.
  by rewrite !parse_digit_digit.
Qed.

Section Wrapped.
Variable tag : jsstring.
Variable k : nat.
Variable part : nat -> jsstring.
Hypothesis k_digit : (k < 10)%nat.

Let wrap (i : nat) : jsstring := tag ++ decimal i ++ decimal k ++ part i.
Let chunk_of (i : nat) : chunk := mkChunk i k (part i).

Lemma parse_all_wrapped (n : nat) :
  forall a : nat,
    (a + n <= 10)%nat ->
    parse_all (length tag) (List.map wrap (seq a n))
    = Some (List.map chunk_of (seq a n)).
Proof.
  induction n as [|n IH]; intros a Ha; [done|].
  simpl. unfold wrap at 1. rewrite parse_chunk_wrapped by lia.
  by rewrite IH by lia.
Qed.

Lemma sort_chunks_wrapped (n : nat) :
  forall a : nat,
    sort_chunks (List.map chunk_of (seq a n)) = List.map chunk_of (seq a n).
Proof.
  induction n as [|n IH]; intros a; [done|].
  unfold sort_chunks in *. simpl. rewrite IH.
  destruct n as [|n]; [done|]. simpl.
  by replace (a <? S a)%nat with true by (symmetry; apply Nat.ltb_lt; lia).
Qed.

Lemma no_index_missing_wrapped :
  no_index_missing (List.map chunk_of (seq 0 k)) = true.
Proof.
  unfold no_index_missing. apply forallb_forall. intros c Hc.
  apply in_map_iff in Hc as (i & <- & Hi). simpl.
  apply forallb_forall. intros j Hj. apply existsb_exists.
  exists (chunk_of j). split.
  - by apply in_map.
  - simpl. by apply Nat.eqb_eq.
Qed.

Lemma totals_agree_wrapped (n a : nat) :
  totals_agree (List.map chunk_of (seq a n)) = true.
Proof.
  unfold totals_agree. apply forallb_forall. intros c Hc.
  apply forallb_forall. intros d Hd.
  apply in_map_iff in Hc as (i & <- & _).
  apply in_map_iff in Hd as (j & <- & _). simpl.
  rewrite Nat.eqb_refl. apply orb_true_r.
Qed.

Lemma data_payloads_wrapped (outs : list jsstring) (a : jsstring) (v : Z) :
  data_payloads (List.map DataOutput outs ++ [AddressOutput a v]) = outs.
Proof.
  unfold data_payloads. induction outs as [|o outs IH]; [done|].
  cbn. f_equal. exact IH.
Qed.

Lemma filter_wrapped (n a : nat) :
  List.filter (fun p => startsWith p tag) (List.map wrap (seq a n))
  = List.map wrap (seq a n).
Proof.
  apply forallb_filter_id, forallb_forall. intros p Hp.
  apply in_map_iff in Hp as (i & <- & _). apply startsWith_app.
Qed.

Lemma decode_wrapped (a : jsstring) (v : Z) :
  decode (List.map DataOutput (List.map wrap (seq 0 k)) ++ [AddressOutput a v])
         tag
  = if (k =? 0)%nat then Absent
    else Payload (concat (List.map part (seq 0 k))).
Proof.
  unfold decode. rewrite data_payloads_wrapped, filter_wrapped.
  destruct (k =? 0)%nat eqn:Ek.
  - apply Nat.eqb_eq in Ek. by rewrite Ek.
  - apply Nat.eqb_neq in Ek.
    destruct (List.map wrap (seq 0 k)) as [|p ps] eqn:E.
    { apply (f_equal length) in E. rewrite length_map, length_seq in E.
      simpl in E. lia. }
    rewrite <- E.
    rewrite parse_all_wrapped by lia.
    rewrite no_index_missing_wrapped, totals_agree_wrapped. simpl andb.
    rewrite sort_chunks_wrapped, List.map_map. reflexivity.
Qed.

End Wrapped.

Lemma wrapData_run (this : HathorWallet) (dataType data txId : jsstring)
  (w : World) (h : history) :
  let req :=
    GET (walletUrl this ++ js "/wallet/address") (multisigWalletId this) in
  wrapData this dataType data txId w h
  = match get_address w h req with
    | inl e =>
        (h ++ [EHttp req], inl (Rethrown (js "Fail to getMultiSigAddress: ") e))
    | inr response =>
        if status response =? 200 then
          (h ++ [EHttp req],
           inr (wrapData_chunks dataType data ++
                [AddressOutput (address (Effects.data response)) 1]))
        else
          (h ++ [EHttp req],
           inl (Rethrown (js "Fail to getMultiSigAddress: ")
                  (JsError (number (status response) ++ js " - " ++
                            statusText response ++ js " | " ++
                            object_Object))))
    end.
Proof.
  intros req. unfold wrapData, getMultiSigAddress, try_catch, bind, perform.
  fold req. destruct (get_address w h req) as [e|response]; [done|].
  by destruct (status response =? 200).
Qed.

(** C2, as amended.  [wrapData] cuts the payload into
    [ceil(length / 145)] parts of at most 145 characters, whose
    concatenation is the payload, and wraps part [i] as
    [{dataType}{i}{arraySize}{part}], in order, followed by the output to
    the multisig address.  When the address lookup answers, the outputs
    are returned, and decoding them with the same tag gives back the
    payload provided it has between 1 and 1305 characters (one to nine
    parts: lengths 1, 145 and 146 included); the empty payload yields no
    data output and decodes as absent. *)
Theorem C2_chunks_round_trip (this : HathorWallet)
  (dataType data txId : jsstring) (w : World) (h : history) :
  let arraySize := ceil_div (length data) dataLimit in
  let part i := substring (i * dataLimit) (i * dataLimit + dataLimit) data in
  let req :=
    GET (walletUrl this ++ js "/wallet/address") (multisigWalletId this) in
  (dataLimit = 145%nat
   /\ (length data <= arraySize * 145 < length data + 145)%nat)
  /\ wrapData_chunks dataType data
     = List.map (fun i => DataOutput (dataType ++ decimal i ++
                                      decimal arraySize ++ part i))
                (seq 0 arraySize)
  /\ (forall i, (length (part i) <= 145)%nat)
  /\ concat (List.map part (seq 0 arraySize)) = data
  /\ (forall response : Response AddressData,
       get_address w h req = inr response ->
       status response = 200 ->
       exists outputs,
         wrapData this dataType data txId w h = (h ++ [EHttp req], inr outputs)
         /\ outputs = wrapData_chunks dataType data ++
                      [AddressOutput (address (Effects.data response)) 1]
         /\ ((1 <= length data <= 1305)%nat ->
             decode outputs dataType = Payload data)
         /\ (length data = 0%nat -> decode outputs dataType = Absent)).
Proof.
  intros arraySize part req.
  assert (Hk : (length data <= arraySize * 145 < length data + 145)%nat)
    by (apply (ceil_div_bounds (length data) 145); lia).
  assert (Hchunks : wrapData_chunks dataType data
     = List.map (fun i => DataOutput (dataType ++ decimal i ++
                                      decimal arraySize ++ part i))
                (seq 0 arraySize)).
  { unfold wrapData_chunks. cbv zeta. fold arraySize.
    by rewrite wrapData_loop_map. }
  assert (Hconcat : concat (List.map part (seq 0 arraySize)) = data).
  { transitivity
      (concat (List.map (fun i => take dataLimit (drop (i * dataLimit) data))
                        (seq 0 arraySize))).
    - f_equal. apply List.map_ext. intros i. unfold part.
      rewrite substring_take_drop by lia. f_equal. lia.
    - apply concat_chunks; unfold dataLimit; lia. }
  split; [done|]. split; [exact Hchunks|].
  split; [intros i; apply (chunk_body_length i data)|].
  split; [exact Hconcat|].
  intros response Hg Hs.
  eexists. split; [|split; [reflexivity|]].
  - rewrite wrapData_run. fold req. rewrite Hg, Hs. reflexivity.
  - rewrite Hchunks.
    rewrite <- (List.map_map
                  (fun i => dataType ++ decimal i ++ decimal arraySize ++ part i)
                  DataOutput).
    split.
    + intros Hlen. rewrite decode_wrapped by lia.
      replace (arraySize =? 0)%nat with false
        by (symmetry; apply Nat.eqb_neq; lia).
      by rewrite Hconcat.
    + intros Hlen. rewrite decode_wrapped by lia.
      by replace (arraySize =? 0)%nat with true
        by (symmetry; apply Nat.eqb_eq; lia).
Qed.

End CodecProperties.

Section CodecRuns.
Import HathorWallet PayloadCodec WalletExamples.

(** C2 as stated fails at the boundaries of the digit scheme.  The empty
    payload is cut into zero parts, so no data output is produced and the
    decoder finds nothing; a payload of 1306 characters takes ten parts,
    whose total ["10"] no longer fits the single digit the decoder reads:
    its second digit is taken for payload and ten characters are added. *)
Lemma C2_round_trip_fails :
  (wrapData (wallet 1) (js "hex") (js "") (js "0xtx") (scripted []) []
   = ([EHttp (GET (js "http://localhost:8000/wallet/address") (js "multi"))],
      inr [AddressOutput (js "multisig") 1])
   /\ decode [AddressOutput (js "multisig") 1] (js "hex") = Absent
   /\ decode [AddressOutput (js "multisig") 1] (js "hex") <> Payload (js ""))
  /\ (length (sample 1306) = 1306%nat
      /\ (exists s,
            decode (wrapData_chunks (js "hex") (sample 1306) ++
                    [AddressOutput (js "multisig") 1]) (js "hex") = Payload s
            /\ length s = 1316%nat)
      /\ decode (wrapData_chunks (js "hex") (sample 1306) ++
                 [AddressOutput (js "multisig") 1]) (js "hex")
         <> Payload (sample 1306)).
Proof.
  split; [split; [|split]|split; [|split]].
  - vm_compute. reflexivity.
  - vm_compute. reflexivity.
  - vm_compute. discriminate.
  - vm_compute. reflexivity.
  - eexists. split; vm_compute; reflexivity.
  - intros E.
    apply (f_equal (fun d => match d with
                             | Payload s => length s
                             | _ => 0%nat
                             end)) in E.
    vm_compute in E. discriminate.
Qed.

Lemma C2_chunks_round_trip_witness :
  (exists outputs,
     wrapData (wallet 1) (js "hex") (sample 146) (js "0xtx") (scripted []) []
     = ([] ++ [EHttp (GET (js "http://localhost:8000" ++ js "/wallet/address")
                          (js "multi"))], inr outputs)
     /\ length outputs = 3%nat
     /\ decode outputs (js "hex") = Payload (sample 146))
  /\ (exists outputs,
        wrapData (wallet 1) (js "sig") (sample 145) (js "") (scripted []) []
        = ([] ++ [EHttp (GET (js "http://localhost:8000" ++ js "/wallet/address")
                             (js "multi"))], inr outputs)
        /\ length outputs = 2%nat
        /\ decode outputs (js "sig") = Payload (sample 145)).
Proof.
  split.
  - destruct (C2_chunks_round_trip (wallet 1) (js "hex") (sample 146)
                (js "0xtx") (scripted []) []) as (_ & _ & _ & _ & R).
    destruct (R (ok (mkAddress (js "multisig"))) eq_refl eq_refl)
      as (outputs & Hw & Ho & Hd & _).
    exists outputs. split; [exact Hw|]. split.
    + rewrite Ho. vm_compute. reflexivity.
    + apply Hd. vm_compute. lia.
  - destruct (C2_chunks_round_trip (wallet 1) (js "sig") (sample 145)
                (js "") (scripted []) []) as (_ & _ & _ & _ & R).
    destruct (R (ok (mkAddress (js "multisig"))) eq_refl eq_refl)
      as (outputs & Hw & Ho & Hd & _).
    exists outputs. split; [exact Hw|]. split.
    + rewrite Ho. vm_compute. reflexivity.
    + apply Hd. vm_compute. lia.
Defined.

End CodecRuns.

(* ===================================================================== *)
(** * Part III: further properties of the code *)
(* ===================================================================== *)

(** ** The ledger: membership *)

Section LedgerMembership.
Import HathorTransactions LedgerFacts.
Context `{Keccak}.

Lemma removeMember_loop_length (ms : list address) (x old : address) :
  length (removeMember_loop ms x old) = length ms.
Proof.
  induction ms as [|a [|b ms] IH]; [done|done|].
  change (removeMember_loop (a :: b :: ms) x old)
    with (if bool_decide (a = old) then x :: b :: ms
          else a :: removeMember_loop (b :: ms) x old).
  case_bool_decide; [done|]. simpl in *. by rewrite IH.
Qed.

Lemma removeMember_loop_cons (a : address) (ms : list address)
  (x old : address) :
  ms <> [] ->
  removeMember_loop (a :: ms) x old
  = if bool_decide (a = old) then x :: ms
    else a :: removeMember_loop ms x old.
Proof. by destruct ms. Qed.

(** What the loop and the [pop] of [removeMember] leave of an array
    without duplicates that holds [old]. *)
Lemma removeMember_array (pre : list address) (l old : address) :
  NoDup (pre ++ [l]) ->
  old ∈ pre ++ [l] ->
  let r := removelast (removeMember_loop (pre ++ [l]) l old) in
  NoDup r
  /\ (forall a, a ∈ r <-> a ∈ pre ++ [l] /\ a <> old)
  /\ length r = length pre.
Proof.
  induction pre as [|a p IH]; intros Hnd Hin.
  - simpl. apply list_elem_of_singleton in Hin as ->.
    split; [apply NoDup_nil_2|]. split; [|done].
    intros x. split.
    + by intros ?%elem_of_nil.
    + intros [->%list_elem_of_singleton ?]. done.
  - cbv zeta. rewrite <- app_comm_cons.
    rewrite removeMember_loop_cons by (by destruct p).
    rewrite <- app_comm_cons in Hnd. apply NoDup_cons in Hnd as [Ha Hnd].
    case_bool_decide as Eq.
    + subst a.
      change (l :: p ++ [l]) with ((l :: p) ++ [l]).
      rewrite removelast_last.
      apply NoDup_app in Hnd as (Hp & Hl & _).
      split; [|split; [|done]].
      * apply NoDup_cons. split; [|done].
        intros Hlp. apply (Hl l Hlp). by apply list_elem_of_singleton.
      * intros x. split.
        -- intros Hx. split.
           ++ apply elem_of_cons in Hx as [->|Hx].
              ** apply elem_of_cons. right. apply elem_of_app. right.
                 by apply list_elem_of_singleton.
              ** apply elem_of_cons. right. apply elem_of_app. by left.
           ++ intros ->. apply Ha. apply elem_of_cons in Hx as [->|Hx].
              ** apply elem_of_app. right. by apply list_elem_of_singleton.
              ** apply elem_of_app. by left.
        -- intros [Hx Hne]. apply elem_of_cons in Hx as [->|Hx]; [done|].
           apply elem_of_app in Hx as [Hx|Hx].
           ++ apply elem_of_cons. by right.
           ++ apply list_elem_of_singleton in Hx as ->.
              apply elem_of_cons. by left.
    + assert (Hin' : old ∈ p ++ [l]).
      { apply elem_of_cons in Hin as [->|Hin]; done. }
      destruct (IH Hnd Hin') as (N & M & L). cbv zeta in N, M, L.
      assert (Hne : removeMember_loop (p ++ [l]) l old <> []).
      { intros E. apply (f_equal length) in E.
        rewrite removeMember_loop_length, length_app in E. simpl in E. lia. }
      assert (Hrl : removelast (a :: removeMember_loop (p ++ [l]) l old)
                    = a :: removelast (removeMember_loop (p ++ [l]) l old)).
      { destruct (removeMember_loop (p ++ [l]) l old); done. }
      rewrite Hrl. split; [|split].
      * apply NoDup_cons. split; [|done].
        intros Hx. apply M in Hx as [Hx _]. done.
      * intros x. split.
        -- intros Hx. apply elem_of_cons in Hx as [->|Hx].
           ++ split; [apply elem_of_cons; by left|congruence].
           ++ apply M in Hx as [Hx Hne'].
              split; [apply elem_of_cons; by right|done].
        -- intros [Hx Hne']. apply elem_of_cons in Hx as [->|Hx].
           ++ apply elem_of_cons. by left.
           ++ apply elem_of_cons. right. apply M. done.
      * simpl. by rewrite L.
Qed.

Lemma initialize_loop_Ok (ms : list address) :
  forall st evs st' evs',
    initialize_loop st evs ms = Ok st' evs' tt ->
    NoDup ms
    /\ (forall a, a ∈ ms -> flag (isMember st) a = false)
    /\ (NULL_ADDRESS ∉ ms)
    /\ (forall a, flag (isMember st') a = true
                  <-> flag (isMember st) a = true \/ a ∈ ms)
    /\ members st' = members st
    /\ initialized st' = initialized st
    /\ owner st' = owner st
    /\ evs' = evs ++ List.map MemberAddition ms.
Proof.
  induction ms as [|m ms IH]; intros st evs st' evs' Hrun; simpl in Hrun.
  - inversion Hrun; subst. rewrite app_nil_r.
    split; [apply NoDup_nil_2|].
    split; [by intros a ?%elem_of_nil|].
    split; [by intros ?%elem_of_nil|].
    split; [|done].
    intros a. split; [by left|]. by intros [?|?%elem_of_nil].
  - destruct (negb (flag (isMember st) m)) eqn:Em; [|discriminate].
    case_bool_decide as Ez; [discriminate|]. simpl in Hrun.
    apply negb_true_iff in Em.
    apply IH in Hrun as (N & F & Z0 & M & Me & I & O & E). simpl in *.
    assert (Hm : m ∉ ms).
    { intros Hin. apply F in Hin. rewrite flag_insert in Hin.
      by rewrite bool_decide_eq_true_2 in Hin. }
    split; [by apply NoDup_cons|].
    split.
    { intros a [->|Ha]%elem_of_cons; [done|].
      specialize (F a Ha). rewrite flag_insert in F.
      by case_bool_decide. }
    split.
    { intros [Hz|Hz]%elem_of_cons; [by apply Ez|done]. }
    split.
    { intros a. rewrite M, flag_insert. split.
      - intros [Ha|Ha].
        + case_bool_decide; [subst; right; apply elem_of_cons; by left|by left].
        + right. apply elem_of_cons. by right.
      - intros [Ha|[->|Ha]%elem_of_cons].
        + left. by case_bool_decide.
        + left. by rewrite bool_decide_eq_true_2.
        + by right. }
    repeat (split; [done|]).
    rewrite E, <- app_assoc. done.
Qed.

Lemma initialize_loop_runs (ms : list address) :
  forall st evs,
    NoDup ms ->
    (forall a, a ∈ ms -> flag (isMember st) a = false) ->
    NULL_ADDRESS ∉ ms ->
    exists st' evs', initialize_loop st evs ms = Ok st' evs' tt.
Proof.
  induction ms as [|m ms IH]; intros st evs N F Z0; simpl; [by eauto|].
  apply NoDup_cons in N as [Hm N].
  rewrite F by (apply elem_of_cons; by left).
  rewrite bool_decide_eq_false_2.
  2: { intros ->. apply Z0, elem_of_cons. by left. }
  simpl. apply IH; [done| |].
  - intros a Ha. simpl. rewrite flag_insert.
    case_bool_decide; [congruence|]. apply F, elem_of_cons. by right.
  - intros Hz. apply Z0, elem_of_cons. by right.
Qed.

(** X1. On storage where no membership flag is set, [initialize] succeeds
    exactly when the contract is not yet initialized and the list has at
    most 50 entries, no duplicate and no null address; it then stores the
    list as given, sets the owner, marks exactly these addresses as
    members and emits one [MemberAddition] each, in order. *)
Theorem initialize_membership (st : state) (_members : list address)
  (owner_ : address) :
  (forall a, flag (isMember st) a = false) ->
  ((exists st' evs, initialize st _members owner_ = Ok st' evs tt)
   <-> initialized st = false
       /\ Z.of_nat (length _members) <= MAX_MEMBER_COUNT
       /\ NoDup _members
       /\ NULL_ADDRESS ∉ _members)
  /\ (forall st' evs,
        initialize st _members owner_ = Ok st' evs tt ->
        members st' = _members
        /\ members_consistent st'
        /\ initialized st' = true
        /\ owner st' = owner_
        /\ evs = List.map MemberAddition _members).
Proof.
  intros Hfresh. split.
  - unfold initialize. split.
    + intros (st' & evs & Hrun).
      destruct (initialized st); [discriminate|].
      destruct (_ <=? _) eqn:El; [|discriminate].
      apply initialize_loop_Ok in Hrun as (N & _ & Z0 & _).
      repeat split; try done. by apply Z.leb_le.
    + intros (-> & Hl & N & Z0).
      apply Z.leb_le in Hl. rewrite Hl.
      apply initialize_loop_runs; [done| |done].
      intros a _. simpl. apply Hfresh.
  - intros st' evs Hrun. unfold initialize in Hrun.
    destruct (initialized st); [discriminate|].
    destruct (_ <=? _); [|discriminate].
    apply initialize_loop_Ok in Hrun as (N & F & Z0 & M & Me & I & O & E).
    simpl in *.
    split; [done|]. split; [|done].
    unfold members_consistent. rewrite Me.
    split; [done|]. split; [|done].
    intros a. rewrite M. split.
    + intros [Ha|Ha]; [|done]. by rewrite Hfresh in Ha.
    + intros Ha. by right.
Qed.

(** What a call of [addMember] does. *)
Lemma addMember_run (st : state) (msg_sender _newMember : address) :
  ((exists st' evs, addMember st msg_sender _newMember = Ok st' evs tt)
   <-> msg_sender = owner st
       /\ _newMember <> NULL_ADDRESS
       /\ flag (isMember st) _newMember = false)
  /\ (forall st' evs,
        addMember st msg_sender _newMember = Ok st' evs tt ->
        members st' = members st ++ [_newMember]
        /\ evs = [MemberAddition _newMember]
        /\ bookkeeping st' = bookkeeping st
        /\ (members_consistent st -> members_consistent st')).
Proof.
  unfold addMember, onlyOwner. split.
  - split.
    + intros (st' & evs & Hrun).
      case_bool_decide; [|discriminate].
      case_bool_decide; [discriminate|].
      destruct (flag (isMember st) _newMember); [discriminate|]. done.
    + intros (-> & Hz & Hf).
      rewrite bool_decide_eq_true_2, bool_decide_eq_false_2, Hf by done.
      eauto.
  - intros st' evs Hrun.
    case_bool_decide; [|discriminate].
    case_bool_decide as Hz; [discriminate|].
    destruct (flag (isMember st) _newMember) eqn:Hf; [discriminate|].
    inversion Hrun; subst; clear Hrun. simpl.
    split; [done|]. split; [done|]. split; [done|].
    intros (N & M & Z0). split; [|split]; simpl.
    + apply NoDup_app. split; [done|]. split; [|apply NoDup_singleton].
      intros a Ha Hb. apply list_elem_of_singleton in Hb. subst a.
      apply M in Ha. congruence.
    + intros a. rewrite flag_insert, elem_of_app, list_elem_of_singleton.
      case_bool_decide.
      * subst. split; [by right|done].
      * rewrite M. split; [by left|]. intros [?|?]; [done|congruence].
    + intros [Ha|Ha]%elem_of_app; [done|].
      apply list_elem_of_singleton in Ha. congruence.
Qed.

(** X2. [addMember] succeeds exactly when the caller is the owner and the
    new address is neither null nor a member already; no bound on the
    number of members is checked.  It appends the address to [members]
    and keeps [members] and [isMember] consistent. *)
Theorem addMember_appends (st : state) (msg_sender _newMember : address) :
  ((exists st' evs, addMember st msg_sender _newMember = Ok st' evs tt)
   <-> msg_sender = owner st
       /\ _newMember <> NULL_ADDRESS
       /\ flag (isMember st) _newMember = false)
  /\ (forall st' evs,
        addMember st msg_sender _newMember = Ok st' evs tt ->
        members st' = members st ++ [_newMember]
        /\ evs = [MemberAddition _newMember]
        /\ bookkeeping st' = bookkeeping st
        /\ (members_consistent st -> members_consistent st')).
Proof. exact (addMember_run st msg_sender _newMember). Qed.

(** What a successful call of [removeMember] does. *)
Lemma removeMember_run (st st' : state)
  (msg_sender _oldMember : address) (evs : list event) (t : transfer) :
  members_consistent st ->
  removeMember st msg_sender _oldMember = Ok st' evs tt ->
  (forall a, a ∈ members st' <-> a ∈ members st /\ a <> _oldMember)
  /\ length (members st') = (length (members st) - 1)%nat
  /\ (1 <= length (members st'))%nat
  /\ members_consistent st'
  /\ bookkeeping st' = bookkeeping st
  /\ evs = [MemberRemoval _oldMember]
  /\ (exists reason, getTransactionId st' _oldMember t = Revert reason).
Proof.
  intros (N & M & Z0) Hrun. unfold removeMember, onlyOwner in Hrun.
  case_bool_decide; [|discriminate].
  case_bool_decide as Hz; [discriminate|].
  destruct (flag (isMember st) _oldMember) eqn:Hf; [|discriminate].
  destruct (1 <? _) eqn:Hl; [|discriminate]. simpl in Hrun.
  apply Z.ltb_lt in Hl.
  inversion Hrun; subst; clear Hrun. simpl.
  assert (Hne : members st <> []).
  { intros E. rewrite E in Hl. cbn [length] in Hl. lia. }
  pose proof (app_removelast_last NULL_ADDRESS Hne) as Hsplit.
  set (l := List.last (members st) NULL_ADDRESS) in *.
  set (R := removelast (removeMember_loop (members st) l _oldMember)).
  assert (HR : NoDup R
               /\ (forall a, a ∈ R <-> a ∈ members st /\ a <> _oldMember)
               /\ S (length R) = length (members st)).
  { pose proof (removeMember_array (removelast (members st)) l _oldMember)
      as P.
    cbv zeta in P. rewrite <- Hsplit in P.
    destruct P as (N' & M' & L'); [done|by apply M|].
    split; [done|]. split; [done|].
    unfold R. rewrite L'. rewrite Hsplit at 2. rewrite length_app. simpl. lia. }
  destruct HR as (N' & M' & L').
  split; [exact M'|]. split; [lia|]. split; [lia|].
  split.
  { split; [exact N'|]. split.
    - intros a. simpl. rewrite flag_insert, M'. case_bool_decide.
      + subst. split; [done|]. by intros [_ ?].
      + rewrite M. split; [by intros ?|by intros [? _]].
    - intros Hx. apply M' in Hx as [Hx _]. done. }
  split; [done|]. split; [done|].
  unfold getTransactionId, onlyMember. simpl.
  rewrite flag_insert, bool_decide_eq_true_2 by done. eauto.
Qed.

(** X3. A successful [removeMember] on consistent storage removes exactly
    [_oldMember]: the other members stay (their order may change: the
    last one takes the freed slot), the array shrinks by one and keeps at
    least one member, the storage stays consistent, and the removed
    address is refused by the member-only entry points. *)
Theorem removeMember_removes (st st' : state)
  (msg_sender _oldMember : address) (evs : list event) (t : transfer) :
  members_consistent st ->
  removeMember st msg_sender _oldMember = Ok st' evs tt ->
  (forall a, a ∈ members st' <-> a ∈ members st /\ a <> _oldMember)
  /\ length (members st') = (length (members st) - 1)%nat
  /\ (1 <= length (members st'))%nat
  /\ members_consistent st'
  /\ bookkeeping st' = bookkeeping st
  /\ evs = [MemberRemoval _oldMember]
  /\ (exists reason, getTransactionId st' _oldMember t = Revert reason).
Proof. exact (removeMember_run st st' msg_sender _oldMember evs t). Qed.

Lemma initialize_loop_bookkeeping (ms : list address) :
  forall st evs st' evs',
    initialize_loop st evs ms = Ok st' evs' tt ->
    bookkeeping st' = bookkeeping st.
Proof.
  induction ms as [|m ms IH]; intros st evs st' evs' Hrun; simpl in Hrun.
  - by inversion Hrun.
  - destruct (negb (flag (isMember st) m)
              && negb (bool_decide (m = NULL_ADDRESS))); [|discriminate].
    by apply IH in Hrun.
Qed.

(** X4. On an initialized contract whose [members] and [isMember] are
    consistent, every sequence of transactions, by any callers, keeps them
    consistent, and a federation with at least one member never becomes
    empty (inherited functions are assumed not to clear the [initialized]
    mark). *)
Theorem membership_invariant (st : state) (txs : list (address * call)) :
  initialized st = true ->
  members_consistent st ->
  Forall keeps_initialized txs ->
  initialized (run st txs) = true
  /\ members_consistent (run st txs)
  /\ ((1 <= length (members st))%nat ->
      (1 <= length (members (run st txs)))%nat).
Proof.
  revert st. induction txs as [|[a c] txs IH]; intros st Hi Hc Hk; [done|].
  apply Forall_cons in Hk as [Hk1 Hk].
  assert (Hstep : initialized (step st (a, c)) = true
                  /\ members_consistent (step st (a, c))
                  /\ ((1 <= length (members st))%nat ->
                      (1 <= length (members (step st (a, c))))%nat)).
  { unfold step. simpl fst. simpl snd.
    destruct (execute st a c) as [|st' evs []] eqn:E; [done|].
    destruct c; simpl in E.
    - unfold initialize in E. by rewrite Hi in E.
    - unfold getTransactionId, forget in E.
      destruct (onlyMember _ _ _) eqn:E'; [discriminate|].
      apply onlyMember_Ok in E' as [_ E']. inversion E'; inversion E; by subst.
    - apply onlyMember_Ok in E as [_ E]. cbv zeta in E.
      destruct (negb _); [|discriminate]. by inversion E; subst.
    - apply onlyMember_Ok in E as [_ E]. cbv zeta in E.
      destruct (negb _); [|discriminate]. by inversion E; subst.
    - apply onlyMember_Ok in E as [_ E]. cbv zeta in E.
      destruct (negb _); [|discriminate]. by inversion E; subst.
    - destruct (addMember_run st a _newMember) as [_ P].
      destruct (P _ _ E) as (Hm & _ & _ & Hcons).
      split; [|split; [by apply Hcons|]].
      + apply onlyOwner_Ok in E.
        case_bool_decide; [discriminate|].
        destruct (flag (isMember st) _newMember); [discriminate|].
        by inversion E; subst.
      + intros _. rewrite Hm, length_app. simpl. lia.
    - destruct (removeMember_run st st' a _oldMember evs
                  (mkTransfer 0 0 0 0 0 MELT) Hc E)
        as (_ & _ & Hl & Hcons & _).
      split; [|split; [done|by intros _]].
      apply onlyOwner_Ok in E.
      case_bool_decide; [discriminate|].
      destruct (negb (flag _ _)); [discriminate|].
      destruct (negb (1 <? _)); [discriminate|].
      by inversion E; subst.
    - by inversion E; subst.
    - unfold inherited in E.
      destruct (body a (initialized st) (owner st)) as [[i o]|] eqn:Eb;
        [|discriminate].
      inversion E; subst. simpl. split; [|done].
      rewrite Hi in Eb. by apply (Hk1 a (owner st) i o). }
  destruct Hstep as (Hi' & Hc' & Hl').
  destruct (IH (step st (a, c)) Hi' Hc' Hk) as (I & C & L).
  simpl. split; [done|]. split; [done|]. auto.
Qed.

(** Transactions that leave the proposal mappings alone. *)
Lemma bookkeeping_outside (st : state) (a : address) (c : call) :
  flag (isMember st) a = false \/ is_bookkeeping_call c = false ->
  bookkeeping (step st (a, c)) = bookkeeping st.
Proof.
  intros Hor. unfold step. simpl fst. simpl snd.
  destruct (execute st a c) as [|st' evs []] eqn:E; [done|].
  destruct c; simpl in E, Hor.
  - unfold initialize in E.
    destruct (initialized st); [discriminate|].
    destruct (_ <=? _); [|discriminate].
    by apply initialize_loop_bookkeeping in E.
  - unfold getTransactionId, forget in E.
    destruct (onlyMember _ _ _) eqn:E'; [discriminate|].
    apply onlyMember_Ok in E' as [_ E']. inversion E'; inversion E; by subst.
  - apply onlyMember_Ok in E as [Hm _]. destruct Hor; congruence.
  - apply onlyMember_Ok in E as [Hm _]. destruct Hor; congruence.
  - apply onlyMember_Ok in E as [Hm _]. destruct Hor; congruence.
  - by destruct (addMember_run st a _newMember) as [_ P];
      destruct (P _ _ E) as (_ & _ & Hb & _).
  - apply onlyOwner_Ok in E.
    case_bool_decide; [discriminate|].
    destruct (negb (flag _ _)); [discriminate|].
    destruct (negb (1 <? _)); [discriminate|].
    by inversion E; subst.
  - by inversion E; subst.
  - unfold inherited in E.
    destruct (body a (initialized st) (owner st)) as [[i o]|]; [|discriminate].
    by inversion E; subst.
Qed.

(** X5. The proposal bookkeeping ([isSigned], [isProcessed],
    [isProposed], [transactionHex], [transactionSignatures]) is changed
    by nothing but [sendTransactionProposal], [updateSignatureState] and
    [updateTransactionState] called by a member: a transaction from a
    non-member, and every other function whoever calls it, leaves all
    five mappings as they were. *)
Theorem bookkeeping_needs_member (st : state) (a : address) (c : call) :
  flag (isMember st) a = false \/ is_bookkeeping_call c = false ->
  bookkeeping (step st (a, c)) = bookkeeping st.
Proof. exact (bookkeeping_outside st a c). Qed.

End LedgerMembership.

(** ** The ledger: proposals and signatures *)

Section LedgerBookkeeping.
Import HathorTransactions LedgerFacts.
Context `{Keccak}.

Lemma step_transactionHex (st : state) (tx : address * call) (id : bytes32) :
  flag (isProposed st) id = true ->
  transactionHex (step st tx) !! id = transactionHex st !! id.
Proof.
  intros Hp. destruct tx as [a c].
  destruct (is_bookkeeping_call c) eqn:Ec.
  - destruct c; try discriminate; unfold step; simpl.
    + unfold sendTransactionProposal, onlyMember. cbv zeta.
      fold (packed t). fold (transactionId t).
      destruct (flag (isMember st) a); [|done].
      destruct (flag (isProposed st) (transactionId t)) eqn:Ef; [done|].
      simpl. apply lookup_insert_ne. congruence.
    + unfold updateSignatureState, onlyMember. cbv zeta.
      destruct (flag (isMember st) a); [|done].
      by destruct (negb _).
    + unfold updateTransactionState, onlyMember. cbv zeta.
      destruct (flag (isMember st) a); [|done].
      by destruct (negb _).
  - pose proof (bookkeeping_outside st a c (or_intror Ec)) as Hb.
    apply (f_equal (fun p => p.1.2)) in Hb. simpl in Hb. by rewrite Hb.
Qed.

(** X6. The hex of the first successful proposal for an identifier is the
    one the ledger keeps: whatever transactions follow, by whomever,
    [transactionHex] of that identifier stays the hex that was proposed. *)
Theorem proposal_hex_is_final (st : state) (member : address) (t : transfer)
  (txHex : bytes) (txs : list (address * call)) :
  succeeds st (member, SendTransactionProposal t txHex) = true ->
  transactionHex
    (run (step st (member, SendTransactionProposal t txHex)) txs)
    !! transactionId t = Some txHex.
Proof.
  intros Hs.
  pose proof (sendTransactionProposal_sets st member t txHex Hs) as Hp.
  assert (Hh : transactionHex (step st (member, SendTransactionProposal t txHex))
               !! transactionId t = Some txHex).
  { revert Hs. unfold succeeds, step. simpl.
    unfold sendTransactionProposal, onlyMember. cbv zeta.
    fold (packed t). fold (transactionId t).
    destruct (flag (isMember st) member); [|done].
    destruct (negb _); [|done]. intros _. simpl.
    apply lookup_insert_eq. }
  revert Hp Hh.
  generalize (step st (member, SendTransactionProposal t txHex)).
  induction txs as [|tx txs IH]; intros s Hp Hh; [done|].
  simpl. apply IH.
  - by apply step_flags.
  - by rewrite step_transactionHex.
Qed.

Lemma step_signatures (st : state) (tx : address * call) (id : bytes32) :
  sigs_of st id `prefix_of` sigs_of (step st tx) id.
Proof.
  destruct tx as [a c].
  destruct (is_bookkeeping_call c) eqn:Ec.
  - destruct c; try discriminate; unfold step; simpl.
    + unfold sendTransactionProposal, onlyMember. cbv zeta.
      destruct (flag (isMember st) a); [|done].
      by destruct (negb _).
    + unfold updateSignatureState, onlyMember. cbv zeta.
      fold (packed t). fold (transactionId t).
      destruct (flag (isMember st) a); [|done].
      destruct (negb _); [|done]. simpl.
      unfold sigs_of at 2. simpl.
      destruct (decide (transactionId t = id)) as [<-|Hne].
      * rewrite lookup_insert_eq. simpl. by apply prefix_app_r.
      * by rewrite lookup_insert_ne.
    + unfold updateTransactionState, onlyMember. cbv zeta.
      destruct (flag (isMember st) a); [|done].
      by destruct (negb _).
  - pose proof (bookkeeping_outside st a c (or_intror Ec)) as Hb.
    apply (f_equal (fun p => p.2)) in Hb. simpl in Hb.
    unfold sigs_of. by rewrite Hb.
Qed.

(** X7. Stored signatures are never removed or reordered: across any
    transactions the list kept for an identifier only grows at its end,
    and each successful [updateSignatureState] adds exactly the signature
    it was given. *)
Theorem signatures_append_only (st : state) (txs : list (address * call))
  (id : bytes32) (member : address) (t : transfer) (signature : bytes)
  (signed : bool) :
  sigs_of st id `prefix_of` sigs_of (run st txs) id
  /\ (succeeds st (member, UpdateSignatureState t signature signed) = true ->
      sigs_of (step st (member, UpdateSignatureState t signature signed))
              (transactionId t)
      = sigs_of st (transactionId t) ++ [signature]).
Proof.
  split.
  - revert st. induction txs as [|tx txs IH]; intros st; [done|].
    simpl. etrans; [apply step_signatures|apply IH].
  - unfold succeeds, step. simpl.
    unfold updateSignatureState, onlyMember. cbv zeta.
    fold (packed t). fold (transactionId t).
    destruct (flag (isMember st) member); [|done].
    destruct (negb _); [|done]. intros _. simpl.
    unfold sigs_of at 1. simpl. by rewrite lookup_insert_eq.
Qed.

(** X8. A member whose [isSigned] flag for an identifier is not set can
    store as many signatures for it as it likes by passing
    [signed = false]: [n] such calls in a row all succeed, add [n]
    signatures and leave the flag unset. *)
Theorem unsigned_calls_accumulate (n : nat) :
  forall (st : state) (member : address) (t : transfer) (signature : bytes),
    flag (isMember st) member = true ->
    flag (isSigned st) (transactionId t, member) = false ->
    let st' :=
      run st (replicate n (member, UpdateSignatureState t signature false)) in
    sigs_of st' (transactionId t)
    = sigs_of st (transactionId t) ++ replicate n signature
    /\ flag (isSigned st') (transactionId t, member) = false
    /\ flag (isMember st') member = true.
Proof.
  induction n as [|n IH]; intros st member t signature Hm Hs.
  - simpl. by rewrite app_nil_r.
  - cbv zeta. simpl replicate. simpl run.
    set (st1 := step st (member, UpdateSignatureState t signature false)).
    assert (E : st1 = push_signature
                        (set_isSigned st (transactionId t) member false)
                        (transactionId t) signature).
    { unfold st1, step. simpl.
      unfold updateSignatureState, onlyMember. cbv zeta.
      fold (packed t). fold (transactionId t). by rewrite Hm, Hs. }
    assert (Hm1 : flag (isMember st1) member = true) by (by rewrite E).
    assert (Hs1 : flag (isSigned st1) (transactionId t, member) = false).
    { rewrite E. simpl. rewrite flag_insert.
      by rewrite bool_decide_eq_true_2. }
    destruct (IH st1 member t signature Hm1 Hs1) as (S1 & F1 & M1).
    cbv zeta in S1, F1, M1.
    split; [|done]. rewrite S1.
    replace (sigs_of st1 (transactionId t))
      with (sigs_of st (transactionId t) ++ [signature]).
    + by rewrite <- app_assoc.
    + rewrite E. unfold sigs_of at 2. simpl. by rewrite lookup_insert_eq.
Qed.

End LedgerBookkeeping.

(** ** The event coordinator: every branch, every outcome *)

Section ServiceBranches.
Import HathorService ServiceFacts.
Context `{HathorTxMethods}.
Variable chainConfig : ConfigChain.

Lemma unsettled_ret {A} (a : A) : unsettled (ret a).
Proof. intros w h. exists []. by rewrite app_nil_r. Qed.

Lemma unsettled_throw {A} (e : error) : unsettled (throw (A := A) e).
Proof. intros w h. exists []. by rewrite app_nil_r. Qed.

Lemma unsettled_perform {A} (e : effect)
  (answer : World -> history -> error + A) :
  is_settle e = false -> unsettled (perform e answer).
Proof. intros He w h. exists [e]. simpl. by rewrite He. Qed.

Lemma unsettled_emit (e : effect) : is_settle e = false -> unsettled (emit e).
Proof. intros He w h. exists [e]. simpl. by rewrite He. Qed.

Lemma unsettled_bind {A B} (m : M A) (k : A -> M B) :
  unsettled m -> (forall a, unsettled (k a)) -> unsettled (bind m k).
Proof.
  intros Hm Hk w h. unfold bind.
  destruct (Hm w h) as (t & Et & Qt).
  destruct (m w h) as [h1 [e|a]]; simpl in Et; subst h1.
  - by exists t.
  - destruct (Hk a w (h ++ t)) as (t' & Et' & Qt').
    exists (t ++ t'). rewrite Et', <- app_assoc. split; [done|].
    rewrite forallb_app. by rewrite Qt, Qt'.
Qed.

Lemma unsettled_destructure_broker (tx : HathorTx) :
  unsettled (destructure_broker tx).
Proof.
  unfold destructure_broker.
  destruct (getBrokerAndDataType tx);
    [apply unsettled_ret|apply unsettled_throw].
Qed.

Lemma unsettled_parseHathorLogs (event : Event) :
  unsettled (parseHathorLogs chainConfig event).
Proof.
  unfold parseHathorLogs.
  destruct (negb _); [apply unsettled_ret|]. cbv zeta.
  destruct (haveCustomData _ _).
  { unfold evaluateProposal.
    apply unsettled_bind; [by apply unsettled_emit|intros _].
    apply unsettled_bind; [apply unsettled_destructure_broker|intros [b d]].
    apply unsettled_bind; [by apply unsettled_perform|intros c].
    destruct (negb c); [apply unsettled_ret|].
    apply unsettled_bind; [by apply unsettled_perform|intros _].
    apply unsettled_ret. }
  destruct (_ && _).
  { unfold evaluateSignature.
    apply unsettled_bind; [by apply unsettled_emit|intros _].
    apply unsettled_bind; [apply unsettled_destructure_broker|intros [b d]].
    apply unsettled_bind; [by apply unsettled_perform|intros c].
    destruct (negb c); [apply unsettled_ret|].
    apply unsettled_bind; [by apply unsettled_perform|intros comps].
    destruct (_ <? _).
    - apply unsettled_bind; [by apply unsettled_emit|intros _].
      apply unsettled_ret.
    - apply unsettled_bind; [by apply unsettled_perform|intros _].
      apply unsettled_ret. }
  destruct (haveCustomData _ _); [|apply unsettled_ret].
  unfold evaluateHathorToEvm.
  apply unsettled_bind; [by apply unsettled_perform|intros c].
  destruct (negb c); [apply unsettled_ret|].
  destruct (head _); [|apply unsettled_throw].
  apply unsettled_bind; [by apply unsettled_perform|intros r].
  destruct (negb r); [apply unsettled_throw|apply unsettled_ret].
Qed.

(** X9. The handler settles a message at most once, and says when not at
    all.  Whatever the message, the transaction, the configuration and the
    answers of the brokers, none of the effects the handler adds before
    its last step is an [ack] or a [nack].  Either it returns after one
    final [ack] or [nack]; or processing raised a [HathorException]
    without original message, and the handler fails with a [TypeError]
    after the log, leaving the message unsettled. *)
Theorem onMessage_settles_at_most_once (message : Message) (w : World)
  (h : history) :
  exists t : history,
    List.filter is_settle t = []
    /\ ((exists s : effect,
           onMessage chainConfig message w h = (h ++ t ++ [s], inr tt)
           /\ (s = EAck \/ s = ENack))
        \/ (exists (h' : history) (m : jsstring),
              received chainConfig message w h
              = (h', inl (HathorException m None))
              /\ onMessage chainConfig message w h
                 = (h ++ t, inl match_of_undefined))).
Proof.
  assert (Hrecv : unsettled (received chainConfig message)).
  { unfold received. apply unsettled_bind.
    - destruct (payload message); [apply unsettled_throw|apply unsettled_ret].
    - intros event. apply unsettled_parseHathorLogs. }
  assert (Hnone : forall t : history,
            forallb (fun e => negb (is_settle e)) t = true ->
            List.filter is_settle t = []).
  { intros t. induction t as [|e t IH]; [done|]. simpl.
    destruct (is_settle e); [done|]. simpl. exact IH. }
  rewrite onMessage_spec.
  destruct (Hrecv w h) as (t & Et & Qt).
  destruct (received chainConfig message w h) as [h' [e|response]];
    simpl in Et; subst h'.
  - exists (t ++ [ELog Err (js "Fail to processing hathor event: ") (Some e)]).
    split; [rewrite List.filter_app, Hnone by done; reflexivity|].
    destruct (lacks_original e) eqn:El.
    + right. destruct e as [m [orig|]|m|p c|r]; try discriminate.
      exists (h ++ t), m. split; [reflexivity|]. by rewrite <- app_assoc.
    + left. exists (if nonRetriable e then EAck else ENack).
      split; [by rewrite <- !app_assoc|].
      destruct (nonRetriable e); auto.
  - exists t. split; [by apply Hnone|].
    left. exists (if truthy response then EAck else ENack).
    split; [by rewrite <- app_assoc|].
    destruct (truthy response); auto.
Qed.

(** The three branch bodies, answer by answer. *)
Lemma evaluateProposal_run (tx : HathorTx) (w : World) (h : history) :
  let h1 := h ++ [ELog Info (js "Evaluating proposal...") None] in
  evaluateProposal tx w h =
  match getBrokerAndDataType tx with
  | None => (h1, inl (TypeError "undefined is not iterable"))
  | Some (b, d) =>
      let h2 := h1 ++ [EBroker b (IsTxConfirmed (tx_id tx))] in
      let send := SendMySignaturesToProposal (getCustomData tx (js "hex"))
                    (getCustomData tx d) in
      match isTxConfirmed_ w h1 b (tx_id tx) with
      | inl e => (h2, inl e)
      | inr false => (h2, inr (Some false))
      | inr true =>
          (h2 ++ [EBroker b send],
           match sendMySignaturesToProposal_ w h2 b
                   (getCustomData tx (js "hex")) (getCustomData tx d) with
           | inl e => inl e
           | inr _ => inr (Some true)
           end)
      end
  end.
Proof.
  intros h1. unfold evaluateProposal, destructure_broker.
  destruct (getBrokerAndDataType tx) as [[b d]|]; [|reflexivity].
  unfold bind, ret, log_info, isTxConfirmed, sendMySignaturesToProposal,
    perform, emit. fold h1.
  destruct (isTxConfirmed_ w h1 b (tx_id tx)) as [e|[|]];
    cbn [negb]; cbv beta iota zeta; try reflexivity.
  by destruct (sendMySignaturesToProposal_ w _ b _ _).
Qed.

Lemma evaluateSignature_run (tx : HathorTx) (w : World) (h : history) :
  let h1 := h ++ [ELog Info (js "Evaluating signature...") None] in
  evaluateSignature chainConfig tx w h =
  match getBrokerAndDataType tx with
  | None => (h1, inl (TypeError "undefined is not iterable"))
  | Some (b, d) =>
      let txId := getCustomData tx d in
      let h2 := h1 ++ [EBroker b (IsTxConfirmed (tx_id tx))] in
      let h3 := h2 ++ [EBroker b (GetSignaturesToPush txId)] in
      match isTxConfirmed_ w h1 b (tx_id tx) with
      | inl e => (h2, inl e)
      | inr false => (h2, inr (Some false))
      | inr true =>
          match getSignaturesToPush_ w h2 b txId with
          | inl e => (h3, inl e)
          | inr components =>
              if Z.of_nat (length (signatures components))
                 <? multisigRequiredSignatures chainConfig
              then
                (h3 ++
                 [ELog Info
                    (js "Number of signatures not reached. Require " ++
                     number (multisigRequiredSignatures chainConfig) ++
                     js " signatures, have " ++
                     number (Z.of_nat (length (signatures components))))
                    None], inr (Some false))
              else
                (h3 ++
                 [EBroker b
                    (SignAndPushProposal (hex components) txId
                       (signatures components))],
                 match signAndPushProposal_ w h3 b (hex components) txId
                         (signatures components) with
                 | inl e => inl e
                 | inr _ => inr (Some true)
                 end)
          end
      end
  end.
Proof.
  intros h1. unfold evaluateSignature, destructure_broker.
  destruct (getBrokerAndDataType tx) as [[b d]|]; [|reflexivity].
  unfold bind, ret, log_info, isTxConfirmed, getSignaturesToPush,
    signAndPushProposal, perform, emit. fold h1.
  destruct (isTxConfirmed_ w h1 b (tx_id tx)) as [e|[|]];
    cbn [negb]; cbv beta iota zeta; try reflexivity.
  destruct (getSignaturesToPush_ w _ b _) as [e|c];
    cbv beta iota; try reflexivity.
  destruct (_ <? _); cbv beta iota; [reflexivity|].
  by destruct (signAndPushProposal_ w _ b (hex c) _ (signatures c)).
Qed.

Lemma evaluateHathorToEvm_run (tx : HathorTx) (w : World) (h : history) :
  let h1 := h ++ [EBroker HathorBroker (IsTxConfirmed (tx_id tx))] in
  evaluateHathorToEvm tx w h =
  match isTxConfirmed_ w h HathorBroker (tx_id tx) with
  | inl e => (h1, inl e)
  | inr false => (h1, inr (Some false))
  | inr true =>
      match head (getCustomTokenData tx) with
      | None => (h1, inl (TypeError "Cannot read properties of undefined"))
      | Some tokenData =>
          (h1 ++
           [EBroker HathorBroker
              (SendTokensFromHathor (getCustomData tx (js "addr"))
                 (token_value tokenData) (token_token tokenData) (tx_id tx)
                 (token_sender tokenData) (timestamp tx))],
           match sendTokensFromHathor_ w h1 (getCustomData tx (js "addr"))
                   (token_value tokenData) (token_token tokenData) (tx_id tx)
                   (token_sender tokenData) (timestamp tx) with
           | inl e => inl e
           | inr false =>
               inl (HathorException (js "Invalid tx") (Some (js "Invalid tx")))
           | inr true => inr (Some true)
           end)
      end
  end.
Proof.
  intros h1. unfold evaluateHathorToEvm.
  unfold bind, ret, throw, isTxConfirmed, sendTokensFromHathor, perform.
  fold h1.
  destruct (isTxConfirmed_ w h HathorBroker (tx_id tx)) as [e|[|]];
    cbn [negb]; cbv beta iota zeta; try reflexivity.
  destruct (head (getCustomTokenData tx)) as [td|]; [|reflexivity].
  by destruct (sendTokensFromHathor_ w h1 _ _ _ _ _ _) as [e|[|]].
Qed.

Lemma nonRetriable_Invalid_tx :
  nonRetriable (HathorException (js "Invalid tx") (Some (js "Invalid tx")))
  = true.
Proof. vm_compute. reflexivity. Qed.

Lemma lacks_original_TypeError (text : string) :
  lacks_original (TypeError text) = false.
Proof. reflexivity. Qed.

Lemma nonRetriable_TypeError (text : string) :
  nonRetriable (TypeError text) = false.
Proof. reflexivity. Qed.

(** X10. An inbound transfer (the [addr] branch).  An unconfirmed
    transaction is nacked with no push.  A confirmed one is pushed once
    with the first custom token entry; when the push returns true the
    message is acked; when it returns false the handler raises
    [HathorException('Invalid tx', 'Invalid tx')], which matches the
    non-retriable pattern [/Invalid tx/], so the message is acked as well
    and the failed transfer is not redelivered.  A confirmed transaction
    without token data is nacked without a push. *)
Theorem inbound_transfer_outcomes (event : Event) (w : World) (h : history) :
  let tx := tx_of event in
  let message := mkMessage (inr event) in
  let h1 := h ++ [EBroker HathorBroker (IsTxConfirmed (tx_id tx))] in
  type event = js "wallet:new-tx" ->
  haveCustomData tx (js "hex") = false ->
  haveCustomData tx (js "sig") = false
  \/ multisigOrder chainConfig < multisigRequiredSignatures chainConfig ->
  haveCustomData tx (js "addr") = true ->
  (isTxConfirmed_ w h HathorBroker (tx_id tx) = inr false ->
   onMessage chainConfig message w h = (h1 ++ [ENack], inr tt))
  /\ (forall (tokenData : CustomTokenData) (others : list CustomTokenData),
       isTxConfirmed_ w h HathorBroker (tx_id tx) = inr true ->
       getCustomTokenData tx = tokenData :: others ->
       let push :=
         EBroker HathorBroker
           (SendTokensFromHathor (getCustomData tx (js "addr"))
              (token_value tokenData) (token_token tokenData) (tx_id tx)
              (token_sender tokenData) (timestamp tx)) in
       let answer :=
         sendTokensFromHathor_ w h1 (getCustomData tx (js "addr"))
           (token_value tokenData) (token_token tokenData) (tx_id tx)
           (token_sender tokenData) (timestamp tx) in
       (answer = inr true ->
        onMessage chainConfig message w h = (h1 ++ [push; EAck], inr tt))
       /\ (answer = inr false ->
           onMessage chainConfig message w h
           = (h1 ++
              [push;
               ELog Err (js "Fail to processing hathor event: ")
                 (Some (HathorException (js "Invalid tx")
                    (Some (js "Invalid tx"))));
               EAck], inr tt)))
  /\ (isTxConfirmed_ w h HathorBroker (tx_id tx) = inr true ->
      getCustomTokenData tx = [] ->
      onMessage chainConfig message w h
      = (h1 ++
         [ELog Err (js "Fail to processing hathor event: ")
            (Some (TypeError "Cannot read properties of undefined"));
          ENack], inr tt)).
Proof.
  intros tx message h1 Ht Hhex Hsig Haddr.
  assert (E : received chainConfig message = evaluateHathorToEvm tx).
  { unfold message. rewrite received_parsed.
    unfold parseHathorLogs. rewrite bool_decide_eq_true_2 by done.
    cbv zeta. fold tx. simpl negb. cbv iota. rewrite Hhex, Haddr.
    destruct Hsig as [-> | Hlt]; [done|].
    replace (_ >=? _) with false; [by rewrite andb_false_r|].
    symmetry. rewrite Z.geb_leb. apply Z.leb_gt. lia. }
  split; [|split].
  - intros Hc. rewrite onMessage_spec, E, evaluateHathorToEvm_run.
    cbv zeta. fold h1. by rewrite Hc.
  - intros td others Hc Htd. cbv zeta. split.
    + intros Ha. rewrite onMessage_spec, E, evaluateHathorToEvm_run.
      cbv zeta. fold h1. rewrite Hc, Htd. cbn [head]. rewrite Ha.
      simpl truthy. cbv iota. by rewrite <- app_assoc.
    + intros Ha. rewrite onMessage_spec, E, evaluateHathorToEvm_run.
      cbv zeta. fold h1. rewrite Hc, Htd. cbn [head]. rewrite Ha.
      cbn [lacks_original]. rewrite nonRetriable_Invalid_tx.
      by rewrite <- app_assoc.
  - intros Hc Htd. rewrite onMessage_spec, E, evaluateHathorToEvm_run.
    cbv zeta. fold h1. rewrite Hc, Htd. cbn [head].
    by rewrite lacks_original_TypeError, nonRetriable_TypeError.
Qed.

(** X11. A proposal (the [hex] branch) whose data type selects a broker.
    An unconfirmed transaction is nacked after the confirmation check
    alone; a confirmed one has this federator's signature sent with the
    proposal hex and the transaction's data of that type, exactly once,
    and is acked when that call returns. *)
Theorem proposal_outcomes (event : Event) (w : World) (h : history)
  (broker : brokerKind) (dataType : jsstring) :
  let tx := tx_of event in
  let message := mkMessage (inr event) in
  let h1 := h ++ [ELog Info (js "Evaluating proposal...") None] in
  let h2 := h1 ++ [EBroker broker (IsTxConfirmed (tx_id tx))] in
  let send :=
    EBroker broker
      (SendMySignaturesToProposal (getCustomData tx (js "hex"))
         (getCustomData tx dataType)) in
  type event = js "wallet:new-tx" ->
  haveCustomData tx (js "hex") = true ->
  getBrokerAndDataType tx = Some (broker, dataType) ->
  (isTxConfirmed_ w h1 broker (tx_id tx) = inr false ->
   onMessage chainConfig message w h = (h2 ++ [ENack], inr tt))
  /\ (isTxConfirmed_ w h1 broker (tx_id tx) = inr true ->
      sendMySignaturesToProposal_ w h2 broker (getCustomData tx (js "hex"))
        (getCustomData tx dataType) = inr tt ->
      onMessage chainConfig message w h = (h2 ++ [send; EAck], inr tt)).
Proof.
  intros tx message h1 h2 send Ht Hhex Hb.
  assert (E : received chainConfig message = evaluateProposal tx).
  { unfold message. rewrite received_parsed.
    unfold parseHathorLogs. rewrite bool_decide_eq_true_2 by done.
    cbv zeta. fold tx. by rewrite Hhex. }
  split.
  - intros Hc. rewrite onMessage_spec, E, evaluateProposal_run, Hb.
    cbv zeta. fold h1. by rewrite Hc.
  - intros Hc Hs. rewrite onMessage_spec, E, evaluateProposal_run, Hb.
    cbv zeta. fold h1. rewrite Hc. fold h2. rewrite Hs.
    simpl truthy. cbv iota. by rewrite <- app_assoc.
Qed.

(** X12. A proposal or signature transaction whose custom data type is
    neither ['hsh'] nor ['hid'] selects no broker: the destructuring of
    [undefined] throws, no broker is called, and the message is nacked. *)
Theorem unknown_data_type_is_nacked (event : Event) (w : World) (h : history) :
  let tx := tx_of event in
  let message := mkMessage (inr event) in
  let failure :=
    ELog Err (js "Fail to processing hathor event: ")
         (Some (TypeError "undefined is not iterable")) in
  type event = js "wallet:new-tx" ->
  getCustomDataType tx <> js "hsh" ->
  getCustomDataType tx <> js "hid" ->
  (haveCustomData tx (js "hex") = true ->
   onMessage chainConfig message w h
   = (h ++ [ELog Info (js "Evaluating proposal...") None; failure; ENack],
      inr tt))
  /\ (haveCustomData tx (js "hex") = false ->
      haveCustomData tx (js "sig") = true ->
      multisigRequiredSignatures chainConfig <= multisigOrder chainConfig ->
      onMessage chainConfig message w h
      = (h ++ [ELog Info (js "Evaluating signature...") None; failure; ENack],
         inr tt)).
Proof.
  intros tx message failure Ht Hsh Hid.
  assert (Hb : getBrokerAndDataType tx = None).
  { unfold getBrokerAndDataType. by rewrite !bool_decide_eq_false_2. }
  split.
  - intros Hhex.
    assert (E : received chainConfig message = evaluateProposal tx).
    { unfold message. rewrite received_parsed.
      unfold parseHathorLogs. rewrite bool_decide_eq_true_2 by done.
      cbv zeta. fold tx. by rewrite Hhex. }
    rewrite onMessage_spec, E, evaluateProposal_run, Hb.
    rewrite lacks_original_TypeError, nonRetriable_TypeError.
    by rewrite <- app_assoc.
  - intros Hhex Hsig Hord.
    assert (E : received chainConfig message
                = evaluateSignature chainConfig tx).
    { unfold message. rewrite received_parsed.
      unfold parseHathorLogs. rewrite bool_decide_eq_true_2 by done.
      cbv zeta. fold tx. rewrite Hhex, Hsig.
      replace (_ >=? _) with true; [done|].
      symmetry. rewrite Z.geb_leb. by apply Z.leb_le. }
    rewrite onMessage_spec, E, evaluateSignature_run, Hb.
    rewrite lacks_original_TypeError, nonRetriable_TypeError.
    by rewrite <- app_assoc.
Qed.

Lemma parseHathorLogs_pushes (event : Event) (w : World) (h : history) :
  exists t : history,
    fst (parseHathorLogs chainConfig event w h) = h ++ t
    /\ (length (List.filter is_push t) <= 1)%nat
    /\ ((forall hh b id, isTxConfirmed_ w hh b id <> inr true) ->
        List.filter is_push t = []).
Proof.
  assert (Hnil : exists t : history,
            h = h ++ t
            /\ (length (List.filter is_push t) <= 1)%nat
            /\ ((forall hh b id, isTxConfirmed_ w hh b id <> inr true) ->
                List.filter is_push t = [])).
  { exists []. rewrite app_nil_r. simpl. repeat split; lia. }
  unfold parseHathorLogs.
  destruct (negb _); [exact Hnil|]. cbv zeta.
  destruct (haveCustomData _ _).
  { rewrite evaluateProposal_run. cbv zeta.
    destruct (getBrokerAndDataType _) as [[b d]|].
    - destruct (isTxConfirmed_ w _ b _) as [e|[|]] eqn:Ec; simpl fst;
        (eexists; split; [rewrite <- ?app_assoc; reflexivity|];
         split; [simpl; lia|];
         intros Hn; try reflexivity; exfalso; eapply Hn; exact Ec).
    - eexists; split; [reflexivity|]. split; [simpl; lia|done]. }
  destruct (_ && _).
  { rewrite evaluateSignature_run. cbv zeta.
    destruct (getBrokerAndDataType _) as [[b d]|].
    - destruct (isTxConfirmed_ w _ b _) as [e|[|]] eqn:Ec; simpl fst;
        try (eexists; split; [rewrite <- ?app_assoc; reflexivity|];
             split; [simpl; lia|];
             intros Hn; try reflexivity; exfalso; eapply Hn; exact Ec).
      destruct (getSignaturesToPush_ w _ b _) as [e|c]; simpl fst;
        try (eexists; split; [rewrite <- ?app_assoc; reflexivity|];
             split; [simpl; lia|];
             intros Hn; exfalso; eapply Hn; exact Ec).
      destruct (_ <? _); simpl fst;
        (eexists; split; [rewrite <- ?app_assoc; reflexivity|];
         split; [simpl; lia|];
         intros Hn; exfalso; eapply Hn; exact Ec).
    - eexists; split; [reflexivity|]. split; [simpl; lia|done]. }
  destruct (haveCustomData _ _); [|exact Hnil].
  rewrite evaluateHathorToEvm_run. cbv zeta.
  destruct (isTxConfirmed_ w _ _ _) as [e|[|]] eqn:Ec; simpl fst;
    try (eexists; split; [rewrite <- ?app_assoc; reflexivity|];
         split; [simpl; lia|];
         intros Hn; try reflexivity; exfalso; eapply Hn; exact Ec).
  destruct (head _); simpl fst;
    (eexists; split; [rewrite <- ?app_assoc; reflexivity|];
     split; [simpl; lia|];
     intros Hn; exfalso; eapply Hn; exact Ec).
Qed.

(** X13. Handling one message reaches a chain or the wallet at most once:
    among the effects the handler adds there is at most one of
    [sendMySignaturesToProposal], [signAndPushProposal] and
    [sendTokensFromHathor]; and when no broker answers [true] to
    [isTxConfirmed], there is none at all. *)
Theorem push_needs_confirmation (event : Event) (w : World) (h : history) :
  exists t : history,
    fst (onMessage chainConfig (mkMessage (inr event)) w h) = h ++ t
    /\ (length (List.filter is_push t) <= 1)%nat
    /\ ((forall hh b id, isTxConfirmed_ w hh b id <> inr true) ->
        List.filter is_push t = []).
Proof.
  destruct (parseHathorLogs_pushes event w h) as (t & Et & L & N).
  rewrite onMessage_spec, received_parsed.
  destruct (parseHathorLogs chainConfig event w h) as [h' [e|response]];
    simpl in Et; subst h'; simpl fst.
  - destruct (lacks_original e); simpl fst.
    + exists (t ++ [ELog Err (js "Fail to processing hathor event: ")
                      (Some e)]).
      split; [by rewrite <- app_assoc|].
      rewrite List.filter_app. simpl. rewrite app_nil_r. done.
    + exists (t ++ [ELog Err (js "Fail to processing hathor event: ") (Some e);
                    if nonRetriable e then EAck else ENack]).
      split; [by rewrite <- app_assoc|].
      rewrite List.filter_app.
      assert (Hz : List.filter is_push
                [ELog Err (js "Fail to processing hathor event: ") (Some e);
                 if nonRetriable e then EAck else ENack] = [])
        by (by destruct (nonRetriable e)).
      rewrite Hz, app_nil_r. done.
  - exists (t ++ [if truthy response then EAck else ENack]).
    split; [by rewrite <- app_assoc|].
    rewrite List.filter_app.
    assert (Hz : List.filter is_push
              [if truthy response then EAck else ENack] = [])
      by (by destruct (truthy response)).
    rewrite Hz, app_nil_r. done.
Qed.

End ServiceBranches.

(** ** The wallet client: readiness check *)

Section WalletReadiness.
Import HathorWallet WalletFacts.
Variable this : HathorWallet.

Lemma count_app (f : effect -> bool) (h h' : history) :
  count f (h ++ h') = (count f h + count f h')%nat.
Proof. unfold count. by rewrite List.filter_app, length_app. Qed.

Lemma isWalletReady_loop_bounded (budget : nat) :
  forall (multisig : bool) (retry : Z) (w : World) (h : history),
    exists t : history,
      fst (isWalletReady_loop this budget multisig retry w h) = h ++ t
      /\ (polls (status_request this multisig) t <= budget)%nat
      /\ (count is_delay t <= budget)%nat
      /\ (count is_start t <= budget)%nat
      /\ (count is_http t <= 2 * budget)%nat.
Proof.
  induction budget as [|budget IH]; intros multisig retry w h.
  - simpl. unfold bind, log_error, emit, ret. simpl.
    eexists. split; [reflexivity|]. unfold polls, count. simpl. lia.
  - change (isWalletReady_loop this (S budget) multisig retry)
      with (bind (isWalletReady_poll this multisig retry)
              (fun outcome =>
                 match outcome with
                 | Return v => ret v
                 | Retry => isWalletReady_loop this budget multisig (retry + 1)
                 end)).
    unfold bind at 1. rewrite isWalletReady_poll_run. cbv zeta.
    pose proof (is_get_status_request this multisig) as Hreq.
    assert (Hcont : forall t0 : history,
      polls (status_request this multisig) t0 = 1%nat ->
      (count is_delay t0 <= 1)%nat -> (count is_start t0 <= 1)%nat ->
      (count is_http t0 <= 2)%nat ->
      exists t : history,
        fst (isWalletReady_loop this budget multisig (retry + 1) w (h ++ t0))
        = h ++ t
        /\ (polls (status_request this multisig) t <= S budget)%nat
        /\ (count is_delay t <= S budget)%nat
        /\ (count is_start t <= S budget)%nat
        /\ (count is_http t <= 2 * S budget)%nat).
    { intros t0 P0 D0 S0 H0.
      destruct (IH multisig (retry + 1) w (h ++ t0)) as (t & Et & P & D & S & Hh).
      exists (t0 ++ t). rewrite Et, <- app_assoc. split; [done|].
      rewrite polls_app, !count_app. lia. }
    assert (Hstop : forall t0 : history,
      polls (status_request this multisig) t0 = 1%nat ->
      (count is_delay t0 <= 1)%nat -> (count is_start t0 <= 1)%nat ->
      (count is_http t0 <= 2)%nat ->
      exists t : history,
        h ++ t0 = h ++ t
        /\ (polls (status_request this multisig) t <= S budget)%nat
        /\ (count is_delay t <= S budget)%nat
        /\ (count is_start t <= S budget)%nat
        /\ (count is_http t <= 2 * S budget)%nat).
    { intros t0 P0 D0 S0 H0. exists t0. split; [done|]. lia. }
    assert (P1 : forall rest : history,
      polls (status_request this multisig)
        (log_checking this multisig retry
         :: EHttp (status_request this multisig) :: rest)
      = S (polls (status_request this multisig) rest)).
    { intros rest. rewrite !polls_cons, Hreq. reflexivity. }
    destruct (get_status w _ _) as [e|response].
    { simpl fst. apply Hstop;
        first [rewrite P1; reflexivity | unfold count; simpl; lia]. }
    destruct (statusCode (data response) =? WALLET_STATUS_READY).
    { simpl fst. apply Hstop;
        first [rewrite P1; reflexivity | unfold count; simpl; lia]. }
    destruct (_ || _).
    { apply Hcont;
        first [rewrite P1; reflexivity | unfold count; simpl; lia]. }
    destruct (_ && _).
    + destruct (post_start w _ _) as [e|s].
      * simpl fst. apply Hstop;
          first [rewrite P1; reflexivity | unfold count; simpl; lia].
      * apply Hcont;
          first [rewrite P1; reflexivity | unfold count; simpl; lia].
    + simpl fst. apply Hstop;
        first [rewrite P1; reflexivity | unfold count; simpl; lia].
Qed.

(** X14. The retry budget holds whatever the wallet service answers: one
    readiness check sends at most three status requests, waits at most
    three times and sends at most three [start] requests (six requests in
    all), whether it ends by returning or by throwing. *)
Theorem isWalletReady_bounded (multisig : bool) (w : World) (h : history) :
  exists t : history,
    fst (isWalletReady1 this multisig w h) = h ++ t
    /\ (polls (status_request this multisig) t <= 3)%nat
    /\ (count is_delay t <= 3)%nat
    /\ (count is_start t <= 3)%nat
    /\ (count is_http t <= 6)%nat.
Proof.
  unfold isWalletReady1, isWalletReady.
  change (Z.to_nat (4 - 1)) with 3%nat.
  apply (isWalletReady_loop_bounded 3).
Qed.

(** X15. What the readiness check does with the answers its three tests
    do not cover.  When the status request itself fails, the check throws
    an [Error] whose text starts with ["Fail to get status of "], with no
    retry.  When the response carries none of the three status codes and
    is not a stopped one (success is true, or the status message is not
    empty), the check returns [undefined] after this one poll: neither
    [true] nor [false], no delay, no retry. *)
Theorem isWalletReady_other_answers (multisig : bool) (retry : Z) (w : World)
  (h : history) :
  let req := status_request this multisig in
  let h1 := h ++ [log_checking this multisig retry; EHttp req] in
  retry <= 3 ->
  (forall e : error,
     get_status w (h ++ [log_checking this multisig retry]) req = inl e ->
     isWalletReady this multisig retry w h
     = (h1, inl (Rethrown (js "Fail to get status of " ++
                           wallet_id this multisig ++ js " wallet: ") e)))
  /\ (forall r : Response StatusData,
       get_status w (h ++ [log_checking this multisig retry]) req = inr r ->
       statusCode (data r) <> WALLET_STATUS_READY ->
       statusCode (data r) <> WALLET_STATUS_CONNECTING ->
       statusCode (data r) <> WALLET_STATUS_SYNCING ->
       status_success (data r) = true \/ statusMessage (data r) <> js "" ->
       isWalletReady this multisig retry w h = (h1, inr None)).
Proof.
  intros req h1 Hr. split.
  - intros e Hg. rewrite isWalletReady_unfold.
    replace (retry >? 3) with false by lia.
    unfold bind. rewrite isWalletReady_poll_run. cbv zeta. fold req.
    by rewrite Hg.
  - intros r Hg N3 N1 N2 Hns. rewrite isWalletReady_unfold.
    replace (retry >? 3) with false by lia.
    unfold bind. rewrite isWalletReady_poll_run. cbv zeta. fold req.
    rewrite Hg.
    replace (statusCode (data r) =? WALLET_STATUS_READY) with false
      by (symmetry; by apply Z.eqb_neq).
    replace (statusCode (data r) =? WALLET_STATUS_CONNECTING) with false
      by (symmetry; by apply Z.eqb_neq).
    replace (statusCode (data r) =? WALLET_STATUS_SYNCING) with false
      by (symmetry; by apply Z.eqb_neq).
    simpl orb. cbv iota.
    replace (negb (status_success (data r))
             && bool_decide (statusMessage (data r) = js "")) with false.
    + reflexivity.
    + symmetry. destruct Hns as [->|Hm]; [done|].
      rewrite bool_decide_eq_false_2 by done. apply andb_false_r.
Qed.

End WalletReadiness.

(** ** The wallet client: sending a proposal *)

Section WalletSending.
Import HathorWallet WalletFacts.
Variable this : HathorWallet.

(** The unawaited token lookup: what it adds to the history. *)
Lemma getHathorTokenAddress_effects (evmTokenAddress : jsstring) (w : World)
  (h : history) :
  exists (t : history) (lookup : error + jsstring),
    getHathorTokenAddress evmTokenAddress w h
    = (h ++ EReadFile token_mapping_path :: t, lookup)
    /\ without_logs t = [].
Proof.
  unfold getHathorTokenAddress, bind, perform. fold token_mapping_path.
  destruct (read_token_mapping w h token_mapping_path) as [e|tokens].
  - exists [], (inl e). done.
  - destruct (List.find _ tokens) as [token|].
    + eexists [_], _. unfold bind, log_info, emit, ret. simpl.
      split; [by rewrite <- app_assoc|done].
    + eexists [], _. done.
Qed.

(** The lookup is fulfilled when the mapping file reads and lists the
    token, and rejected otherwise. *)
Lemma getHathorTokenAddress_found (evmTokenAddress : jsstring) (w : World)
  (h : history) (tokens : list (jsstring * jsstring))
  (entry : jsstring * jsstring) :
  read_token_mapping w h token_mapping_path = inr tokens ->
  List.find (fun t => bool_decide (fst t = evmTokenAddress)) tokens
  = Some entry ->
  snd (getHathorTokenAddress evmTokenAddress w h) = inr (snd entry).
Proof.
  intros Hr Hf. unfold getHathorTokenAddress, bind, perform.
  fold token_mapping_path. by rewrite Hr, Hf.
Qed.

Lemma getHathorTokenAddress_missing (evmTokenAddress : jsstring) (w : World)
  (h : history) :
  match read_token_mapping w h token_mapping_path with
  | inl _ => True
  | inr tokens =>
      List.find (fun t => bool_decide (fst t = evmTokenAddress)) tokens = None
  end ->
  exists reason : error,
    getHathorTokenAddress evmTokenAddress w h
    = (h ++ [EReadFile token_mapping_path], inl reason).
Proof.
  unfold getHathorTokenAddress, bind, perform. fold token_mapping_path.
  destruct (read_token_mapping w h token_mapping_path) as [e|tokens].
  - intros _. by exists e.
  - intros ->. by eexists.
Qed.

Lemma sendTransactionProposal_run (receiverAddress qtd token : jsstring)
  (w : World) (h : history) :
  exists (t : history) (lookup : error + jsstring),
    without_logs t = []
    /\ getHathorTokenAddress token w h
       = (h ++ EReadFile token_mapping_path :: t, lookup)
    /\ sendTransactionProposal this receiverAddress qtd token w h
       = (h ++ EReadFile token_mapping_path :: t ++
          [EHttp (mint_request this receiverAddress qtd)],
          match lookup with
          | inl reason => inl (UnhandledRejection reason)
          | inr _ =>
              match post_mint_tokens w
                      (h ++ EReadFile token_mapping_path :: t)
                      (mint_request this receiverAddress qtd) with
              | inl e =>
                  inl (Rethrown (js "Failed to send transaction proposal: ")
                         e)
              | inr response =>
                  if (status response =? 200)
                     && create_success (data response)
                  then inr (txHex (data response))
                  else
                    inl (Rethrown
                           (js "Failed to send transaction proposal: ")
                           (JsError (number (status response) ++ js " - " ++
                                     statusText response ++ js " - " ++
                                     object_Object)))
              end
          end).
Proof.
  unfold sendTransactionProposal.
  destruct (getHathorTokenAddress_effects token w h) as (t & lookup & Et & Qt).
  exists t, lookup. split; [done|]. split; [done|].
  unfold bind at 1. unfold not_awaited. rewrite Et.
  fold (mint_request this receiverAddress qtd).
  destruct lookup as [reason|address].
  - unfold bind, emit, throw. by rewrite <- app_assoc.
  - unfold try_catch, bind, perform.
    destruct (post_mint_tokens w _ _) as [e|response]; simpl.
    + by rewrite <- app_assoc.
    + destruct (_ && _); simpl; by rewrite <- app_assoc.
Qed.

(** X16. The proposal request never carries the mapped Hathor token.  The
    token lookup is called without [await], so the request is built from
    the pending promise: whatever token address is passed and whatever
    the mapping file holds, [sendTransactionProposal] reads the mapping
    file once and then posts [mint-tokens] with the receiver, the amount
    and the token text ["[object Promise]"]; a lookup that fails (file
    unreadable, token not listed) does not stop the request. *)
Theorem mint_request_ignores_token (receiverAddress qtd token : jsstring)
  (w : World) (h : history) :
  exists t : history,
    fst (sendTransactionProposal this receiverAddress qtd token w h)
    = h ++ EReadFile token_mapping_path :: t ++
      [EHttp (POST (walletUrl this ++ js "/wallet/p2sh/tx-proposal/mint-tokens")
                   (Some (multisigWalletId this))
                   (MintTokensBody receiverAddress qtd (js "[object Promise]")))]
    /\ without_logs t = [].
Proof.
  destruct (sendTransactionProposal_run receiverAddress qtd token w h)
    as (t & lookup & Qt & _ & E).
  exists t. by rewrite E.
Qed.

Lemma broadcastDataToMultisig_history (outputs : list Output) (w : World)
  (h : history) :
  fst (broadcastDataToMultisig this outputs w h)
  = h ++ [EHttp (send_tx_request this outputs)].
Proof.
  unfold broadcastDataToMultisig, try_catch, bind, perform.
  fold (send_tx_request this outputs).
  destruct (post_send_tx w h _) as [e|r]; simpl; [done|].
  destruct (status r =? 200); simpl; [|done].
  by destruct (send_success (data r)).
Qed.

Lemma broadcastProposal_extends (txHex txId : jsstring) (w : World)
  (h : history) :
  exists rest : history,
    fst (broadcastProposal this txHex txId w h) = h ++ rest.
Proof.
  unfold broadcastProposal. unfold bind at 1. rewrite wrapData_run. cbv zeta.
  destruct (get_address w h _) as [e|r]; [by eexists|].
  destruct (status r =? 200); [|by eexists].
  unfold bind.
  pose proof (broadcastDataToMultisig_history
                (wrapData_chunks (js "hex") txHex ++
                 [AddressOutput (address (data r)) 1]) w
                (h ++ [EHttp (GET (walletUrl this ++ js "/wallet/address")
                                  (multisigWalletId this))])) as Hb.
  destruct (broadcastDataToMultisig this _ w _) as [h' [e|v]];
    simpl in Hb; subst h'; simpl; rewrite <- app_assoc; by eexists.
Qed.

Lemma isWalletReady_never_ready (multisig : bool) (w : World) (h : history) :
  (forall hh req, exists r,
     get_status w hh req = inr r
     /\ statusCode (data r) = WALLET_STATUS_SYNCING) ->
  exists t : history,
    isWalletReady1 this multisig w h = (h ++ t, inr (Some false))
    /\ polls (status_request this multisig) t = 3%nat.
Proof.
  intros Hall. set (req := status_request this multisig).
  destruct (Hall (h ++ [log_checking this multisig 1]) req) as (r1 & G1 & C1).
  pose (t1 := [log_checking this multisig 1; EHttp req;
               log_is this multisig (statusMessage (data r1)); EDelay 3000]).
  destruct (Hall ((h ++ t1) ++ [log_checking this multisig 2]) req)
    as (r2 & G2 & C2).
  pose (t2 := [log_checking this multisig 2; EHttp req;
               log_is this multisig (statusMessage (data r2)); EDelay 3000]).
  destruct (Hall (((h ++ t1) ++ t2) ++ [log_checking this multisig 3]) req)
    as (r3 & G3 & C3).
  pose (t3 := [log_checking this multisig 3; EHttp req;
               log_is this multisig (statusMessage (data r3)); EDelay 3000]).
  exists (t1 ++ t2 ++ t3 ++ [log_exhausted this multisig]). split.
  - unfold isWalletReady1.
    rewrite (isWalletReady_waits this multisig 1 w h r1);
      [|lia|exact G1|by right].
    fold req. fold t1. change (1 + 1) with 2.
    rewrite (isWalletReady_waits this multisig 2 w (h ++ t1) r2);
      [|lia|exact G2|by right].
    fold req. fold t2. change (2 + 1) with 3.
    rewrite (isWalletReady_waits this multisig 3 w ((h ++ t1) ++ t2) r3);
      [|lia|exact G3|by right].
    fold req. fold t3. change (3 + 1) with 4.
    rewrite isWalletReady_exhausted by lia.
    by rewrite <- !app_assoc.
  - pose proof (is_get_status_request this multisig) as Hreq. fold req in Hreq.
    unfold t1, t2, t3. simpl app.
    rewrite !polls_cons, Hreq. reflexivity.
Qed.

(** X19. [sendTokensToHathor] does not look at what the readiness checks
    return.  On the first federator, with a wallet service that answers
    SYNCING to every status request, both checks use up their three polls
    and return [false], and the call goes on all the same: it reads the
    token mapping and posts the [mint-tokens] request. *)
Theorem sendTokensToHathor_ignores_readiness
  (receiverAddress qtd tokenAddress txId : jsstring) (w : World) (h : history) :
  multisigOrder this <= 1 ->
  (forall hh req, exists r,
     get_status w hh req = inr r
     /\ statusCode (data r) = WALLET_STATUS_SYNCING) ->
  exists (h1 h2 t rest : history),
    isWalletReady1 this true w h = (h1, inr (Some false))
    /\ isWalletReady1 this false w h1 = (h2, inr (Some false))
    /\ fst (sendTokensToHathor this receiverAddress qtd tokenAddress txId w h)
       = h2 ++ EReadFile token_mapping_path :: t ++
         EHttp (mint_request this receiverAddress qtd) :: rest
    /\ without_logs t = [].
Proof.
  intros Ho Hall.
  destruct (isWalletReady_never_ready true w h Hall) as (t1 & E1 & _).
  destruct (isWalletReady_never_ready false w (h ++ t1) Hall) as (t2 & E2 & _).
  destruct (sendTransactionProposal_run receiverAddress qtd tokenAddress w
              ((h ++ t1) ++ t2)) as (t & lookup & Qt & _ & Es).
  unfold sendTokensToHathor.
  replace (multisigOrder this >? 1) with false by lia.
  unfold bind at 1. rewrite E1.
  unfold bind at 1. rewrite E2.
  unfold bind. rewrite Es.
  destruct lookup as [reason|address].
  { exists (h ++ t1), ((h ++ t1) ++ t2), t, [].
    repeat split; try done; simpl fst; by rewrite <- ?app_assoc. }
  destruct (post_mint_tokens w _ _) as [e|r].
  - exists (h ++ t1), ((h ++ t1) ++ t2), t, [].
    repeat split; try done; simpl fst; by rewrite <- ?app_assoc.
  - destruct (_ && _).
    + destruct (broadcastProposal_extends (txHex (data r)) txId w
                  (((h ++ t1) ++ t2) ++ EReadFile token_mapping_path :: t ++
                   [EHttp (mint_request this receiverAddress qtd)]))
        as (rest & Er).
      exists (h ++ t1), ((h ++ t1) ++ t2), t, rest.
      repeat split; try done. rewrite Er.
      rewrite <- ?app_assoc. simpl. by rewrite <- ?app_assoc.
    + exists (h ++ t1), ((h ++ t1) ++ t2), t, [].
      repeat split; try done; simpl fst; by rewrite <- ?app_assoc.
Qed.

Lemma without_logs_nil_http (t : history) :
  without_logs t = [] -> List.filter is_http t = [].
Proof.
  unfold without_logs. induction t as [|e t IH]; [done|].
  destruct e; simpl; done.
Qed.

(** X20. The requests of a transfer that goes through.  On the first
    federator, with a token mapping that reads and lists the token, a
    wallet service that reports READY, accepts the proposal with
    transaction [hex] and gives [addr] as the multisig address,
    [sendTokensToHathor] returns normally after exactly five requests, in
    this order: the status of the multisig wallet, the status of the
    single wallet, the [mint-tokens] proposal, the multisig address, and
    one [send-tx] from the single wallet whose outputs are the chunks of
    [hex] under the tag ["hex"] followed by one token unit to [addr]. *)
Theorem sendTokensToHathor_requests
  (receiverAddress qtd tokenAddress txId hex addr : jsstring)
  (w : World) (h : history) :
  multisigOrder this <= 1 ->
  (forall hh, exists tokens entry,
     read_token_mapping w hh token_mapping_path = inr tokens
     /\ List.find (fun t => bool_decide (fst t = tokenAddress)) tokens
        = Some entry) ->
  (forall hh req, exists r,
     get_status w hh req = inr r
     /\ statusCode (data r) = WALLET_STATUS_READY) ->
  (forall hh req, exists r,
     post_mint_tokens w hh req = inr r /\ status r = 200
     /\ create_success (data r) = true /\ txHex (data r) = hex) ->
  (forall hh req, exists r,
     get_address w hh req = inr r /\ status r = 200
     /\ address (data r) = addr) ->
  (forall hh req, exists r,
     post_send_tx w hh req = inr r /\ status r = 200
     /\ send_success (data r) = true) ->
  exists t : history,
    sendTokensToHathor this receiverAddress qtd tokenAddress txId w h
    = (h ++ t, inr tt)
    /\ List.filter is_http t
       = [EHttp (status_request this true);
          EHttp (status_request this false);
          EHttp (mint_request this receiverAddress qtd);
          EHttp (address_request this);
          EHttp (send_tx_request this
                   (wrapData_chunks (js "hex") hex ++ [AddressOutput addr 1]))].
Proof.
  intros Ho Hmap Hstatus Hmint Haddr Hsend.
  destruct (Hstatus (h ++ [log_checking this true 1]) (status_request this true))
    as (r1 & G1 & C1).
  pose (t1 := [log_checking this true 1; EHttp (status_request this true);
               log_ready this true]).
  destruct (Hstatus ((h ++ t1) ++ [log_checking this false 1])
              (status_request this false)) as (r2 & G2 & C2).
  pose (t2 := [log_checking this false 1; EHttp (status_request this false);
               log_ready this false]).
  destruct (sendTransactionProposal_run receiverAddress qtd tokenAddress w
              ((h ++ t1) ++ t2)) as (t & lookup & Qt & El & Es).
  destruct (Hmap ((h ++ t1) ++ t2)) as (tokens & entry & Hr & Hf).
  pose proof (getHathorTokenAddress_found tokenAddress w ((h ++ t1) ++ t2)
                tokens entry Hr Hf) as Hfound.
  rewrite El in Hfound. simpl in Hfound. subst lookup.
  set (h3 := ((h ++ t1) ++ t2) ++ EReadFile token_mapping_path :: t) in Es.
  destruct (Hmint h3 (mint_request this receiverAddress qtd))
    as (r3 & G3 & S3 & K3 & X3).
  set (h4 := ((h ++ t1) ++ t2) ++ EReadFile token_mapping_path :: t ++
             [EHttp (mint_request this receiverAddress qtd)]) in Es.
  destruct (Haddr h4 (address_request this)) as (r4 & G4 & S4 & A4).
  set (outputs := wrapData_chunks (js "hex") hex ++ [AddressOutput addr 1]).
  destruct (Hsend (h4 ++ [EHttp (address_request this)])
              (send_tx_request this outputs)) as (r5 & G5 & S5 & K5).
  exists (t1 ++ t2 ++ EReadFile token_mapping_path :: t ++
          [EHttp (mint_request this receiverAddress qtd);
           EHttp (address_request this);
           EHttp (send_tx_request this outputs)]).
  split.
  - unfold sendTokensToHathor.
    replace (multisigOrder this >? 1) with false by lia.
    unfold bind at 1. unfold isWalletReady1.
    rewrite (isWalletReady_ready this true 1 w h r1); [|lia|exact G1|exact C1].
    fold t1. unfold bind at 1.
    rewrite (isWalletReady_ready this false 1 w (h ++ t1) r2);
      [|lia|exact G2|exact C2].
    fold t2. unfold bind at 1. rewrite Es, G3, S3, K3, X3.
    rewrite Z.eqb_refl. cbn [andb]. cbv iota beta.
    unfold broadcastProposal. unfold bind at 1. rewrite wrapData_run. cbv zeta.
    fold (address_request this). rewrite G4, S4, A4.
    rewrite Z.eqb_refl. cbv iota beta.
    fold outputs. unfold bind at 1.
    unfold broadcastDataToMultisig, try_catch, bind, perform.
    fold (send_tx_request this outputs). rewrite G5, S5, K5.
    rewrite Z.eqb_refl. cbn [negb andb]. cbv iota beta.
    unfold ret, h4. f_equal. rewrite <- !app_assoc. simpl.
    rewrite <- !app_assoc. reflexivity.
  - unfold t1, t2. rewrite !List.filter_app.
    change (EReadFile token_mapping_path :: t ++ ?l)
      with ([EReadFile token_mapping_path] ++ t ++ l).
    rewrite !List.filter_app, (without_logs_nil_http t Qt). reflexivity.
Qed.

(** X25. A transfer whose token lookup fails.  On the first federator,
    with a wallet service that reports READY, when the token mapping
    cannot be read or does not list the token, the lookup nobody awaits
    is rejected: [sendTokensToHathor] still makes the [mint-tokens]
    request and ends there with the unhandled rejection.  It makes three
    requests (the two status requests and [mint-tokens]); the multisig
    address is not asked for and nothing is broadcast, whatever the
    wallet service would have answered. *)
Theorem sendTokensToHathor_failed_lookup
  (receiverAddress qtd tokenAddress txId : jsstring)
  (w : World) (h : history) :
  multisigOrder this <= 1 ->
  (forall hh,
     match read_token_mapping w hh token_mapping_path with
     | inl _ => True
     | inr tokens =>
         List.find (fun t => bool_decide (fst t = tokenAddress)) tokens = None
     end) ->
  (forall hh req, exists r,
     get_status w hh req = inr r
     /\ statusCode (data r) = WALLET_STATUS_READY) ->
  exists (t : history) (reason : error),
    sendTokensToHathor this receiverAddress qtd tokenAddress txId w h
    = (h ++ t, inl (UnhandledRejection reason))
    /\ snd (getHathorTokenAddress tokenAddress w
              (h ++ [log_checking this true 1;
                     EHttp (status_request this true); log_ready this true;
                     log_checking this false 1;
                     EHttp (status_request this false); log_ready this false]))
       = inl reason
    /\ List.filter is_http t
       = [EHttp (status_request this true);
          EHttp (status_request this false);
          EHttp (mint_request this receiverAddress qtd)].
Proof.
  intros Ho Hmap Hstatus.
  destruct (Hstatus (h ++ [log_checking this true 1]) (status_request this true))
    as (r1 & G1 & C1).
  pose (t1 := [log_checking this true 1; EHttp (status_request this true);
               log_ready this true]).
  destruct (Hstatus ((h ++ t1) ++ [log_checking this false 1])
              (status_request this false)) as (r2 & G2 & C2).
  pose (t2 := [log_checking this false 1; EHttp (status_request this false);
               log_ready this false]).
  destruct (getHathorTokenAddress_missing tokenAddress w ((h ++ t1) ++ t2)
              (Hmap ((h ++ t1) ++ t2))) as (reason & El).
  exists (t1 ++ t2 ++ [EReadFile token_mapping_path;
                       EHttp (mint_request this receiverAddress qtd)]), reason.
  split; [|split].
  - unfold sendTokensToHathor.
    replace (multisigOrder this >? 1) with false by lia.
    unfold bind at 1. unfold isWalletReady1.
    rewrite (isWalletReady_ready this true 1 w h r1); [|lia|exact G1|exact C1].
    fold t1. unfold bind at 1.
    rewrite (isWalletReady_ready this false 1 w (h ++ t1) r2);
      [|lia|exact G2|exact C2].
    fold t2. unfold bind at 1. unfold sendTransactionProposal.
    unfold bind at 1. unfold not_awaited. rewrite El.
    fold (mint_request this receiverAddress qtd).
    unfold bind, emit, throw. by rewrite <- !app_assoc.
  - replace (h ++ _) with ((h ++ t1) ++ t2)
      by (unfold t1, t2; by rewrite <- app_assoc).
    by rewrite El.
  - reflexivity.
Qed.

(** X17. [broadcastDataToMultisig] sends exactly one [send-tx] request
    and never resolves to [false]: it returns [true] exactly when the
    service answers with status 200 and [success], and in every other
    case throws an [Error] whose text starts with
    ["Fail to broadcast data to multisig: "]. *)
Theorem broadcast_true_or_throws (outputs : list Output) (w : World)
  (h : history) :
  let req := send_tx_request this outputs in
  fst (broadcastDataToMultisig this outputs w h) = h ++ [EHttp req]
  /\ (snd (broadcastDataToMultisig this outputs w h) = inr true
      <-> exists r, post_send_tx w h req = inr r
                    /\ status r = 200 /\ send_success (data r) = true)
  /\ (snd (broadcastDataToMultisig this outputs w h) <> inr true ->
      exists cause,
        snd (broadcastDataToMultisig this outputs w h)
        = inl (Rethrown (js "Fail to broadcast data to multisig: ") cause)).
Proof.
  intros req. unfold broadcastDataToMultisig, try_catch, bind, perform.
  fold (send_tx_request this outputs). fold req.
  destruct (post_send_tx w h req) as [e|r]; simpl.
  - split; [done|]. split; [|by eauto].
    split; [done|]. by intros (r & Hr & _).
  - destruct (status r =? 200) eqn:Es; simpl.
    + destruct (send_success (data r)) eqn:Ex; simpl.
      * split; [done|]. split; [|done].
        split; [|done]. intros _. exists r. apply Z.eqb_eq in Es. done.
      * split; [done|]. split; [|by eauto].
        split; [done|]. intros (r' & Hr & _ & Hx). congruence.
    + split; [done|]. split; [|by eauto].
      split; [done|]. intros (r' & Hr & Hs & _).
      apply Z.eqb_neq in Es. congruence.
Qed.

Lemma decimal_fuel_grows (fuel : nat) :
  forall (n : nat) (acc : jsstring),
    (S (length acc) <= length (decimal_fuel (S fuel) n acc))%nat.
Proof.
  induction fuel as [|fuel IH]; intros n acc.
  - simpl. destruct (n <? 10)%nat; simpl; lia.
  - change (decimal_fuel (S (S fuel)) n acc)
      with (if (n <? 10)%nat then digit (n mod 10) :: acc
            else decimal_fuel (S fuel) (n / 10) (digit (n mod 10) :: acc)).
    destruct (n <? 10)%nat; [simpl; lia|].
    specialize (IH (n / 10)%nat (digit (n mod 10) :: acc)). simpl in *. lia.
Qed.

Lemma decimal_two_digits (n : nat) :
  (10 <= n)%nat -> (2 <= length (decimal n))%nat.
Proof.
  intros Hn. unfold decimal.
  change (decimal_fuel (S n) n [])
    with (if (n <? 10)%nat then [digit (n mod 10)]
          else decimal_fuel n (n / 10) [digit (n mod 10)]).
  replace (n <? 10)%nat with false by (symmetry; apply Nat.ltb_ge; lia).
  destruct n as [|n]; [lia|].
  pose proof (decimal_fuel_grows n (S n / 10) [digit (S n mod 10)]).
  simpl length in *. lia.
Qed.

(** X18. The size of what [wrapData] puts in one data output.  It emits
    [ceil(length / 145)] data outputs.  For a payload of at most 1305
    characters each of them has at most 147 characters more than the
    tag (150 for a three-letter tag, the figure of the source comment);
    for a longer payload the first data output already has at least 148
    more, since the total takes two digits or more. *)
Theorem wrapData_output_sizes (dataType payload : jsstring) :
  length (wrapData_chunks dataType payload)
  = ceil_div (length payload) dataLimit
  /\ ((length payload <= 1305)%nat ->
      Forall (fun o => (length (data_text o) <= length dataType + 147)%nat)
             (wrapData_chunks dataType payload))
  /\ ((1305 < length payload)%nat ->
      exists d rest,
        wrapData_chunks dataType payload = DataOutput d :: rest
        /\ (length dataType + 148 <= length d)%nat).
Proof.
  pose proof (ceil_div_bounds (length payload) 145 ltac:(lia)) as Hk.
  unfold wrapData_chunks. cbv zeta. rewrite wrapData_loop_map, app_nil_l.
  change dataLimit with 145%nat in *.
  set (k := ceil_div (length payload) 145) in *.
  split; [by rewrite length_map, length_seq|]. split.
  - intros Hlen. apply Forall_forall. intros o Ho.
    apply list_elem_of_In, in_map_iff in Ho as (i & <- & Hi).
    apply in_seq in Hi. simpl data_text.
    rewrite !length_app, !decimal_digit by lia. simpl length.
    pose proof (chunk_body_length i payload) as Hb.
    change dataLimit with 145%nat in Hb. lia.
  - intros Hlen. destruct k as [|k'] eqn:Ek; [lia|].
    simpl seq. cbn [List.map]. eexists _, _. split; [reflexivity|].
    rewrite !length_app.
    pose proof (decimal_two_digits (S k') ltac:(lia)) as Hd.
    rewrite substring_take_drop by lia.
    rewrite length_take, length_drop. simpl (length (decimal 0)). lia.
Qed.

End WalletSending.

(* --------------------------------------------------------------------- *)
(** ** The allow-list client *)
(* --------------------------------------------------------------------- *)

Section AllowTokensCache.
Import JS Effects IAllowTokensV1 AllowTokensFacts.

Variable contract : Contract.

Lemma getLimits_calls_grow (k : jsstring) (s : state) :
  snd s `prefix_of` snd (fst (getLimits contract k s)).
Proof.
  destruct s as [this calls]. unfold getLimits.
  destruct (get _ k); [done|].
  destruct (contract calls k); simpl; by apply prefix_app_r.
Qed.

Lemma getLimits_cache_sound (k : jsstring) (s : state) :
  cache_sound contract s -> cache_sound contract (fst (getLimits contract k s)).
Proof.
  intros Hs. destruct s as [this calls]. unfold getLimits, get.
  destruct (mapTokenInfoAndLimits this !! k) as [r0|] eqn:Ek; [exact Hs|].
  case_bool_decide as Hp; [exact Hs|].
  assert (Hweak : forall k' r', mapTokenInfoAndLimits this !! k' = Some r' ->
            allowed r' = true /\ (k' ∉ Object_prototype)
            /\ exists before il, (before ++ [k']) `prefix_of` (calls ++ [k])
                 /\ contract before k' = inr il /\ r' = result_of il).
  { intros k' r' E. destruct (Hs k' r' E) as (Ha & Hn & before & il & P & C & R).
    split; [done|]. split; [done|]. exists before, il.
    split; [|done]. simpl in P. by apply prefix_app_r. }
  destruct (contract calls k) as [err|il] eqn:Ec; [exact Hweak|].
  simpl. destruct (info_allowed (info il)) eqn:Ea; [|exact Hweak].
  intros k' r'. simpl. destruct (decide (k' = k)) as [->|Hne].
  - rewrite lookup_insert_eq. intros [= <-]. split; [reflexivity|]. split; [done|].
    exists calls, il. split; [done|]. split; [done|].
    unfold result_of. by rewrite Ea.
  - rewrite lookup_insert_ne by done. apply Hweak.
Qed.

Lemma calls_of_cache_sound (tokens : list jsstring) (s : state) :
  cache_sound contract s -> cache_sound contract (calls_of contract tokens s).
Proof.
  revert s. induction tokens as [|t tokens IH]; intros s Hs; [done|].
  simpl. apply IH, getLimits_cache_sound, Hs.
Qed.

Lemma new_cache_sound (chainId federatorInstance : Z) :
  cache_sound contract (new chainId federatorInstance, []).
Proof. intros k r. simpl. by rewrite lookup_empty. Qed.

Lemma getLimits_keeps_entry (k t : jsstring) (r : LimitsResult) (s : state) :
  mapTokenInfoAndLimits (fst s) !! k = Some r ->
  mapTokenInfoAndLimits (fst (fst (getLimits contract t s))) !! k = Some r.
Proof.
  destruct s as [this calls]. simpl. intros E. unfold getLimits, get.
  destruct (mapTokenInfoAndLimits this !! t) as [r0|] eqn:Et; [done|].
  case_bool_decide; [done|].
  destruct (contract calls t) as [err|il]; [done|].
  simpl. destruct (info_allowed (info il)); [|done].
  simpl. rewrite lookup_insert_ne; [done|]. intros ->. congruence.
Qed.

Lemma calls_of_keeps_entry (k : jsstring) (r : LimitsResult)
  (tokens : list jsstring) (s : state) :
  mapTokenInfoAndLimits (fst s) !! k = Some r ->
  mapTokenInfoAndLimits (fst (calls_of contract tokens s)) !! k = Some r.
Proof.
  revert s. induction tokens as [|t tokens IH]; intros s Hs; [done|].
  simpl. by apply IH, getLimits_keeps_entry.
Qed.

(** X21. What the cache holds.  After any sequence of [getLimits] calls on
    a fresh object, whatever the contract answered or failed with, every
    entry of [mapTokenInfoAndLimits] is an allowed token, stored under a
    name that plain objects do not inherit, and is the result built from
    the contract's answer at one of the calls made for that token. *)
Theorem cache_holds_allowed_answers (chainId federatorInstance : Z)
  (tokens : list jsstring) (k : jsstring) (r : LimitsResult) :
  let s := calls_of contract tokens (new chainId federatorInstance, []) in
  mapTokenInfoAndLimits (fst s) !! k = Some r ->
  allowed r = true
  /\ (k ∉ Object_prototype)
  /\ exists before infoAndLimits,
       (before ++ [k]) `prefix_of` snd s
       /\ contract before k = inr infoAndLimits
       /\ r = result_of infoAndLimits.
Proof.
  intros s. apply (calls_of_cache_sound tokens), new_cache_sound.
Qed.

(** X22. A cached answer is final.  Once a token has an entry, every later
    [getLimits] for it, after any other calls, returns that entry without
    calling the contract and without changing the object: a later change
    of the token's limits or of its allowed flag in the contract is never
    seen. *)
Theorem cached_answer_is_final (k : jsstring) (r : LimitsResult)
  (tokens : list jsstring) (s : state) :
  mapTokenInfoAndLimits (fst s) !! k = Some r ->
  let s' := calls_of contract tokens s in
  getLimits contract k s' = (s', inr (Result r)).
Proof.
  intros E s'. pose proof (calls_of_keeps_entry k r tokens s E) as E'.
  fold s' in E'. destruct s' as [this calls]. simpl in E'.
  unfold getLimits, get. by rewrite E'.
Qed.

(** X23. Inherited names never reach the contract.  For a token address
    that is the name of a member of [Object.prototype], the lookup in the
    plain object finds the inherited member, which is truthy: on an object
    that started fresh, [getLimits] returns that member instead of limits,
    makes no contract call and stores nothing. *)
Theorem inherited_name_skips_contract (chainId federatorInstance : Z)
  (tokens : list jsstring) (k : jsstring) :
  k ∈ Object_prototype ->
  let s := calls_of contract tokens (new chainId federatorInstance, []) in
  getLimits contract k s = (s, inr (Inherited k)).
Proof.
  intros Hk s.
  pose proof (calls_of_cache_sound tokens _
                (new_cache_sound chainId federatorInstance)) as Hs.
  fold s in Hs. destruct s as [this calls]. unfold getLimits, get.
  destruct (mapTokenInfoAndLimits this !! k) as [r|] eqn:E.
  - destruct (Hs k r E) as (_ & Hn & _). done.
  - by rewrite bool_decide_eq_true_2.
Qed.




End AllowTokensCache.


(* --------------------------------------------------------------------- *)
(** ** The further properties on concrete runs *)
(* --------------------------------------------------------------------- *)

Section LedgerFurtherRuns.
Import HathorTransactions LedgerFacts LedgerExamples.

Lemma empty_state_fresh (a : address) : flag (isMember empty_state) a = false.
Proof. unfold flag. simpl. by rewrite lookup_empty. Qed.

Lemma ledger0_members_consistent : members_consistent ledger0.
Proof.
  assert (E : isMember ledger0
              = <[federator2 := true]> (<[federator1 := true]> ∅))
    by (vm_compute; reflexivity).
  split; [|split].
  - change (members ledger0) with [federator1; federator2].
    apply NoDup_cons. split; [|apply NoDup_singleton].
    intros Hin. apply list_elem_of_singleton in Hin. discriminate.
  - intros a. rewrite E, !flag_insert.
    change (members ledger0) with [federator1; federator2].
    rewrite !elem_of_cons. repeat case_bool_decide; subst.
    + split; [by right; left|done].
    + split; [by left|done].
    + split; [|intros [?|[?|Hn]]; [done|done|by apply elem_of_nil in Hn]].
      unfold flag. rewrite lookup_empty. discriminate.
  - change (members ledger0) with [federator1; federator2].
    rewrite !elem_of_cons. intros [?|[?|Hn]]; [discriminate|discriminate|].
    by apply elem_of_nil in Hn.
Qed.

Lemma initialize_membership_witness :
  (exists st' evs,
     initialize empty_state [federator1; federator2] contract_owner
     = Ok st' evs tt)
  /\ ~ (exists st' evs,
          initialize empty_state [federator1; federator1] contract_owner
          = Ok st' evs tt).
Proof.
  split.
  - destruct (initialize_membership empty_state [federator1; federator2]
                contract_owner empty_state_fresh) as [[_ A] _].
    apply A. split; [reflexivity|]. split; [vm_compute; discriminate|].
    split.
    + apply NoDup_cons. split; [|apply NoDup_singleton].
      intros Hin. apply list_elem_of_singleton in Hin. discriminate.
    + rewrite !elem_of_cons. intros [?|[?|Hn]]; [discriminate|discriminate|].
      by apply elem_of_nil in Hn.
  - intros Hex.
    destruct (initialize_membership empty_state [federator1; federator1]
                contract_owner empty_state_fresh) as [[A _] _].
    destruct (A Hex) as (_ & _ & N & _).
    apply NoDup_cons in N as [N _]. apply N, elem_of_cons. by left.
Defined.

Lemma addMember_appends_witness :
  exists st' evs,
    addMember ledger0 contract_owner 9 = Ok st' evs tt
    /\ members st' = [federator1; federator2; 9]
    /\ evs = [MemberAddition 9]
    /\ members_consistent st'.
Proof.
  destruct (addMember_appends ledger0 contract_owner 9) as [[_ A] B].
  destruct A as (st' & evs & E).
  { split; [reflexivity|]. split; [discriminate|]. vm_compute. reflexivity. }
  exists st', evs. split; [exact E|].
  destruct (B st' evs E) as (M & Ev & _ & C).
  split; [exact M|]. split; [exact Ev|]. apply C, ledger0_members_consistent.
Defined.

Lemma removeMember_removes_witness :
  let st' := step (H := example_hash) ledger0
               (contract_owner, RemoveMember federator1) in
  length (members st') = 1%nat
  /\ members_consistent st'
  /\ (exists reason,
        getTransactionId (H := example_hash) st' federator1 transfer0
        = Revert reason).
Proof.
  intros st'.
  destruct (removeMember_removes (H := example_hash) ledger0 st'
              contract_owner federator1 [MemberRemoval federator1] transfer0
              ledger0_members_consistent)
    as (_ & L & _ & C & _ & _ & R); [vm_compute; reflexivity|].
  split; [exact L|]. split; [exact C|exact R].
Defined.

Lemma later_txs_keep_initialized : Forall keeps_initialized later_txs.
Proof.
  repeat (apply Forall_cons; split); try exact I; [|apply Forall_nil_2].
  intros s o i' o' [= <- _]. reflexivity.
Qed.

Lemma membership_invariant_witness :
  initialized (run (H := example_hash) ledger0 later_txs) = true
  /\ members_consistent (run (H := example_hash) ledger0 later_txs)
  /\ (1 <= length (members (run (H := example_hash) ledger0 later_txs)))%nat.
Proof.
  destruct (membership_invariant (H := example_hash) ledger0 later_txs)
    as (A & B & C);
    [reflexivity|exact ledger0_members_consistent
    |exact later_txs_keep_initialized|].
  split; [exact A|]. split; [exact B|]. apply C. vm_compute. lia.
Defined.

Lemma bookkeeping_needs_member_witness :
  bookkeeping
    (step (H := example_hash) ledger0
       (9, SendTransactionProposal transfer0 txHex0))
  = bookkeeping ledger0
  /\ bookkeeping
       (step (H := example_hash) ledger0 (contract_owner, AddMember 9))
     = bookkeeping ledger0.
Proof.
  split.
  - apply (bookkeeping_needs_member (H := example_hash)). left.
    vm_compute. reflexivity.
  - apply (bookkeeping_needs_member (H := example_hash)). right. reflexivity.
Defined.

Lemma proposal_hex_is_final_witness :
  transactionHex
    (run (H := example_hash)
       (step (H := example_hash) ledger0
          (federator1, SendTransactionProposal transfer0 txHex0))
       ((federator2, SendTransactionProposal transfer0 signature0)
          :: later_txs))
    !! transactionId (H := example_hash) transfer0
  = Some txHex0.
Proof.
  apply (proposal_hex_is_final (H := example_hash)). vm_compute. reflexivity.
Defined.

Lemma signatures_append_only_witness :
  sigs_of
    (step (H := example_hash) ledger0
       (federator1, UpdateSignatureState transfer0 signature0 true))
    (transactionId (H := example_hash) transfer0)
  = sigs_of ledger0 (transactionId (H := example_hash) transfer0)
    ++ [signature0].
Proof.
  destruct (signatures_append_only (H := example_hash) ledger0 later_txs
              (transactionId (H := example_hash) transfer0) federator1
              transfer0 signature0 true) as [_ A].
  apply A. vm_compute. reflexivity.
Defined.

Lemma unsigned_calls_accumulate_witness :
  let st' :=
    run (H := example_hash) ledger0
      (replicate 3 (federator1, UpdateSignatureState transfer0 signature0 false))
  in
  sigs_of st' (transactionId (H := example_hash) transfer0)
  = sigs_of ledger0 (transactionId (H := example_hash) transfer0)
    ++ replicate 3 signature0
  /\ flag (isSigned st') (transactionId (H := example_hash) transfer0,
                          federator1) = false
  /\ flag (isMember st') federator1 = true.
Proof.
  apply (unsigned_calls_accumulate (H := example_hash) 3 ledger0 federator1
           transfer0 signature0); vm_compute; reflexivity.
Defined.

End LedgerFurtherRuns.

Section ServiceFurtherRuns.
Import HathorService ServiceFacts ServiceExamples FurtherExamples.

Lemma inbound_transfer_outcomes_witness :
  onMessage (H := example_methods) (config 1 2) (message_of addr_only)
    (world false [] true) []
  = ([EBroker HathorBroker (IsTxConfirmed (js "tx-1")); ENack], inr tt)
  /\ onMessage (H := example_methods) (config 1 2) (message_of addr_only)
       (world true [] false) []
     = ([EBroker HathorBroker (IsTxConfirmed (js "tx-1"));
         EBroker HathorBroker
           (SendTokensFromHathor (js "0xabc") 5 (js "00") (js "tx-1")
              (js "sender") 1700000000);
         ELog Err (js "Fail to processing hathor event: ")
           (Some (HathorException (js "Invalid tx")
                    (Some (js "Invalid tx"))));
         EAck], inr tt)
  /\ onMessage (H := example_methods) (config 1 2)
       (message_of addr_without_token) (world true [] true) []
     = ([EBroker HathorBroker (IsTxConfirmed (js "tx-1"));
         ELog Err (js "Fail to processing hathor event: ")
           (Some (TypeError "Cannot read properties of undefined"));
         ENack], inr tt).
Proof.
  split; [|split].
  - destruct (inbound_transfer_outcomes (H := example_methods) (config 1 2)
                addr_only (world false [] true) []) as (A & _ & _);
      [reflexivity|reflexivity|by left|reflexivity|].
    apply A. reflexivity.
  - destruct (inbound_transfer_outcomes (H := example_methods) (config 1 2)
                addr_only (world true [] false) []) as (_ & B & _);
      [reflexivity|reflexivity|by left|reflexivity|].
    destruct (B (mkTokenData 5 (js "00") (js "sender")) [])
      as [_ C]; [reflexivity|reflexivity|].
    apply C. reflexivity.
  - destruct (inbound_transfer_outcomes (H := example_methods) (config 1 2)
                addr_without_token (world true [] true) []) as (_ & _ & D);
      [reflexivity|reflexivity|by left|reflexivity|].
    apply D; reflexivity.
Defined.

Lemma proposal_outcomes_witness :
  onMessage (H := example_methods) (config 1 2) (message_of addr_and_hex)
    (world false [] true) []
  = ([ELog Info (js "Evaluating proposal...") None;
      EBroker EvmBroker (IsTxConfirmed (js "tx-1")); ENack], inr tt)
  /\ onMessage (H := example_methods) (config 1 2) (message_of addr_and_hex)
       (world true [] true) []
     = ([ELog Info (js "Evaluating proposal...") None;
         EBroker EvmBroker (IsTxConfirmed (js "tx-1"));
         EBroker EvmBroker
           (SendMySignaturesToProposal (js "00ff") (js "0xdef"));
         EAck], inr tt).
Proof.
  split.
  - destruct (proposal_outcomes (H := example_methods) (config 1 2)
                addr_and_hex (world false [] true) [] EvmBroker (js "hsh"))
      as [A _]; [reflexivity|reflexivity|reflexivity|].
    apply A. reflexivity.
  - destruct (proposal_outcomes (H := example_methods) (config 1 2)
                addr_and_hex (world true [] true) [] EvmBroker (js "hsh"))
      as [_ B]; [reflexivity|reflexivity|reflexivity|].
    apply B; reflexivity.
Defined.

Lemma unknown_data_type_is_nacked_witness :
  onMessage (H := example_methods) (config 1 2) (message_of hex_untyped)
    (world true [] true) []
  = ([ELog Info (js "Evaluating proposal...") None;
      ELog Err (js "Fail to processing hathor event: ")
        (Some (TypeError "undefined is not iterable"));
      ENack], inr tt)
  /\ onMessage (H := example_methods) (config 2 2) (message_of sig_untyped)
       (world true [] true) []
     = ([ELog Info (js "Evaluating signature...") None;
         ELog Err (js "Fail to processing hathor event: ")
           (Some (TypeError "undefined is not iterable"));
         ENack], inr tt).
Proof.
  split.
  - destruct (unknown_data_type_is_nacked (H := example_methods) (config 1 2)
                hex_untyped (world true [] true) []) as [A _];
      [reflexivity|vm_compute; discriminate|vm_compute; discriminate|].
    apply A. reflexivity.
  - destruct (unknown_data_type_is_nacked (H := example_methods) (config 2 2)
                sig_untyped (world true [] true) []) as [_ B];
      [reflexivity|vm_compute; discriminate|vm_compute; discriminate|].
    apply B; [reflexivity|reflexivity|simpl; lia].
Defined.

Lemma push_needs_confirmation_witness :
  exists t : history,
    fst (onMessage (H := example_methods) (config 1 2) (message_of addr_only)
           (world false [] true) []) = [] ++ t
    /\ List.filter is_push t = [].
Proof.
  destruct (push_needs_confirmation (H := example_methods) (config 1 2)
              addr_only (world false [] true) []) as (t & E & _ & N).
  exists t. split; [exact E|]. apply N. intros hh b id. simpl. discriminate.
Defined.

End ServiceFurtherRuns.

Section WalletFurtherRuns.
Import HathorWallet WalletFacts WalletExamples FurtherExamples.

Lemma isWalletReady_other_answers_witness :
  isWalletReady (wallet 1) true 1 unreachable []
  = ([log_checking (wallet 1) true 1; EHttp (status_request (wallet 1) true)],
     inl (Rethrown (js "Fail to get status of " ++ wallet_id (wallet 1) true ++
                    js " wallet: ")
            (JsError (js "connect ECONNREFUSED"))))
  /\ isWalletReady (wallet 1) true 1 (scripted [CLOSED]) []
     = ([log_checking (wallet 1) true 1;
         EHttp (status_request (wallet 1) true)], inr None).
Proof.
  split.
  - destruct (isWalletReady_other_answers (wallet 1) true 1 unreachable [])
      as [A _]; [lia|].
    apply A. reflexivity.
  - destruct (isWalletReady_other_answers (wallet 1) true 1
                (scripted [CLOSED]) []) as [_ B]; [lia|].
    apply (B (ok CLOSED));
      [vm_compute; reflexivity|discriminate|discriminate|discriminate
      |by left].
Defined.

Lemma broadcast_true_or_throws_witness :
  (exists cause,
     snd (broadcastDataToMultisig (wallet 1) [DataOutput (js "hex1100ff")]
            unreachable [])
     = inl (Rethrown (js "Fail to broadcast data to multisig: ") cause))
  /\ snd (broadcastDataToMultisig (wallet 1) [DataOutput (js "hex1100ff")]
            (scripted []) []) = inr true.
Proof.
  split.
  - destruct (broadcast_true_or_throws (wallet 1)
                [DataOutput (js "hex1100ff")] unreachable []) as (_ & _ & C).
    apply C. vm_compute. discriminate.
  - destruct (broadcast_true_or_throws (wallet 1)
                [DataOutput (js "hex1100ff")] (scripted []) [])
      as (_ & [_ B] & _).
    apply B. exists (ok (mkSendTx true (js ""))).
    split; [reflexivity|]. split; reflexivity.
Defined.

Lemma wrapData_output_sizes_witness :
  Forall (fun o => (length (data_text o) <= 150)%nat)
    (wrapData_chunks (js "hex") (sample 300))
  /\ (exists d rest,
        wrapData_chunks (js "hex") (sample 1306) = DataOutput d :: rest
        /\ (151 <= length d)%nat).
Proof.
  split.
  - destruct (wrapData_output_sizes (js "hex") (sample 300)) as (_ & A & _).
    apply A. vm_compute. lia.
  - destruct (wrapData_output_sizes (js "hex") (sample 1306)) as (_ & _ & B).
    apply B. vm_compute. lia.
Defined.

Lemma scripted_nil_syncing (hh : history) (req : httpRequest) :
  exists r, get_status (scripted []) hh req = inr r
            /\ statusCode (data r) = WALLET_STATUS_SYNCING.
Proof. exists (ok SYNCING). split; reflexivity. Qed.

Lemma sendTokensToHathor_ignores_readiness_witness :
  exists (h1 h2 t rest : history),
    isWalletReady1 (wallet 1) true (scripted []) [] = (h1, inr (Some false))
    /\ isWalletReady1 (wallet 1) false (scripted []) h1
       = (h2, inr (Some false))
    /\ fst (sendTokensToHathor (wallet 1) (js "receiver") (js "100")
              (js "0x01") (js "tx-1") (scripted []) [])
       = h2 ++ EReadFile token_mapping_path :: t ++
         EHttp (mint_request (wallet 1) (js "receiver") (js "100")) :: rest
    /\ without_logs t = [].
Proof.
  apply (sendTokensToHathor_ignores_readiness (wallet 1));
    [simpl; lia|exact scripted_nil_syncing].
Defined.

Lemma sendTokensToHathor_requests_witness :
  exists t : history,
    sendTokensToHathor (wallet 1) (js "receiver") (js "100") (js "0x01")
      (js "tx-1") (mapped [(js "0x01", js "00")]) []
    = ([] ++ t, inr tt)
    /\ List.filter is_http t
       = [EHttp (status_request (wallet 1) true);
          EHttp (status_request (wallet 1) false);
          EHttp (mint_request (wallet 1) (js "receiver") (js "100"));
          EHttp (address_request (wallet 1));
          EHttp (send_tx_request (wallet 1)
                   (wrapData_chunks (js "hex") (js "00ff") ++
                    [AddressOutput (js "multisig") 1]))].
Proof.
  apply (sendTokensToHathor_requests (wallet 1)); [simpl; lia| |..].
  - intros hh. exists [(js "0x01", js "00")], (js "0x01", js "00").
    split; reflexivity.
  - intros hh req; eexists; repeat split; reflexivity.
  - intros hh req; eexists; repeat split; reflexivity.
  - intros hh req; eexists; repeat split; reflexivity.
  - intros hh req; eexists; repeat split; reflexivity.
Defined.

Lemma sendTokensToHathor_failed_lookup_witness :
  exists (t : history) (reason : error),
    sendTokensToHathor (wallet 1) (js "receiver") (js "100") (js "0x01")
      (js "tx-1") (mapped []) []
    = ([] ++ t, inl (UnhandledRejection reason))
    /\ List.filter is_http t
       = [EHttp (status_request (wallet 1) true);
          EHttp (status_request (wallet 1) false);
          EHttp (mint_request (wallet 1) (js "receiver") (js "100"))].
Proof.
  destruct (sendTokensToHathor_failed_lookup (wallet 1) (js "receiver")
              (js "100") (js "0x01") (js "tx-1") (mapped []) [])
    as (t & reason & E & _ & F).
  - simpl. lia.
  - intros hh. reflexivity.
  - intros hh req. eexists. split; reflexivity.
  - exists t, reason. split; [exact E|exact F].
Defined.

End WalletFurtherRuns.

Section AllowTokensRuns.
Import JS Effects IAllowTokensV1 AllowTokensFacts AllowTokensExamples.


Lemma cache_holds_allowed_answers_witness :
  allowed limits1 = true
  /\ (token1 ∉ Object_prototype)
  /\ exists before infoAndLimits,
       (before ++ [token1])
         `prefix_of` snd (calls_of fickle [token1; token1] (new 31 1, []))
       /\ fickle before token1 = inr infoAndLimits
       /\ limits1 = result_of infoAndLimits.
Proof.
  apply (cache_holds_allowed_answers fickle 31 1 [token1; token1] token1
           limits1).
  vm_compute. reflexivity.
Defined.

Lemma cached_answer_is_final_witness :
  let s' := calls_of fickle [token1; js "0x02"]
              (calls_of fickle [token1] (new 31 1, [])) in
  getLimits fickle token1 s' = (s', inr (Result limits1))
  /\ fickle (snd s') token1
     = inr (mkInfoAndLimits (mkInfo false) (mkLimits 0 0)).
Proof.
  split.
  - apply (cached_answer_is_final fickle token1 limits1 [token1; js "0x02"]
             (calls_of fickle [token1] (new 31 1, []))).
    vm_compute. reflexivity.
  - vm_compute. reflexivity.
Defined.

Lemma inherited_name_skips_contract_witness :
  let s := calls_of fickle [token1] (new 31 1, []) in
  getLimits fickle (js "constructor") s
  = (s, inr (Inherited (js "constructor"))).
Proof.
  apply (inherited_name_skips_contract fickle 31 1 [token1] (js "constructor")).
  apply elem_of_cons. by left.
Defined.


End AllowTokensRuns.
